(** * SOMVIZ: self-organizing maps ([somviz/som.py])

    A shallow embedding of the map geometry ([MapGeometry], [Grid]), of the
    best-matching-unit search ([SelfOrganizingMap.find_bmu]) and of the
    training loop ([SelfOrganizingMap.fit]), with the properties the
    specification states about them; then of the functions that use a
    trained map ([SelfOrganizingMap.map], [SelfOrganizingMap.map_to_som])
    and of the helpers [table_to_array] and [get_signature], with further
    properties of all of them.  The plotting methods are not modelled.

    Modelling conventions.
    - Python integers are [Z]; lengths, shapes and array indices are [nat].
    - float64 values are modelled by exact numbers: real numbers [R] in the
      training loop and in the separation matrix, and an arbitrary ordered
      scalar type ([DType]) in the BMU search, which numpy runs at the dtype
      of the prototype matrix.  Rounding, infinities and NaN are outside the
      model.
    - Python exceptions are the type [exn]; code that can raise returns a
      [result].
    - numpy arrays that are written in place live in a store ([World]);
      a variable holding such an array holds its location. *)

From Stdlib Require Import String.
From Stdlib Require Import List ZArith Reals Bool Arith Lia Lra.
Import ListNotations.

Set Implicit Arguments.

(** ** Exceptions and results *)

Inductive exn : Type :=
| ValueError
| AssertionError
| ZeroDivisionError
| IndexError
| AttributeError
| TypeError.

Inductive result (X : Type) : Type :=
| Ok (x : X)
| Raise (e : exn).

Arguments Ok {X} x.
Arguments Raise {X} e.

Definition rbind {X Y : Type} (r : result X) (k : X -> result Y) : result Y :=
  match r with
  | Ok x => k x
  | Raise e => Raise e
  end.

(** ** List helpers standing for numpy's elementwise operations *)

Section ListOps.
Variables X Y V : Type.

(** Elementwise binary operation on two arrays of the same length. *)
Fixpoint zip_with (f : X -> Y -> V) (l1 : list X) (l2 : list Y) : list V :=
  match l1, l2 with
  | x :: l1', y :: l2' => f x y :: zip_with f l1' l2'
  | _, _ => []
  end.

(** [flat.reshape(n, m)] of a row-major flat array. *)
Definition reshape2 (n m : nat) (flat : list X) : list (list X) :=
  map (fun i => firstn m (skipn (i * m) flat)) (seq 0 n).

(** Entry [(i, j)] of a matrix stored as a list of rows. *)
Definition mat_get (M : list (list X)) (i j : nat) : option X :=
  match nth_error M i with
  | Some row => nth_error row j
  | None => None
  end.
End ListOps.

(** Number of elements of an array of the given shape ([x.size]). *)
Definition prod (shape : list nat) : nat := fold_right Nat.mul 1%nat shape.

(** Multi-index of the flat (row-major) position [p] in an array of the given
    shape: the index arithmetic behind numpy's [reshape] and broadcasting. *)
Fixpoint unravel (shape : list nat) (p : nat) : list nat :=
  match shape with
  | [] => []
  | _ :: rest => (p / prod rest)%nat :: unravel rest (p mod prod rest)
  end.

(** ** Map geometry *)

Module Grid.

(** An instance of [Grid]: the attributes set by [MapGeometry.__init__] and
    [Grid.__init__]. *)
Record t : Type := mk {
  _size : nat;
  _separations : option (list (list R));
  _shape : list nat;
  _wrap : list bool;
  _metric : string
}.

Definition valid_metric (metric : string) : bool :=
  ((metric =? "L0") || (metric =? "L1") || (metric =? "L2"))%string.

(** [Grid.__init__], called with the signature and the metric. *)
Definition init (signature : list Z) (metric : string) : result t :=
  let shape := map Z.abs_nat signature in
  let size := prod shape in
  let wrap := map (fun k => (k <? 0)%Z) signature in
  if negb (valid_metric metric) then Raise ValueError
  else Ok (mk size None shape wrap metric).

(** Entry [(a, b)] of [dxk], the matrix of integer separations along an
    axis of [nk] nodes. *)
Definition dxk (nk : nat) (wrapk : bool) (a b : nat) : Z :=
  let d := Z.abs (Z.of_nat a - Z.of_nat b) in
  if wrapk && (d >? Z.of_nat nk / 2)%Z then (d * -1 + Z.of_nat nk)%Z else d.

(** [dxk.reshape(S)] broadcast to the shape [shape + shape]: the entry at
    flat position [p] reads [dxk] at coordinates [k] and [ndim + k] of the
    multi-index of [p]. *)
Definition broadcast_dxk (shape : list nat) (k nk : nat) (wrapk : bool)
  : list Z :=
  let ndim := length shape in
  map (fun p =>
         let m := unravel (shape ++ shape) p in
         dxk nk wrapk (nth k m 0%nat) (nth (ndim + k) m 0%nat))
      (seq 0 (prod (shape ++ shape))).

(** One iteration of the loop over axes.  The accumulator holds integers
    (a float64 holds them exactly); the square root is taken at the end. *)
Definition add_axis (g : t) (separation : list Z) (k : nat) (wrapk : bool)
  : result (list Z) :=
  match nth_error (_shape g) k with
  | None => Raise IndexError
  | Some nk =>
      let d := broadcast_dxk (_shape g) k nk wrapk in
      if (_metric g =? "L2")%string then
        Ok (zip_with Z.add separation (map (fun x => x ^ 2)%Z d))
      else if (_metric g =? "L1")%string then
        Ok (zip_with Z.add separation d)
      else if (_metric g =? "L0")%string then
        Ok (zip_with Z.max separation d)
      else Ok separation
  end.

Fixpoint loop_axes (g : t) (separation : list Z) (k : nat)
  (wraps : list bool) : result (list Z) :=
  match wraps with
  | [] => Ok separation
  | wrapk :: rest =>
      rbind (add_axis g separation k wrapk)
            (fun separation' => loop_axes g separation' (S k) rest)
  end.

(** [Grid._calculate_separations]. *)
Definition _calculate_separations (g : t) : result (list (list R)) :=
  let separation := repeat 0%Z (prod (_shape g ++ _shape g)) in
  rbind (loop_axes g separation 0 (_wrap g))
        (fun separation =>
           let separation :=
             if (_metric g =? "L2")%string
             then map (fun z => sqrt (IZR z)) separation
             else map IZR separation in
           Ok (reshape2 (_size g) (_size g) separation)).

(** The property [MapGeometry.separations]: lazy evaluation with a cache.
    Returns the matrix and the instance with its cache filled. *)
Definition separations (g : t) : result (list (list R) * t) :=
  match _separations g with
  | None =>
      rbind (_calculate_separations g)
            (fun s => Ok (s, mk (_size g) (Some s) (_shape g) (_wrap g)
                                (_metric g)))
  | Some s => Ok (s, g)
  end.

End Grid.

(** ** Scalars

    numpy runs the BMU search at the dtype of the prototype matrix.  A
    [DType] is a scalar type with the arithmetic the search uses and a strict
    order in which incomparable scalars are equally large
    ([dltb_cotrans]), as for numbers. *)

Class DType (A : Type) : Type := {
  dzero : A;
  dadd : A -> A -> A;
  dsub : A -> A -> A;
  dmul : A -> A -> A;
  dltb : A -> A -> bool;
  dltb_irrefl : forall a : A, dltb a a = false;
  dltb_trans : forall a b c : A,
      dltb a b = true -> dltb b c = true -> dltb a c = true;
  dltb_cotrans : forall a b c : A,
      dltb a c = true -> dltb a b = true \/ dltb b c = true
}.

(** Integer data. *)
#[global, refine] Instance DType_Z : DType Z := {
  dzero := 0%Z;
  dadd := Z.add;
  dsub := Z.sub;
  dmul := Z.mul;
  dltb := Z.ltb
}.
Proof.
  - intros a. apply Z.ltb_irrefl.
  - intros a b c H1 H2. apply Z.ltb_lt in H1, H2. apply Z.ltb_lt. lia.
  - intros a b c H. apply Z.ltb_lt in H.
    destruct (Z.ltb_spec a b); [now left | right; apply Z.ltb_lt; lia].
Defined.

Definition Rltb (x y : R) : bool := if Rlt_dec x y then true else false.

(** float64 data, idealised as real numbers. *)
#[global, refine] Instance DType_R : DType R := {
  dzero := 0%R;
  dadd := Rplus;
  dsub := Rminus;
  dmul := Rmult;
  dltb := Rltb
}.
Proof.
  - unfold Rltb. intros a. destruct (Rlt_dec a a); [lra | reflexivity].
  - unfold Rltb. intros a b c H1 H2.
    destruct (Rlt_dec a b), (Rlt_dec b c); try discriminate.
    destruct (Rlt_dec a c); [reflexivity | lra].
  - unfold Rltb. intros a b c H.
    destruct (Rlt_dec a c); [|discriminate].
    destruct (Rlt_dec a b); [now left | right].
    destruct (Rlt_dec b c); [reflexivity | lra].
Defined.

(** ** Computations with a state that may raise

    A Python statement runs in a state, changes it, and returns a value or
    raises an exception. *)

Section StateError.
Context {St : Type}.

Definition ST (X : Type) : Type := St -> St * result X.

Definition ret {X : Type} (x : X) : ST X := fun s => (s, Ok x).

Definition raise {X : Type} (e : exn) : ST X := fun s => (s, Raise e).

Definition bind {X Y : Type} (c : ST X) (k : X -> ST Y) : ST Y :=
  fun s =>
    match c s with
    | (s', Ok x) => k x s'
    | (s', Raise e) => (s', Raise e)
    end.

(** A pure computation that may raise. *)
Definition lift {X : Type} (r : result X) : ST X := fun s => (s, r).

End StateError.

Arguments ST St X : clear implicits.

Declare Scope py_scope.
Delimit Scope py_scope with py.
Notation "x <- c1 ;; c2" := (bind c1 (fun x => c2))
  (at level 61, c1 at next level, right associativity) : py_scope.
Notation "' pat <- c1 ;; c2" :=
  (bind c1 (fun x => match x with pat => c2 end))
  (at level 61, pat pattern, c1 at next level, right associativity)
  : py_scope.
Notation "c1 ;; c2" := (bind c1 (fun _ => c2))
  (at level 61, right associativity) : py_scope.

Section Control.
Context {St : Type}.
Local Open Scope py_scope.

(** [for i in items: body(i)]. *)
Fixpoint for_each {I : Type} (items : list I) (body : I -> ST St unit)
  : ST St unit :=
  match items with
  | [] => ret tt
  | i :: rest => body i ;; for_each rest body
  end.

(** A loop that carries local variables from one iteration to the next. *)
Fixpoint for_fold {I S : Type} (items : list I) (body : I -> S -> ST St S)
  (s : S) : ST St S :=
  match items with
  | [] => ret s
  | i :: rest => s' <- body i s ;; for_fold rest body s'
  end.

(** [range(n)]: empty when [n <= 0]. *)
Definition range (n : Z) : list Z := map Z.of_nat (seq 0 (Z.to_nat n)).

(** [assert b]. *)
Definition assert (b : bool) : ST St unit :=
  if b then ret tt else raise AssertionError.

(** [a // b] on Python integers. *)
Definition floordiv (a b : Z) : ST St Z :=
  if (b =? 0)%Z then raise ZeroDivisionError else ret (a / b)%Z.

End Control.

(** ** The store

    Arrays that the code writes in place are cells of a store; a Python
    variable or attribute that holds such an array holds its location. *)

Definition loc : Type := nat.

(** The attributes of a [SelfOrganizingMap] that [__init__] and [fit] assign;
    an attribute that has not been assigned yet is [None]. *)
Record SOM : Type := mkSOM {
  _mapgeom : Grid.t;
  _weights : option loc;
  _loss : option loc;
  data : option loc
}.

Section Store.
Context {A : Type}.

(** A numpy array, with the trailing dimensions of its shape. *)
Inductive ndarray : Type :=
| Int1 (v : list Z)
| Arr1 (v : list A)
| Arr2 (m : nat) (rows : list (list A))
| Arr3 (d w : nat) (planes : list (list (list A))).

(** The state of the program: the store, the map instance [self], what
    freshly allocated memory holds ([np.empty] does not initialise), and a
    ghost trace with the learning rate and the neighbourhood width of every
    prototype update applied so far. *)
Record World : Type := mkWorld {
  heap : list ndarray;
  self : SOM;
  junk : A;
  junk_int : Z;
  trace : list (A * A)
}.

(** Computations that read and write the world and may raise. *)
Definition M (X : Type) : Type := ST World X.

Definition get_self : M SOM := fun w => (w, Ok (self w)).

Definition set_self (s : SOM) : M unit :=
  fun w => (mkWorld (heap w) s (junk w) (junk_int w) (trace w), Ok tt).

Definition get_junk : M A := fun w => (w, Ok (junk w)).

Definition get_junk_int : M Z := fun w => (w, Ok (junk_int w)).

Definition log (e : A * A) : M unit :=
  fun w =>
    (mkWorld (heap w) (self w) (junk w) (junk_int w) (trace w ++ [e]),
     Ok tt).

Definition set_heap (h : list ndarray) (w : World) : World :=
  mkWorld h (self w) (junk w) (junk_int w) (trace w).

(** A new array. *)
Definition alloc (a : ndarray) : M loc :=
  fun w => (set_heap (heap w ++ [a]) w, Ok (length (heap w))).

(** Replace the cell at position [l]. *)
Fixpoint list_set {X : Type} (l : nat) (x : X) (h : list X) : list X :=
  match h, l with
  | [], _ => []
  | _ :: h', O => x :: h'
  | y :: h', S l' => y :: list_set l' x h'
  end.

(** Reading and writing an array.  Python has no dangling reference; on a
    location that is not allocated the model raises TypeError. *)
Definition load (l : loc) : M ndarray :=
  fun w =>
    match nth_error (heap w) l with
    | Some a => (w, Ok a)
    | None => (w, Raise TypeError)
    end.

Definition store (l : loc) (a : ndarray) : M unit :=
  fun w =>
    match nth_error (heap w) l with
    | Some _ => (set_heap (list_set l a (heap w)) w, Ok tt)
    | None => (w, Raise TypeError)
    end.

End Store.

Arguments ndarray A : clear implicits.
Arguments World A : clear implicits.
Arguments M A X : clear implicits.

Section ArrayAccess.
Context {A : Type}.
Local Open Scope py_scope.

(** [N, D = a.shape]: raises ValueError unless [a] is two-dimensional. *)
Definition load2 (l : loc) : M A (nat * list (list A)) :=
  a <- load l ;;
  match a with
  | Arr2 m rows => ret (m, rows)
  | _ => raise ValueError
  end.

Definition shape2 (l : loc) : M A (nat * nat) :=
  '(m, rows) <- load2 l ;; ret (length rows, m).

End ArrayAccess.

(** ** Best-matching-unit search *)

Section ArrayOps.
Context {A : Type} `{DType A}.

(** [np.argmin] of a one-dimensional array: the first index that holds the
    minimum; raises ValueError on an empty array.  [argmin_from best mp i l]
    scans [l], whose first element has index [i], with the running minimum
    [mp] found at index [best]. *)
Fixpoint argmin_from (best : nat) (mp : A) (i : nat) (l : list A) : nat :=
  match l with
  | [] => best
  | x :: l' =>
      if dltb x mp then argmin_from i x (S i) l'
      else argmin_from best mp (S i) l'
  end.

Definition argmin (l : list A) : result nat :=
  match l with
  | [] => Raise ValueError
  | x :: l' => Ok (argmin_from 0 x 1 l')
  end.

(** [np.argmin(d, axis=1)] of a two-dimensional array. *)
Fixpoint argmin_axis1 (d : list (list A)) : result (list Z) :=
  match d with
  | [] => Ok []
  | row :: rest =>
      rbind (argmin row) (fun j =>
      rbind (argmin_axis1 rest) (fun js => Ok (Z.of_nat j :: js)))
  end.

(** [x[:, :, np.newaxis]] broadcast along a last axis of length [W]. *)
Definition newaxis_broadcast (W : nat) (x : list (list A))
  : list (list (list A)) :=
  map (fun row => map (fun v => repeat v W) row) x.

(** [buf[:n] = x] for [x] with [n] planes. *)
Definition assign_first (n : nat) (x buf : list (list (list A)))
  : result (list (list (list A))) :=
  if (n <=? length buf)%nat then Ok (x ++ skipn n buf)
  else Raise ValueError.

(** [buf - weights], the matrix broadcast over the planes of [buf]. *)
Definition sub_broadcast (buf : list (list (list A)))
  (weights : list (list A)) : list (list (list A)) :=
  map (fun plane => zip_with (zip_with dsub) plane weights) buf.

(** [np.power(buf, 2)]. *)
Definition power2 (buf : list (list (list A))) : list (list (list A)) :=
  map (map (map (fun v => dmul v v))) buf.

(** [np.sum(a, axis=0)] of an array of shape [(D, W)]. *)
Definition sum_axis0 (W : nat) (a : list (list A)) : list A :=
  fold_left (zip_with dadd) a (repeat dzero W).

(** [np.sum(buf, axis=1)] of an array of shape [(S, D, W)]. *)
Definition sum_axis1 (W : nat) (buf : list (list (list A)))
  : list (list A) :=
  map (sum_axis0 W) buf.

(** [bmu[ilo:ihi] = js]. *)
Definition assign_slice (ilo ihi : nat) (js bmu : list Z) : list Z :=
  firstn ilo bmu ++ js ++ skipn ihi bmu.

End ArrayOps.

Module SelfOrganizingMap.
Section FindBmu.
Context {A : Type} `{DType A}.
Local Open Scope py_scope.

(** [SelfOrganizingMap.__init__]. *)
Definition init (mapgeom : Grid.t) : SOM := mkSOM mapgeom None None None.

(** [self._weights]: AttributeError before the first [fit]. *)
Definition self_weights : M A loc :=
  s <- get_self ;;
  match _weights s with
  | Some l => ret l
  | None => raise AttributeError
  end.

Definition load_int1 (l : loc) : M A (list Z) :=
  a <- load l ;;
  match a with
  | Int1 v => ret v
  | _ => raise TypeError
  end.

Definition load3 (l : loc) : M A (nat * nat * list (list (list A))) :=
  a <- load l ;;
  match a with
  | Arr3 d w planes => ret (d, w, planes)
  | _ => raise TypeError
  end.

(** [np.empty(n, int)], [np.empty((S, W))] and [np.empty((S, D, W))]: a
    negative dimension raises ValueError. *)
Definition np_empty_int (n : nat) : M A loc :=
  j <- get_junk_int ;; alloc (Int1 (repeat j n)).

Definition np_empty2 (S : Z) (W : nat) : M A loc :=
  if (S <? 0)%Z then raise ValueError
  else j <- get_junk ;; alloc (Arr2 W (repeat (repeat j W) (Z.to_nat S))).

Definition np_empty3 (S : Z) (D W : nat) : M A loc :=
  if (S <? 0)%Z then raise ValueError
  else j <- get_junk ;;
       alloc (Arr3 D W (repeat (repeat (repeat j W) D) (Z.to_nat S))).

(** One batch of [find_bmu]: the body of the loop. *)
Definition find_bmu_batch (data : loc) (batchsize : Z) (N : nat)
  (bmu buf distsq : loc) (ibatch : Z) : M A unit :=
  let ilo := (ibatch * batchsize)%Z in
  let ihi := Z.min (ilo + batchsize) (Z.of_nat N) in
  let n := Z.to_nat (ihi - ilo) in
  (* buf[:ihi-ilo] = data[ilo:ihi,:,np.newaxis] *)
  '(_, rows) <- load2 data ;;
  '(D, W, planes) <- load3 buf ;;
  planes <- lift (assign_first n
                    (newaxis_broadcast W
                       (firstn n (skipn (Z.to_nat ilo) rows)))
                    planes) ;;
  store buf (Arr3 D W planes) ;;
  (* buf -= self._weights *)
  wl <- self_weights ;;
  '(_, weights) <- load2 wl ;;
  '(D, W, planes) <- load3 buf ;;
  store buf (Arr3 D W (sub_broadcast planes weights)) ;;
  (* buf = np.power(buf, 2, out=buf) *)
  '(D, W, planes) <- load3 buf ;;
  store buf (Arr3 D W (power2 planes)) ;;
  (* distsq[:] = np.sum(buf, axis=1) *)
  '(D, W, planes) <- load3 buf ;;
  '(W', _) <- load2 distsq ;;
  store distsq (Arr2 W' (sum_axis1 W planes)) ;;
  (* bmu[ilo:ihi] = np.argmin(distsq[:ihi-ilo], axis=1) *)
  '(_, d) <- load2 distsq ;;
  js <- lift (argmin_axis1 (firstn n d)) ;;
  v <- load_int1 bmu ;;
  store bmu (Int1 (assign_slice (Z.to_nat ilo) (Z.to_nat ihi) js v)).

(** [SelfOrganizingMap.find_bmu(data, batchsize)], with [verbose] off.
    Returns the location of the array of best matching units. *)
Definition find_bmu (data : loc) (batchsize : Z) : M A loc :=
  '(N, D) <- shape2 data ;;
  wl <- self_weights ;;
  '(D2, W) <- shape2 wl ;;
  assert (D =? D2)%nat ;;
  bmu <- np_empty_int N ;;
  nbatch <- floordiv (Z.of_nat N + batchsize - 1) batchsize ;;
  (* Preallocate the fixed storage to use. *)
  let S := Z.min (Z.of_nat N) batchsize in
  buf <- np_empty3 S D W ;;
  distsq <- np_empty2 S W ;;
  (* Loop over batches. *)
  for_each (range nbatch)
    (find_bmu_batch data batchsize N bmu buf distsq) ;;
  ret bmu.

End FindBmu.
End SelfOrganizingMap.

(** ** Numerics of the training loop

    Python and numpy functions on floats, on real numbers.  A result that is
    NaN in numpy (the mean of an empty array, a division of zero by zero) is
    whatever the real expression denotes here. *)

Definition matrix : Type := list (list R).

(** [round(x)]: the nearest integer, a tie going to the even one. *)
Definition py_round (x : R) : Z :=
  let f := Zfloor x in
  let frac := (x - IZR f)%R in
  if Rlt_dec frac (1 / 2) then f
  else if Rlt_dec (1 / 2) frac then (f + 1)%Z
  else if Z.even f then f else (f + 1)%Z.

(** [a / b] on Python integers. *)
Definition py_truediv (a b : Z) : result R :=
  if (b =? 0)%Z then Raise ZeroDivisionError else Ok (IZR a / IZR b)%R.

(** [x ** y] for a Python float [x].  A negative base with a fractional
    exponent gives a complex number, here [None]; zero to a negative power
    raises. *)
Definition py_pow (x y : R) : result (option R) :=
  if Req_dec_T y 0 then Ok (Some 1%R)
  else if Rlt_dec 0 x then Ok (Some (Rpower x y))
  else if Req_dec_T x 0 then
    if Rlt_dec 0 y then Ok (Some 0%R) else Raise ZeroDivisionError
  else if Req_dec_T (IZR (Zfloor y)) y then
    Ok (Some (if Z.even (Zfloor y) then Rpower (- x) y
              else - Rpower (- x) y)%R)
  else Ok None.

(** [x ** y] for a numpy float [x].  numpy raises nothing: zero to a
    negative power is infinite and a negative base with a fractional
    exponent gives NaN, both outside the model (0 here). *)
Definition np_pow (x y : R) : R :=
  if Req_dec_T y 0 then 1%R
  else if Rlt_dec 0 x then Rpower x y
  else if Req_dec_T x 0 then 0%R
  else if Req_dec_T (IZR (Zfloor y)) y then
    (if Z.even (Zfloor y) then Rpower (- x) y else - Rpower (- x) y)%R
  else 0%R.

(** An in-place update of a float array with a complex value raises a
    TypeError (numpy's casting error). *)
Definition real_of (v : option R) : result R :=
  match v with
  | Some r => Ok r
  | None => Raise TypeError
  end.

(** [l[i]] for a non-negative index. *)
Definition getitem {X : Type} (l : list X) (i : nat) : result X :=
  match nth_error l i with
  | Some x => Ok x
  | None => Raise IndexError
  end.

(** [a[idx]] for an array of indices: the rows selected, as a new array. *)
Fixpoint take_rows {X : Type} (a : list X) (idx : list nat)
  : result (list X) :=
  match idx with
  | [] => Ok []
  | i :: rest =>
      rbind (getitem a i) (fun x =>
      rbind (take_rows a rest) (fun xs => Ok (x :: xs)))
  end.

(** [np.max(a)]. *)
Definition np_max (a : matrix) : result R :=
  match concat a with
  | [] => Raise ValueError
  | v :: vs => Ok (fold_left Rmax vs v)
  end.

(** [np.min(v)]. *)
Definition np_min (v : list R) : result R :=
  match v with
  | [] => Raise ValueError
  | x :: xs => Ok (fold_left Rmin xs x)
  end.

(** [a[np.where(b > 0.)]] for arrays of the same shape. *)
Definition where_positive (a b : matrix) : list R :=
  map fst (filter (fun p => Rltb 0 (snd p)) (combine (concat a) (concat b))).

(** [np.mean(a)]. *)
Definition np_mean (a : matrix) : R :=
  (fold_left Rplus (concat a) 0 / INR (length (concat a)))%R.

(** [np.std(a, axis=0)] of an array with [D] columns. *)
Definition np_std_axis0 (D : nat) (a : matrix) : list R :=
  map (fun k =>
         let col := map (fun row => nth k row 0%R) a in
         let n := INR (length col) in
         let mean := (fold_left Rplus col 0 / n)%R in
         sqrt (fold_left Rplus
                 (map (fun v => (Rabs (v - mean) ^ 2)%R) col) 0 / n)%R)
      (seq 0 D).

(** [x.reshape(-1, 1) - weights]. *)
Definition sub_columns (x : list R) (weights : matrix) : matrix :=
  zip_with (fun xk row => map (fun v => (xk - v)%R) row) x weights.

(** [dx ** 2]. *)
Definition square2 (dx : matrix) : matrix :=
  map (map (fun v => (v * v)%R)) dx.

(** [coef * dx], the vector [coef] broadcast over the rows of [dx]. *)
Definition scale_rows (coef : list R) (dx : matrix) : matrix :=
  map (zip_with Rmult coef) dx.

(** [weights + delta]. *)
Definition add2 (weights delta : matrix) : matrix :=
  zip_with (zip_with Rplus) weights delta.

(** ** The random generator

    [np.random.RandomState] belongs to numpy.  The training loop is modelled
    over any generator with these operations: creation from a seed, [rand]
    and [normal] for a matrix of the given shape, and [choice(N, k)], which
    may raise.  Each operation returns the next state of the generator. *)
Class RandomStateOps : Type := {
  rng_state : Type;
  RandomState : Z -> rng_state;
  rng_rand : rng_state -> nat -> nat -> matrix * rng_state;
  rng_normal : rng_state -> nat -> nat -> matrix * rng_state;
  rng_choice : rng_state -> nat -> Z -> result (list nat) * rng_state
}.

(** ** Training *)


Module Fit.
Section Fit.
Context `{RandomStateOps}.
Local Open Scope py_scope.
Local Open Scope R_scope.
Import SelfOrganizingMap.

Definition self_loss : M R loc :=
  s <- get_self ;;
  match _loss s with
  | Some l => ret l
  | None => raise AttributeError
  end.

Definition self_data : M R loc :=
  s <- get_self ;;
  match data s with
  | Some l => ret l
  | None => raise AttributeError
  end.

Definition set_data (l : loc) : M R unit :=
  s <- get_self ;;
  set_self (mkSOM (_mapgeom s) (_weights s) (_loss s) (Some l)).

Definition set_loss (l : loc) : M R unit :=
  s <- get_self ;;
  set_self (mkSOM (_mapgeom s) (_weights s) (Some l) (data s)).

Definition set_weights (l : loc) : M R unit :=
  s <- get_self ;; set_self (mkSOM (_mapgeom s) (Some l) (_loss s) (data s)).

(** [self._mapgeom.size]. *)
Definition mapgeom_size : M R nat :=
  s <- get_self ;; ret (Grid._size (_mapgeom s)).

(** [self._mapgeom.separations]: the first access fills the cache of the
    geometry. *)
Definition mapgeom_separations : M R matrix :=
  s <- get_self ;;
  '(sep, g) <- lift (Grid.separations (_mapgeom s)) ;;
  set_self (mkSOM g (_weights s) (_loss s) (data s)) ;;
  ret sep.

(** Reading [self._weights]. *)
Definition read_weights : M R (nat * matrix) :=
  wl <- self_weights ;; load2 wl.

(** [self._weights += delta], in place. *)
Definition weights_iadd (delta : matrix) : M R unit :=
  wl <- self_weights ;;
  '(m, weights) <- load2 wl ;;
  store wl (Arr2 m (add2 weights delta)).

Definition load1 (l : loc) : M R (list R) :=
  a <- load l ;;
  match a with
  | Arr1 v => ret v
  | _ => raise TypeError
  end.

(** [np.empty(n)]. *)
Definition np_empty1 (n : Z) : M R loc :=
  if (n <? 0)%Z then raise ValueError
  else j <- get_junk ;; alloc (Arr1 (repeat j (Z.to_nat n))).

(** [self._loss[it] = loss]. *)
Definition setitem_loss (it : Z) (loss : R) : M R unit :=
  ll <- self_loss ;;
  v <- load1 ll ;;
  if (Z.to_nat it <? length v)%nat
  then store ll (Arr1 (list_set (Z.to_nat it) loss v))
  else raise IndexError.

(** [self.data[batch_idx]]. *)
Definition data_rows (batch_idx : list nat) : M R matrix :=
  dl <- self_data ;;
  '(_, rows) <- load2 dl ;;
  lift (take_rows rows batch_idx).

Definition aps : R := 0.8.
Definition ape : R := 0.5.

(** One sample of an epoch in SOMz mode: the body of the inner loop. *)
Definition somz_sample_step (alpha : option R) (sigma : R) (x : list R)
  (loss : R) : M R R :=
  (* dx = x.reshape(-1, 1) - self._weights *)
  '(m, weights) <- read_weights ;;
  let dx := sub_columns x weights in
  (* distsq = np.sum(dx ** 2, axis=0) *)
  let distsq := sum_axis0 m (square2 dx) in
  (* best = np.argmin(distsq) *)
  best <- lift (argmin distsq) ;;
  (* h = np.exp(-(self._mapgeom.separations[best] ** 2) / sigma ** 2) *)
  sep <- mapgeom_separations ;;
  row <- lift (getitem sep best) ;;
  let h := map (fun s => exp (- (s ^ 2) / sigma ^ 2)) row in
  (* loss += np.sqrt(np.sum(dx ** 2, axis=0))[best] *)
  l <- lift (getitem (map sqrt (sum_axis0 m (square2 dx))) best) ;;
  let loss := loss + l in
  (* self._weights += alpha * h * dx *)
  alpha <- lift (real_of alpha) ;;
  weights_iadd (scale_rows (map (Rmult alpha) h) dx) ;;
  log (alpha, sigma) ;;
  ret loss.

(** One epoch in SOMz mode: the body of the outer loop. *)
Definition somz_epoch (tt nt : Z) (sigma0 sigma_single : R) (N : nat)
  (batch_size : Z) (it : Z) (rng : rng_state) : M R rng_state :=
  let loss := 0 in
  (* alpha = aps * (ape / aps) ** (tt / nt) *)
  r <- lift (py_truediv tt nt) ;;
  p <- lift (py_pow (ape / aps) r) ;;
  let alpha := option_map (Rmult aps) p in
  (* sigma = sigma0 * (sigma_single / sigma0) ** (tt / nt) *)
  r <- lift (py_truediv tt nt) ;;
  let sigma := sigma0 * np_pow (sigma_single / sigma0) r in
  (* batch_idx = rng.choice(N, batch_size) *)
  let '(batch_idx, rng) := rng_choice rng N batch_size in
  batch_idx <- lift batch_idx ;;
  xs <- data_rows batch_idx ;;
  loss <- for_fold xs (somz_sample_step alpha sigma) loss ;;
  setitem_loss it loss ;;
  ret rng.

(** One sample of an epoch in the default mode. *)
Definition somviz_sample_step (learn_rate : option R) (gauss_width : R)
  (x : list R) (loss : R) : M R R :=
  (* dx = x.reshape(-1, 1) - self._weights *)
  '(m, weights) <- read_weights ;;
  let dx := sub_columns x weights in
  (* distsq = np.sum(dx ** 2, axis=0) *)
  let distsq := sum_axis0 m (square2 dx) in
  (* bmu = np.argmin(distsq) *)
  bmu <- lift (argmin distsq) ;;
  (* loss += np.sqrt(distsq[bmu]) *)
  d <- lift (getitem distsq bmu) ;;
  let loss := loss + sqrt d in
  (* dz = self._mapgeom.separations[bmu] *)
  sep <- mapgeom_separations ;;
  dz <- lift (getitem sep bmu) ;;
  (* self._weights +=
       learn_rate * np.exp(-0.5 * (dz / gauss_width) ** 2) * dx *)
  learn_rate <- lift (real_of learn_rate) ;;
  let coef :=
    map (fun z => learn_rate * exp (-0.5 * (z / gauss_width) ^ 2)) dz in
  weights_iadd (scale_rows coef dx) ;;
  log (learn_rate, gauss_width) ;;
  ret loss.

(** One epoch in the default mode.  [progress] is only printed. *)
Definition somviz_epoch (eta large_scale : R) (maxiter : Z) (N : nat)
  (batch_size : Z) (i : Z) (rng : rng_state) : M R rng_state :=
  let loss := 0 in
  (* learn_rate = eta ** (i / maxiter) *)
  r <- lift (py_truediv i maxiter) ;;
  learn_rate <- lift (py_pow eta r) ;;
  (* gauss_width = 0.5 * large_scale ** (1 - i / maxiter) *)
  r <- lift (py_truediv i maxiter) ;;
  let gauss_width := 0.5 * np_pow large_scale (1 - r) in
  (* batch_idx = rng.choice(N, batch_size) *)
  let '(batch_idx, rng) := rng_choice rng N batch_size in
  batch_idx <- lift batch_idx ;;
  xs <- data_rows batch_idx ;;
  loss <- for_fold xs (somviz_sample_step learn_rate gauss_width) loss ;;
  setitem_loss i loss ;;
  ret rng.

(** The initial prototype matrix, [init == 'random']. *)
Definition init_weights (somz : bool) (D : nat) (rng : rng_state)
  : M R rng_state :=
  size <- mapgeom_size ;;
  if somz then
    (* (rng.rand(D, self._mapgeom.size)) + self.data[0,0] *)
    let '(u, rng) := rng_rand rng D size in
    dl <- self_data ;;
    '(_, rows) <- load2 dl ;;
    row0 <- lift (getitem rows 0) ;;
    x00 <- lift (getitem row0 0) ;;
    wl <- alloc (Arr2 size (map (map (fun v => v + x00)) u)) ;;
    set_weights wl ;;
    ret rng
  else
    (* np.std(self.data, axis=0, keepdims=True).T * rng.normal(...) *)
    dl <- self_data ;;
    '(_, rows) <- load2 dl ;;
    let sigmas := np_std_axis0 D rows in
    let '(g, rng) := rng_normal rng D size in
    wl <- alloc (Arr2 size (zip_with (fun s row => map (Rmult s) row)
                              sigmas g)) ;;
    set_weights wl ;;
    ret rng.

(** The two training modes: the part of [fit] that follows the
    initialisation. *)
Definition train (maxiter : Z) (eta : R) (somz : bool) (N : nat)
  (batch_size : Z) (rng : rng_state) : M R unit :=
  if somz then
    let tt := 0%Z in
    sep <- mapgeom_separations ;;
    sigma0 <- lift (np_max sep) ;;
    sep <- mapgeom_separations ;;
    sep' <- mapgeom_separations ;;
    sigma_single <- lift (np_min (where_positive sep sep')) ;;
    let nt := (maxiter * Z.of_nat N)%Z in
    for_fold (range maxiter)
      (somz_epoch tt nt sigma0 sigma_single N batch_size) rng ;;
    ret Datatypes.tt
  else
    (* Calculate mean separation between grid points. *)
    sep <- mapgeom_separations ;;
    let large_scale := np_mean sep in
    for_fold (range maxiter)
      (somviz_epoch eta large_scale maxiter N batch_size) rng ;;
    ret tt.

(** [SelfOrganizingMap.fit(data, maxiter, iterfrac, eta, init, seed,
    somz)] with [save=None]: nothing is restored from or saved to disk.
    Printing is not modelled. *)
Definition fit (data : loc) (maxiter : Z) (iterfrac eta : R)
  (init : string) (seed : Z) (somz : bool) : M R unit :=
  let rng := RandomState seed in
  (* self.data = np.asarray(data); N, D = self.data.shape *)
  set_data data ;;
  dl <- self_data ;;
  '(N, D) <- shape2 dl ;;
  let batch_size := py_round (iterfrac * INR N) in
  (* Store loss values for every epoch. *)
  ll <- np_empty1 maxiter ;;
  set_loss ll ;;
  rng <- (if (init =? "random")%string then init_weights somz D rng
          else raise ValueError) ;;
  train maxiter eta somz N batch_size rng.

End Fit.
End Fit.

(** ** What the BMU search is to compute *)

Section BmuSpec.
Context {A : Type} `{DType A}.

(** A two-dimensional array of shape [(n, m)]. *)
Definition well_shaped (n m : nat) (rows : list (list A)) : Prop :=
  length rows = n /\ Forall (fun row => length row = m) rows.

(** Squared Euclidean distance between the sample [x] and prototype [w],
    the column [w] of the prototype matrix. *)
Definition sqdist (x : list A) (weights : list (list A)) (w : nat) : A :=
  fold_left dadd
    (zip_with (fun xd row => let v := dsub xd (nth w row dzero) in dmul v v)
       x weights)
    dzero.

(** [j] is the first of the indices below [W] at which [d] is minimal. *)
Definition is_first_min (d : nat -> A) (W j : nat) : Prop :=
  (j < W)%nat /\
  (forall k : nat, (k < W)%nat -> dltb (d k) (d j) = false) /\
  (forall k : nat, (k < j)%nat -> dltb (d j) (d k) = true).

(** The best matching unit of the sample [x] among [W] prototypes. *)
Definition nearest (weights : list (list A)) (W : nat) (x : list A) : nat :=
  match map (sqdist x weights) (seq 0 W) with
  | [] => 0%nat
  | d :: ds => argmin_from 0 d 1 ds
  end.

(** The world holds an [(N, D)] data matrix at [data] and the instance
    holds a [(D, W)] prototype matrix. *)
Definition bmu_inputs (w : World A) (data : loc) (N D W : nat)
  (rows weights : list (list A)) : Prop :=
  nth_error (heap w) data = Some (Arr2 D rows) /\
  well_shaped N D rows /\
  exists wl : loc,
    _weights (self w) = Some wl /\
    nth_error (heap w) wl = Some (Arr2 W weights) /\
    well_shaped D W weights.

(** The assignment vector a computation returned, if it returned one. *)
Definition returned_vector (out : World A * result loc) : option (list Z) :=
  match out with
  | (w, Ok l) =>
      match nth_error (heap w) l with
      | Some (Int1 v) => Some v
      | _ => None
      end
  | (_, Raise _) => None
  end.

End BmuSpec.

(** ** Training on values

    The training loop once more, on a state that holds the prototype matrix
    and the loss history as values instead of arrays in the store.  It is
    the reference the store-based [Fit.fit] is proved to follow; what a run
    computes is read off from it.  An entry of the loss history that has not
    been written is [None]. *)

Module FitSpec.
Section FitSpec.
Context `{RandomStateOps}.
Local Open Scope py_scope.
Local Open Scope R_scope.
Import Fit.

Record Train : Type := mkTrain {
  t_m : nat;
  t_weights : matrix;
  t_loss : list (option R);
  t_trace : list (R * R)
}.

Definition read_weights : ST Train (nat * matrix) :=
  fun st => (st, Ok (t_m st, t_weights st)).

Definition weights_iadd (delta : matrix) : ST Train unit :=
  fun st =>
    (mkTrain (t_m st) (add2 (t_weights st) delta) (t_loss st) (t_trace st),
     Ok tt).

Definition log (e : R * R) : ST Train unit :=
  fun st =>
    (mkTrain (t_m st) (t_weights st) (t_loss st) (t_trace st ++ [e]),
     Ok tt).

Definition setitem_loss (it : Z) (loss : R) : ST Train unit :=
  fun st =>
    if (Z.to_nat it <? length (t_loss st))%nat
    then (mkTrain (t_m st) (t_weights st)
            (list_set (Z.to_nat it) (Some loss) (t_loss st)) (t_trace st),
          Ok tt)
    else (st, Raise IndexError).

(** The parameters of a run: the separations of the geometry and the
    rows of the data matrix. *)
Variables (sep : matrix) (X : matrix).

Definition somz_sample_step (alpha : option R) (sigma : R) (x : list R)
  (loss : R) : ST Train R :=
  '(m, weights) <- read_weights ;;
  let dx := sub_columns x weights in
  let distsq := sum_axis0 m (square2 dx) in
  best <- lift (argmin distsq) ;;
  s1 <- ret sep ;;
  row <- lift (getitem s1 best) ;;
  let h := map (fun s => exp (- (s ^ 2) / sigma ^ 2)) row in
  l <- lift (getitem (map sqrt (sum_axis0 m (square2 dx))) best) ;;
  let loss := loss + l in
  alpha <- lift (real_of alpha) ;;
  weights_iadd (scale_rows (map (Rmult alpha) h) dx) ;;
  log (alpha, sigma) ;;
  ret loss.

Definition somz_epoch (tt nt : Z) (sigma0 sigma_single : R) (N : nat)
  (batch_size : Z) (it : Z) (rng : rng_state) : ST Train rng_state :=
  let loss := 0 in
  r <- lift (py_truediv tt nt) ;;
  p <- lift (py_pow (ape / aps) r) ;;
  let alpha := option_map (Rmult aps) p in
  r <- lift (py_truediv tt nt) ;;
  let sigma := sigma0 * np_pow (sigma_single / sigma0) r in
  let '(batch_idx, rng) := rng_choice rng N batch_size in
  batch_idx <- lift batch_idx ;;
  xs <- lift (take_rows X batch_idx) ;;
  loss <- for_fold xs (somz_sample_step alpha sigma) loss ;;
  setitem_loss it loss ;;
  ret rng.

Definition somviz_sample_step (learn_rate : option R) (gauss_width : R)
  (x : list R) (loss : R) : ST Train R :=
  '(m, weights) <- read_weights ;;
  let dx := sub_columns x weights in
  let distsq := sum_axis0 m (square2 dx) in
  bmu <- lift (argmin distsq) ;;
  d <- lift (getitem distsq bmu) ;;
  let loss := loss + sqrt d in
  s1 <- ret sep ;;
  dz <- lift (getitem s1 bmu) ;;
  learn_rate <- lift (real_of learn_rate) ;;
  let coef :=
    map (fun z => learn_rate * exp (-0.5 * (z / gauss_width) ^ 2)) dz in
  weights_iadd (scale_rows coef dx) ;;
  log (learn_rate, gauss_width) ;;
  ret loss.

Definition somviz_epoch (eta large_scale : R) (maxiter : Z) (N : nat)
  (batch_size : Z) (i : Z) (rng : rng_state) : ST Train rng_state :=
  let loss := 0 in
  r <- lift (py_truediv i maxiter) ;;
  learn_rate <- lift (py_pow eta r) ;;
  r <- lift (py_truediv i maxiter) ;;
  let gauss_width := 0.5 * np_pow large_scale (1 - r) in
  let '(batch_idx, rng) := rng_choice rng N batch_size in
  batch_idx <- lift batch_idx ;;
  xs <- lift (take_rows X batch_idx) ;;
  loss <- for_fold xs (somviz_sample_step learn_rate gauss_width) loss ;;
  setitem_loss i loss ;;
  ret rng.

(** The training proper: what [fit] does once the prototype matrix is
    initialised. *)
Definition train (maxiter : Z) (eta : R) (somz : bool) (N : nat)
  (batch_size : Z) (rng : rng_state) : ST Train unit :=
  if somz then
    let tt := 0%Z in
    s1 <- ret sep ;;
    sigma0 <- lift (np_max s1) ;;
    s2 <- ret sep ;;
    s3 <- ret sep ;;
    sigma_single <- lift (np_min (where_positive s2 s3)) ;;
    let nt := (maxiter * Z.of_nat N)%Z in
    for_fold (range maxiter)
      (somz_epoch tt nt sigma0 sigma_single N batch_size) rng ;;
    ret Datatypes.tt
  else
    s1 <- ret sep ;;
    let large_scale := np_mean s1 in
    for_fold (range maxiter)
      (somviz_epoch eta large_scale maxiter N batch_size) rng ;;
    ret tt.

(** The initial prototype matrix and the generator after drawing it. *)
Definition initial_weights (somz : bool) (D size : nat) (x00 : R)
  (rng : rng_state) : matrix * rng_state :=
  if somz then
    let '(u, rng) := rng_rand rng D size in
    (map (map (fun v => v + x00)) u, rng)
  else
    let '(g, rng) := rng_normal rng D size in
    (zip_with (fun s row => map (Rmult s) row) (np_std_axis0 D X) g, rng).

(** The first entry of the data matrix, [self.data[0,0]]; it is read in
    SOMz mode only. *)
Definition first_entry : R := nth 0 (nth 0 X []) 0.

(** The state in which training starts and the run from there. *)
Definition initial_state (maxiter : Z) (somz : bool) (D size : nat)
  (seed : Z) : Train :=
  mkTrain size
    (fst (initial_weights somz D size first_entry (RandomState seed)))
    (repeat None (Z.to_nat maxiter)) [].

Definition fit (maxiter : Z) (iterfrac eta : R) (seed : Z) (somz : bool)
  (D size : nat) : Train * result unit :=
  let N := length X in
  let batch_size := py_round (iterfrac * INR N) in
  let rng := snd (initial_weights somz D size first_entry
                    (RandomState seed)) in
  train maxiter eta somz N batch_size rng
    (initial_state maxiter somz D size seed).

End FitSpec.
End FitSpec.

(** ** Following a reference computation

    [sim Rep c p]: from states related by [Rep], the computation [c] and the
    reference [p] return the same value or raise the same exception, and
    leave related states. *)

Definition sim {St1 St2 X : Type} (Rep : St2 -> St1 -> Prop)
  (c : ST St1 X) (p : ST St2 X) : Prop :=
  forall (st : St2) (w : St1),
    Rep st w ->
    snd (c w) = snd (p st) /\ Rep (fst (p st)) (fst (c w)).

(** The value an entry of the loss history holds in the store: an entry
    that was never written holds what [np.empty] left. *)
Definition resolve (junk : R) (o : option R) : R :=
  match o with
  | Some v => v
  | None => junk
  end.

(** Where a run of [fit] keeps its arrays, and the values that do not change
    while it trains. *)
Record Layout : Type := mkLayout {
  l_data : loc;
  l_loss : loc;
  l_weights : loc;
  l_D : nat;
  l_X : matrix;
  l_sep : matrix;
  l_junk : R;
  l_trace : list (R * R)
}.

(** The world [w] holds the training state [st]. *)
Definition holds (lay : Layout) (st : FitSpec.Train) (w : World R) : Prop :=
  _weights (self w) = Some (l_weights lay) /\
  _loss (self w) = Some (l_loss lay) /\
  data (self w) = Some (l_data lay) /\
  l_weights lay <> l_loss lay /\
  l_weights lay <> l_data lay /\
  l_loss lay <> l_data lay /\
  nth_error (heap w) (l_weights lay) =
    Some (Arr2 (FitSpec.t_m st) (FitSpec.t_weights st)) /\
  nth_error (heap w) (l_loss lay) =
    Some (Arr1 (map (resolve (l_junk lay)) (FitSpec.t_loss st))) /\
  nth_error (heap w) (l_data lay) = Some (Arr2 (l_D lay) (l_X lay)) /\
  trace w = l_trace lay ++ FitSpec.t_trace st /\
  exists g : Grid.t,
    Grid.separations (_mapgeom (self w)) = Ok (l_sep lay, g).

(** ** What a run leaves behind *)

(** The prototype matrix of the instance, with its number of columns. *)
Definition weights_of (w : World R) : option (nat * matrix) :=
  match _weights (self w) with
  | Some l =>
      match nth_error (heap w) l with
      | Some (Arr2 m W) => Some (m, W)
      | _ => None
      end
  | None => None
  end.

(** The loss history of the instance. *)
Definition loss_of (w : World R) : option (list R) :=
  match _loss (self w) with
  | Some l =>
      match nth_error (heap w) l with
      | Some (Arr1 v) => Some v
      | _ => None
      end
  | None => None
  end.

(** The data matrix has a first entry, [data[0,0]]. *)
Definition has_first_entry (X : matrix) : Prop :=
  exists (x00 : R) (row0 : list R) (rest : matrix), X = (x00 :: row0) :: rest.

(** The geometry [g] is the grid [g0], as constructed or with its
    separations cached by an earlier access. *)
Definition same_grid (g0 g : Grid.t) : Prop :=
  g = g0 \/ exists S : matrix, Grid.separations g0 = Ok (S, g).

(** A generator for the examples: the state is a counter; [rand] and
    [normal] fill the matrix with the counter, [choice] returns consecutive
    indices modulo [N]. *)
#[global] Instance counter_rng : RandomStateOps := {
  rng_state := Z;
  RandomState := fun seed => seed;
  rng_rand := fun s D size => (repeat (repeat (IZR s) size) D, (s + 1)%Z);
  rng_normal := fun s D size => (repeat (repeat (IZR s) size) D, (s + 1)%Z);
  rng_choice := fun s N k =>
    (if (k <? 0)%Z then Raise ValueError
     else if ((N =? 0)%nat && (0 <? k)%Z)%bool then Raise ValueError
     else Ok (map (fun j => ((Z.to_nat s + j) mod N)%nat)
                (seq 0 (Z.to_nat k))),
     (s + k)%Z)
}.

(** ** The separation matrix, entry by entry *)

Module GridSpec.
Import Grid.

(** Contribution of axis [k] at the flat position [p]. *)
Definition axis_entry (shape : list nat) (k nk : nat) (wrapk : bool)
  (p : nat) : Z :=
  let m := unravel (shape ++ shape) p in
  dxk nk wrapk (nth k m 0%nat) (nth (length shape + k) m 0%nat).

(** The accumulation the metric selects. *)
Definition accumulate (metric : string) (acc d : Z) : Z :=
  if (metric =? "L2")%string then (acc + d ^ 2)%Z
  else if (metric =? "L1")%string then (acc + d)%Z
  else if (metric =? "L0")%string then Z.max acc d
  else acc.

(** Value accumulated at position [p] over the axes [k, k+1, ...]. *)
Fixpoint entry (g : t) (acc : Z) (k : nat) (wraps : list bool) (p : nat)
  : Z :=
  match wraps with
  | [] => acc
  | wrapk :: rest =>
      entry g
        (accumulate (_metric g) acc
           (axis_entry (_shape g) k (nth k (_shape g) 0%nat) wrapk p))
        (S k) rest p
  end.

(** A grid as [Grid] constructs it: the size is the number of nodes of
    the shape, and every axis has its wrap flag. *)
Definition wf (g : t) : Prop :=
  _size g = prod (_shape g) /\ length (_wrap g) = length (_shape g).

(** The cast applied to the accumulator when the loop is over. *)
Definition finish (metric : string) (z : Z) : R :=
  if (metric =? "L2")%string then sqrt (IZR z) else IZR z.

End GridSpec.

(** ** Frames *)

Section Frames.
Context {A : Type}.

(** Computations that leave the first [n] cells and the instance alone.
    [frames n c Q]: started in a store of at least [n] cells, [c] keeps
    these cells, the instance, the trace and the junk as they are, and a
    value it returns satisfies [Q]. *)
Definition frames (n : nat) {X : Type} (c : M A X) (Q : X -> Prop) : Prop :=
  forall w : World A,
    (n <= length (heap w))%nat ->
    (n <= length (heap (fst (c w))))%nat /\
    firstn n (heap (fst (c w))) = firstn n (heap w) /\
    self (fst (c w)) = self w /\
    trace (fst (c w)) = trace w /\
    junk (fst (c w)) = junk w /\
    junk_int (fst (c w)) = junk_int w /\
    forall x : X, snd (c w) = Ok x -> Q x.

End Frames.

(** ** The store while [find_bmu] runs *)

Module FindBmuSpec.
Section FindBmuSpec.
Context {A : Type} `{DType A}.

(** The three arrays of [find_bmu], allocated after the cells [h0]. *)
Definition locals (h0 : list (ndarray A)) (v : list Z) (D W : nat)
  (planes : list (list (list A))) (d : list (list A)) : list (ndarray A) :=
  h0 ++ [Int1 v; Arr3 D W planes; Arr2 W d].

(** The assignment vector when the first [i] samples have been searched:
    their best matching units, then what [np.empty] left. *)
Definition partial_bmu (weights : list (list A)) (W : nat)
  (rows : list (list A)) (j : Z) (i : nat) : list Z :=
  map (fun x => Z.of_nat (nearest weights W x)) (firstn i rows) ++
  repeat j (length rows - i).

End FindBmuSpec.
End FindBmuSpec.

(** The arrays and constants of a run started in the world [w]. *)
Definition layout_of (w : World R) (data : loc) (D : nat) (X sep : matrix)
  : Layout :=
  mkLayout data (length (heap w)) (length (heap w) + 1) D X sep (junk w)
    (trace w).


(** ** Invariants of computations *)

(** [c] takes every state to a state related to it, whether it returns or
    raises. *)
Definition preserves {St : Type} (Rel : St -> St -> Prop) {X : Type}
  (c : ST St X) : Prop :=
  forall s : St, Rel s (fst (c s)).

Module TrainProps.
Section TrainProps.
Context `{RandomStateOps}.
Import FitSpec.

(** The trace grows by entries that satisfy [P]. *)
Definition logs_only (P : R * R -> Prop) (st st' : Train) : Prop :=
  exists l : list (R * R),
    t_trace st' = t_trace st ++ l /\ Forall P l.

(** The loss history is left as it is. *)
Definition same_loss (st st' : Train) : Prop := t_loss st' = t_loss st.

(** Entry [i] of the loss history has been written. *)
Definition filled (l : list (option R)) (i : nat) : Prop :=
  exists v : R, nth_error l i = Some (Some v).

(** An epoch that returns wrote the loss of its index. *)
Definition writes_loss (epoch : Z -> rng_state -> ST Train rng_state)
  : Prop :=
  forall (it : Z) (rng rng' : rng_state) (st st' : Train),
    epoch it rng st = (st', Ok rng') ->
    length (t_loss st') = length (t_loss st) /\
    filled (t_loss st') (Z.to_nat it) /\
    forall i, filled (t_loss st) i -> filled (t_loss st') i.

End TrainProps.
End TrainProps.

(** ** Instances for the examples *)

Module Examples.

(** A small instance for the examples below: five samples with two
    features, three prototypes. *)
Definition bmu_example_world : World Z :=
  mkWorld
    [Arr2 2 [[0; 0]; [5; 5]; [9; 1]; [2; 2]; [5; 4]]%Z;
     Arr2 3 [[0; 5; 9]; [0; 5; 0]]%Z]
    (mkSOM (Grid.mk 3 None [3%nat] [false] "L2") (Some 1%nat) None
       (Some 0%nat))
    77%Z (-1)%Z [].

(** A map of two nodes on a line, its separations cached, and two samples
    with one feature. *)
Definition fit_example_world : World R :=
  mkWorld [Arr2 1 [[0]; [1]]%R]
    (mkSOM (Grid.mk 2 (Some [[0; 1]; [1; 0]]%R) [2%nat] [false] "L2")
       None None None)
    0%R 0%Z [].

(** A second world: another store, other attributes, other junk. *)
Definition fit_example_world2 : World R :=
  mkWorld [Arr1 [7]%R; Int1 [3%Z]; Arr2 1 [[0]; [1]]%R]
    (mkSOM (Grid.mk 2 None [2%nat] [false] "L1") (Some 0%nat) (Some 1%nat)
       None)
    42%R 5%Z [(1, 1)%R].

Definition fit_example_world1 : World R :=
  mkWorld [Arr2 1 [[0]; [1]]%R]
    (mkSOM (Grid.mk 2 None [2%nat] [false] "L1") None None None)
    0%R 0%Z [].

(** A map of two nodes with one prototype feature, both prototypes at 0,
    while it trains on the sample 1. *)
Definition update_example_layout : Layout :=
  mkLayout 0 1 2 1 [[1]]%R [[0; 1]; [1; 0]]%R 0%R [].

Definition update_example_state : FitSpec.Train :=
  FitSpec.mkTrain 2 [[0; 0]]%R [None] [].

Definition update_example_world : World R :=
  mkWorld [Arr2 1 [[1]]%R; Arr1 [0]%R; Arr2 2 [[0; 0]]%R]
    (mkSOM (Grid.mk 2 (Some [[0; 1]; [1; 0]]%R) [2%nat] [false] "L2")
       (Some 2%nat) (Some 1%nat) (Some 0%nat))
    0%R 0%Z [].

End Examples.
(** ** The separations, axis by axis *)

Module GridAxes.
Import Grid GridSpec.

(** The separations of the nodes [i] and [j] along the axes [k], [k+1],
    ..., one for every wrap flag. *)
Fixpoint axis_separations (shape : list nat) (k : nat) (wraps : list bool)
  (i j : nat) : list Z :=
  match wraps with
  | [] => []
  | wrapk :: rest =>
      dxk (nth k shape 0%nat) wrapk (nth k (unravel shape i) 0%nat)
          (nth k (unravel shape j) 0%nat)
      :: axis_separations shape (S k) rest i j
  end.

(** What the loop over axes accumulates from these separations. *)
Definition combine_axes (metric : string) (ds : list Z) (acc : Z) : Z :=
  fold_left (accumulate metric) ds acc.
End GridAxes.

(** ** Cache signatures *)

Section ArgMax.
Context {A : Type} `{DType A}.

(** [np.argmax] of a one-dimensional array: the first index that holds
    the maximum; raises ValueError on an empty array. *)
Fixpoint argmax_from (best : nat) (mp : A) (i : nat) (l : list A) : nat :=
  match l with
  | [] => best
  | x :: l' =>
      if dltb mp x then argmax_from i x (S i) l'
      else argmax_from best mp (S i) l'
  end.

Definition argmax (l : list A) : result nat :=
  match l with
  | [] => Raise ValueError
  | x :: l' => Ok (argmax_from 0 x 1 l')
  end.
End ArgMax.

Module Signature.
Section Signature.
(** [hashlib.sha256(a).hexdigest()] for an array [a] of 64-bit integers:
    the digest belongs to hashlib, and is a function of the entries. *)
Variable sha256_hexdigest : list Z -> string.

(** Column [k] of a two-dimensional array. *)
Definition column (k : nat) (a : matrix) : list R :=
  map (fun row => nth k row 0%R) a.

(** [np.argmin(a, axis=0)] and [np.argmax(a, axis=0)] of an array with
    [D] columns: ValueError when the array has no rows. *)
Definition arg_axis0 (arg : list R -> result nat) (D : nat) (a : matrix)
  : result (list Z) :=
  match a with
  | [] => Raise ValueError
  | _ =>
      fold_right
        (fun k acc =>
           rbind (arg (column k a)) (fun j =>
           rbind acc (fun js => Ok (Z.of_nat j :: js))))
        (Ok []) (seq 0 D)
  end.

(** [get_signature(data, mapsize, maxiter)] for a two-dimensional float
    array with [D] columns and integers [mapsize] and [maxiter] of 64
    bits. *)
Definition get_signature (D : nat) (data : matrix) (mapsize maxiter : Z)
  : result string :=
  rbind (arg_axis0 argmin D data) (fun lo =>
  rbind (arg_axis0 argmax D data) (fun hi =>
  let signature :=
    [Z.of_nat (length data); Z.of_nat D] ++ lo ++ hi
    ++ [mapsize; maxiter] in
  Ok (sha256_hexdigest signature))).
End Signature.
End Signature.

(** ** Tables

    An astropy [Table] of float columns, as [table_to_array] uses it: the
    names of its columns in order ([data.colnames]), the column of a name
    ([data[name]]) and the number of rows ([len(data)]).  Every column of
    a table has as many entries as the table has rows. *)

Record Table : Type := mkTable {
  colnames : list string;
  getcol : string -> list R;
  nrows : nat
}.

Definition table_ok (t : Table) : Prop :=
  forall name : string,
    In name (colnames t) -> length (getcol t name) = nrows t.

(** [a[:, k] = col] for an array with [m] columns: the column is broadcast
    when it has one entry; ValueError when its length does not fit. *)
Definition set_column (m k : nat) (col : list R) (a : matrix)
  : result matrix :=
  if negb (k <? m)%nat then Raise IndexError
  else if (length col =? length a)%nat then
    Ok (zip_with (fun v row => list_set k v row) col a)
  else if (length col =? 1)%nat then
    Ok (map (list_set k (nth 0 col 0%R)) a)
  else Raise ValueError.

Section TableToArray.
Local Open Scope py_scope.

(** [table_to_array(data)]: returns the location of the new array. *)
Definition table_to_array (t : Table) : M R loc :=
  let K := length (colnames t) in
  (* data_arr = np.zeros((len(data), len(colnames))) *)
  data_arr <- alloc (Arr2 K (repeat (repeat 0%R K) (nrows t))) ;;
  (* for k, name in enumerate(colnames): data_arr[:,k] = data[name] *)
  for_each (combine (seq 0 K) (colnames t))
    (fun kn =>
       '(m, a) <- load2 data_arr ;;
       a <- lift (set_column m (fst kn) (getcol t (snd kn)) a) ;;
       store data_arr (Arr2 m a)) ;;
  ret data_arr.
End TableToArray.

(** ** Mapping samples to cells *)

(** [v == i] for an integer array [v]. *)
Definition eq_mask (v : list Z) (i : Z) : list bool :=
  map (fun x => (x =? i)%Z) v.

(** [a[mask]] for a boolean array [mask]: the entries (rows) of [a] at
    which the mask holds; IndexError unless the mask is as long as [a]. *)
Definition boolean_index {X : Type} (a : list X) (mask : list bool)
  : result (list X) :=
  if (length mask =? length a)%nat
  then Ok (map fst (filter snd (combine a mask)))
  else Raise IndexError.

(** [np.mean(v)] of a one-dimensional array. *)
Definition np_mean1 (v : list R) : R :=
  (fold_left Rplus v 0 / INR (length v))%R.

(** [a[i]] for an integer [i]: a negative index counts from the end. *)
Definition getitem_int {X : Type} (a : list X) (i : Z) : result X :=
  let n := Z.of_nat (length a) in
  if (0 <=? i)%Z then getitem a (Z.to_nat i)
  else if (- n <=? i)%Z then getitem a (Z.to_nat (i + n))
  else Raise IndexError.

(** [a[idx]] for an integer array [idx]. *)
Fixpoint take {X : Type} (a : list X) (idx : list Z) : result (list X) :=
  match idx with
  | [] => Ok []
  | i :: rest =>
      rbind (getitem_int a i) (fun x =>
      rbind (take a rest) (fun xs => Ok (x :: xs)))
  end.

(** [np.bincount(x, minlength=n)]: how often every value occurs in [x];
    ValueError on a negative entry. *)
Definition bincount (x : list Z) (minlength : nat) : result (list Z) :=
  if existsb (fun i => (i <? 0)%Z) x then Raise ValueError
  else
    let n :=
      fold_right (fun i m => Nat.max (S (Z.to_nat i)) m) minlength x in
    Ok (map (fun c => Z.of_nat (count_occ Z.eq_dec x (Z.of_nat c)))
          (seq 0 n)).

(** The attributes [SelfOrganizingMap.map] assigns; an attribute that has
    not been assigned yet is [None].  [_indices] is the array [find_bmu]
    returned, in the store; the other arrays are created by [map] and
    never written afterwards, and are held as values. *)
Record Mapped : Type := mkMapped {
  _indices : option loc;
  _feature_dist : option (list matrix);
  _target_dist : option (list (list R));
  _target_vals : option (list R);
  _target_pred : option (list R);
  _counts : option (list Z)
}.

(** The state of a map that is used after training: the world of the
    search and of the training, and the attributes of [map]. *)
Record MapWorld : Type := mkMapWorld {
  world : World R;
  mapped : Mapped
}.

(** What [map_to_som] accepts: a numpy array or a table. *)
Inductive som_data : Type :=
| Array (l : loc)
| TableData (t : Table).

Module Mapping.
Section Mapping.
Local Open Scope py_scope.
Import SelfOrganizingMap Fit.

Definition MM (X : Type) : Type := ST MapWorld X.

(** A computation of the search or of the training, run on the world of
    the map. *)
Definition in_world {X : Type} (c : M R X) : MM X :=
  fun mw =>
    (mkMapWorld (fst (c (world mw))) (mapped mw), snd (c (world mw))).

Definition get_mapped : MM Mapped := fun mw => (mw, Ok (mapped mw)).

Definition set_mapped (a : Mapped) : MM unit :=
  fun mw => (mkMapWorld (world mw) a, Ok tt).

(** Reading an attribute: AttributeError before [map] has assigned it. *)
Definition attr {X : Type} (proj : Mapped -> option X) : MM X :=
  a <- get_mapped ;;
  match proj a with
  | Some x => ret x
  | None => raise AttributeError
  end.

Definition set_indices (l : loc) : MM unit :=
  a <- get_mapped ;;
  set_mapped (mkMapped (Some l) (_feature_dist a) (_target_dist a)
                (_target_vals a) (_target_pred a) (_counts a)).

Definition set_feature_dist (v : list matrix) : MM unit :=
  a <- get_mapped ;;
  set_mapped (mkMapped (_indices a) (Some v) (_target_dist a)
                (_target_vals a) (_target_pred a) (_counts a)).

Definition set_target_dist (v : list (list R)) : MM unit :=
  a <- get_mapped ;;
  set_mapped (mkMapped (_indices a) (_feature_dist a) (Some v)
                (_target_vals a) (_target_pred a) (_counts a)).

Definition set_target_vals (v : list R) : MM unit :=
  a <- get_mapped ;;
  set_mapped (mkMapped (_indices a) (_feature_dist a) (_target_dist a)
                (Some v) (_target_pred a) (_counts a)).

Definition set_target_pred (v : list R) : MM unit :=
  a <- get_mapped ;;
  set_mapped (mkMapped (_indices a) (_feature_dist a) (_target_dist a)
                (_target_vals a) (Some v) (_counts a)).

Definition set_counts (v : list Z) : MM unit :=
  a <- get_mapped ;;
  set_mapped (mkMapped (_indices a) (_feature_dist a) (_target_dist a)
                (_target_vals a) (_target_pred a) (Some v)).

(** A list comprehension [[body(i) for i in items]]. *)
Fixpoint comprehension {St I X : Type} (items : list I)
  (body : I -> ST St X) : ST St (list X) :=
  match items with
  | [] => ret []
  | i :: rest =>
      x <- body i ;; xs <- comprehension rest body ;; ret (x :: xs)
  end.

(** [self._indices], as its entries. *)
Definition read_indices : MM (list Z) :=
  il <- attr _indices ;; in_world (load_int1 il).

(** [SelfOrganizingMap.map(data, target)] for a two-dimensional array
    [data] and a one-dimensional array [target]. *)
Definition map (data target : loc) : MM unit :=
  (* self._indices = self.find_bmu(data) *)
  il <- in_world (find_bmu data 1024) ;;
  set_indices il ;;
  (* self._feature_dist =
       [data[self._indices == i] for i in range(self._mapgeom.size)] *)
  size <- in_world mapgeom_size ;;
  fd <- comprehension (range (Z.of_nat size))
          (fun i =>
             '(_, rows) <- in_world (load2 data) ;;
             v <- read_indices ;;
             lift (boolean_index rows (eq_mask v i))) ;;
  set_feature_dist fd ;;
  (* self._target_dist =
       [target[self._indices == i] for i in range(self._mapgeom.size)] *)
  size <- in_world mapgeom_size ;;
  td <- comprehension (range (Z.of_nat size))
          (fun i =>
             t <- in_world (load1 target) ;;
             v <- read_indices ;;
             lift (boolean_index t (eq_mask v i))) ;;
  set_target_dist td ;;
  (* self._target_vals =
       [np.mean(self._target_dist[i])
        for i in range(self._mapgeom.size)] *)
  size <- in_world mapgeom_size ;;
  tv <- comprehension (range (Z.of_nat size))
          (fun i =>
             td <- attr _target_dist ;;
             d <- lift (getitem_int td i) ;;
             ret (np_mean1 d)) ;;
  set_target_vals tv ;;
  (* self._target_pred = np.array(self._target_vals)[self._indices] *)
  tv <- attr _target_vals ;;
  v <- read_indices ;;
  tp <- lift (take tv v) ;;
  set_target_pred tp ;;
  (* self._counts =
       np.bincount(self._indices, minlength=(self._mapgeom.size)) *)
  v <- read_indices ;;
  size <- in_world mapgeom_size ;;
  c <- lift (bincount v size) ;;
  set_counts c.

(** [SelfOrganizingMap.map_to_som(data)]: returns the predicted target
    of every sample. *)
Definition map_to_som (data : som_data) : MM (list R) :=
  (* Reformat data if not a numpy array. *)
  data <- match data with
          | Array l => ret l
          | TableData t => in_world (table_to_array t)
          end ;;
  best <- in_world (find_bmu data 1024) ;;
  (* vals = np.array(self._target_vals) *)
  vals <- attr _target_vals ;;
  best <- in_world (load_int1 best) ;;
  lift (take vals best).

End Mapping.
End Mapping.

(** ** What [map] computes *)

Module MappingSpec.
Section MappingSpec.
Variables (weights : matrix) (W : nat).

(** The cell of a sample: its best matching unit. *)
Definition cell (x : list R) : nat := nearest weights W x.

(** The samples of the cell [i], and their targets. *)
Definition cell_rows (rows : matrix) (i : nat) : matrix :=
  filter (fun x => (cell x =? i)%nat) rows.

Definition cell_targets (rows : matrix) (target : list R) (i : nat)
  : list R :=
  List.map snd
    (filter (fun p => (cell (fst p) =? i)%nat) (combine rows target)).

(** The attributes [map] leaves, for the data [rows], the targets
    [target] and a map of [size] cells; [il] is the location of the
    assignment vector. *)
Definition mapped_by (il : loc) (rows : matrix) (target : list R)
  (size : nat) : Mapped :=
  let td := List.map (cell_targets rows target) (seq 0 size) in
  let tv := List.map np_mean1 td in
  mkMapped (Some il)
    (Some (List.map (cell_rows rows) (seq 0 size)))
    (Some td) (Some tv)
    (Some (List.map (fun x => nth (cell x) tv 0%R) rows))
    (Some (List.map (fun i => Z.of_nat (length (cell_rows rows i)))
             (seq 0 size))).
End MappingSpec.
End MappingSpec.

(** The array [table_to_array] builds: row [i] holds entry [i] of every
    column, in the order of the column names. *)
Definition table_rows (t : Table) : matrix :=
  List.map (fun i => List.map (fun name => nth i (getcol t name) 0%R)
                       (colnames t))
    (seq 0 (nrows t)).

(** The array while the columns [done] have been copied and [todo] more
    are to come. *)
Definition partial_rows (t : Table) (done : list string) (todo : nat)
  : matrix :=
  List.map (fun i => List.map (fun name => nth i (getcol t name) 0%R) done
                     ++ repeat 0%R todo)
    (seq 0 (nrows t)).


(** ** The schedule of the default mode *)

Module ScheduleSpec.


End ScheduleSpec.
(** ** More instances for the examples *)

Module ExtraExamples.
(** The map of two nodes on a line as [Grid(2, metric='L1')] constructs
    it, both prototypes at 0, while it trains on the sample 1. *)
Definition step_example_world : World R :=
  mkWorld [Arr2 1 [[1]]%R; Arr1 [0]%R; Arr2 2 [[0; 0]]%R]
    (mkSOM (Grid.mk 2 None [2%nat] [false] "L1")
       (Some 2%nat) (Some 1%nat) (Some 0%nat))
    0%R 0%Z [].

(** A map of one node and two samples with one feature. *)
Definition one_node_world : World R :=
  mkWorld [Arr2 1 [[0]; [1]]%R]
    (mkSOM (Grid.mk 1 None [1%nat] [false] "L2") None None None)
    0%R 0%Z [].
End ExtraExamples.

Module MapExamples.
(** A fitted map of two cells with one feature, three samples and their
    targets. *)
Definition map_example_world : World R :=
  mkWorld
    [Arr2 1 [[0]; [1]; [1]]%R; Arr2 2 [[0; 1]]%R; Arr1 [10; 20; 40]%R]
    (mkSOM (Grid.mk 2 None [2%nat] [false] "L2") (Some 1%nat) None
       (Some 0%nat))
    0%R 0%Z [].

Definition unmapped : Mapped := mkMapped None None None None None None.

(** A table of two columns and three rows. *)
Definition example_table : Table :=
  mkTable ["u"; "g"]%string
    (fun name => if (name =? "u")%string then [1; 2; 3]%R
                 else [4; 5; 6]%R)
    3.

(** A fitted map of two cells with two features, and the array of
    [example_table]. *)
Definition table_example_world : World R :=
  mkWorld
    [Arr2 2 [[1; 4]; [2; 5]; [3; 6]]%R; Arr2 2 [[0; 3]; [0; 6]]%R]
    (mkSOM (Grid.mk 2 None [2%nat] [false] "L2") (Some 1%nat) None None)
    0%R 0%Z [].
End MapExamples.


(** * Properties of the map geometry *)

(** ** Facts about the list helpers *)

Lemma zip_with_map (X Y V I : Type) (f : X -> Y -> V) (a : I -> X)
  (b : I -> Y) (l : list I) :
  zip_with f (map a l) (map b l) = map (fun p => f (a p) (b p)) l.
Proof.
  induction l as [|p l IH]; simpl; [reflexivity | now rewrite IH].
Qed.

Lemma repeat_as_map (X : Type) (x : X) (n s : nat) :
  repeat x n = map (fun _ => x) (seq s n).
Proof.
  revert s; induction n as [|n IH]; intros s; simpl;
    [reflexivity | now rewrite <- IH].
Qed.

Lemma firstn_seq_min (k s n : nat) : firstn k (seq s n) = seq s (Nat.min k n).
Proof.
  revert s n; induction k as [|k IH]; intros s [|n]; simpl; try reflexivity.
  now rewrite IH.
Qed.

Lemma mat_get_reshape2 (X : Type) (f : nat -> X) (n i j : nat) :
  mat_get (reshape2 n n (map f (seq 0 (n * n)))) i j =
  if (i <? n) && (j <? n) then Some (f (i * n + j)%nat) else None.
Proof.
  unfold mat_get, reshape2.
  rewrite nth_error_map, nth_error_seq.
  destruct (i <? n) eqn:Hi; simpl; [|reflexivity].
  apply Nat.ltb_lt in Hi.
  rewrite skipn_map, firstn_map, skipn_seq, firstn_seq_min; simpl.
  assert (Hmin : Nat.min n (n * n - i * n) = n) by nia.
  rewrite Hmin, nth_error_map, nth_error_seq.
  now destruct (j <? n).
Qed.

(** ** Index arithmetic of [unravel] *)

Lemma prod_app (s1 s2 : list nat) : prod (s1 ++ s2) = (prod s1 * prod s2)%nat.
Proof.
  induction s1 as [|n s1 IH]; simpl; [lia | rewrite IH; lia].
Qed.

Lemma length_unravel (shape : list nat) (p : nat) :
  length (unravel shape p) = length shape.
Proof.
  revert p; induction shape as [|n rest IH]; intros p; simpl;
    [reflexivity | now rewrite IH].
Qed.

(** The multi-index of a position of the [shape + shape] array is the pair of
    the multi-indices of its row and of its column in the flattened matrix. *)
Lemma unravel_app (s1 s2 : list nat) (i j : nat) :
  (i < prod s1)%nat -> (j < prod s2)%nat ->
  unravel (s1 ++ s2) (i * prod s2 + j) = unravel s1 i ++ unravel s2 j.
Proof.
  revert i; induction s1 as [|n s1 IH]; intros i Hi Hj; simpl in *.
  - assert (i = 0%nat) by lia; subst i; reflexivity.
  - rewrite prod_app.
    assert (Hpos : (0 < prod s1)%nat) by nia.
    pose proof (Nat.div_mod_eq i (prod s1)) as Hdm.
    pose proof (Nat.mod_upper_bound i (prod s1) ltac:(lia)) as Hr.
    set (q := (i / prod s1)%nat) in *.
    set (r := (i mod prod s1)%nat) in *.
    assert (Hlt : (r * prod s2 + j < prod s1 * prod s2)%nat) by nia.
    assert (Heq : (i * prod s2 + j =
                   prod s1 * prod s2 * q + (r * prod s2 + j))%nat) by nia.
    rewrite <- (Nat.div_unique _ _ _ _ Hlt Heq).
    rewrite <- (Nat.mod_unique _ _ _ _ Hlt Heq).
    rewrite IH by assumption.
    reflexivity.
Qed.

(** Every coordinate of a multi-index lies within its axis. *)
Lemma unravel_bound (shape : list nat) (p k nk : nat) :
  (p < prod shape)%nat -> nth_error shape k = Some nk ->
  (nth k (unravel shape p) 0 < nk)%nat.
Proof.
  revert p k; induction shape as [|n rest IH]; intros p k Hp Hk.
  - destruct k; discriminate.
  - simpl in Hp. assert (Hpos : (0 < prod rest)%nat) by nia.
    destruct k as [|k]; simpl in *.
    + injection Hk as <-.
      apply Nat.Div0.div_lt_upper_bound; lia.
    + apply IH; [apply Nat.mod_upper_bound; lia | assumption].
Qed.

Module GridFacts.
Import Grid GridSpec.

(** ** Separations along one axis *)

Lemma dxk_sym (nk : nat) (wrapk : bool) (a b : nat) :
  dxk nk wrapk a b = dxk nk wrapk b a.
Proof.
  unfold dxk. replace (Z.abs (Z.of_nat b - Z.of_nat a))
    with (Z.abs (Z.of_nat a - Z.of_nat b)) by lia.
  reflexivity.
Qed.

Lemma dxk_diag (nk : nat) (wrapk : bool) (a : nat) : dxk nk wrapk a a = 0%Z.
Proof.
  unfold dxk. rewrite Z.sub_diag; simpl.
  destruct wrapk; simpl; [|reflexivity].
  destruct (0 >? Z.of_nat nk / 2)%Z eqn:E; [|reflexivity].
  apply Z.gtb_lt in E.
  pose proof (Z.div_pos (Z.of_nat nk) 2 ltac:(lia) ltac:(lia)); lia.
Qed.

Lemma dxk_nonneg (nk : nat) (wrapk : bool) (a b : nat) :
  (a < nk)%nat -> (b < nk)%nat -> (0 <= dxk nk wrapk a b)%Z.
Proof.
  intros Ha Hb. unfold dxk.
  destruct (wrapk && _); lia.
Qed.

(** On a ring of [nk] nodes the separation is the shorter way round. *)
Lemma dxk_wrap_min (nk a b : nat) :
  (a < nk)%nat -> (b < nk)%nat ->
  dxk nk true a b =
  Z.min (Z.abs (Z.of_nat a - Z.of_nat b))
        (Z.of_nat nk - Z.abs (Z.of_nat a - Z.of_nat b)).
Proof.
  intros Ha Hb. unfold dxk; simpl.
  set (d := Z.abs (Z.of_nat a - Z.of_nat b)).
  pose proof (Z.div_mod (Z.of_nat nk) 2 ltac:(lia)) as Hdm.
  pose proof (Z.mod_pos_bound (Z.of_nat nk) 2 ltac:(lia)) as Hm.
  destruct (d >? Z.of_nat nk / 2)%Z eqn:E.
  - apply Z.gtb_lt in E. lia.
  - assert (d <= Z.of_nat nk / 2)%Z
      by (destruct (Z.gtb_spec d (Z.of_nat nk / 2)); [discriminate | lia]).
    lia.
Qed.

(** ** The loop over axes, entry by entry *)

Lemma add_axis_entry (g : t) (acc : nat -> Z) (k nk : nat) (wrapk : bool) :
  nth_error (_shape g) k = Some nk ->
  add_axis g (map acc (seq 0 (prod (_shape g ++ _shape g)))) k wrapk =
  Ok (map (fun p => accumulate (_metric g) (acc p)
                      (axis_entry (_shape g) k nk wrapk p))
          (seq 0 (prod (_shape g ++ _shape g)))).
Proof.
  intros Hk. unfold add_axis, accumulate, broadcast_dxk. rewrite Hk.
  destruct (_metric g =? "L2")%string.
  { rewrite map_map, zip_with_map. reflexivity. }
  destruct (_metric g =? "L1")%string.
  { rewrite zip_with_map. reflexivity. }
  destruct (_metric g =? "L0")%string.
  { rewrite zip_with_map. reflexivity. }
  reflexivity.
Qed.

Lemma loop_axes_entry (g : t) (wraps : list bool) :
  forall (acc : nat -> Z) (k : nat),
    (k + length wraps <= length (_shape g))%nat ->
    loop_axes g (map acc (seq 0 (prod (_shape g ++ _shape g)))) k wraps =
    Ok (map (fun p => entry g (acc p) k wraps p)
            (seq 0 (prod (_shape g ++ _shape g)))).
Proof.
  induction wraps as [|wrapk rest IH]; intros acc k Hlen; simpl in *.
  - reflexivity.
  - assert (Hk : (k < length (_shape g))%nat) by lia.
    rewrite (@add_axis_entry g acc k _ wrapk
               (nth_error_nth' (_shape g) 0%nat Hk)); simpl.
    rewrite IH by lia. reflexivity.
Qed.

(** ** Well-formed grids *)

Lemma init_wf (signature : list Z) (metric : string) (g : t) :
  init signature metric = Ok g -> wf g /\ _separations g = None.
Proof.
  unfold init, wf. destruct (negb (valid_metric metric)); [discriminate|].
  intros [= <-]; simpl. now rewrite !length_map.
Qed.

(** Closed form of the matrix of a well-formed grid. *)
Lemma calculate_separations_entry (g : t) :
  wf g ->
  exists S : list (list R),
    _calculate_separations g = Ok S /\
    forall i j : nat,
      mat_get S i j =
      if (i <? _size g) && (j <? _size g)
      then Some (finish (_metric g)
                   (entry g 0%Z 0 (_wrap g) (i * _size g + j)))
      else None.
Proof.
  intros [Hsize Hlen]. unfold _calculate_separations.
  rewrite (repeat_as_map 0%Z _ 0).
  rewrite loop_axes_entry by (simpl; lia). simpl.
  eexists; split; [reflexivity|]. intros i j.
  rewrite prod_app, <- Hsize.
  rewrite <- (mat_get_reshape2
                (fun p => finish (_metric g) (entry g 0%Z 0 (_wrap g) p))).
  unfold finish. destruct (_metric g =? "L2")%string;
    now rewrite map_map.
Qed.

(** ** Invariants of the accumulated entries *)

Lemma entry_sym (g : t) (wraps : list bool) (p q : nat) :
  (forall k nk wrapk, (k < length (_shape g))%nat ->
      axis_entry (_shape g) k nk wrapk p =
      axis_entry (_shape g) k nk wrapk q) ->
  forall (acc : Z) (k : nat),
    (k + length wraps <= length (_shape g))%nat ->
    entry g acc k wraps p = entry g acc k wraps q.
Proof.
  intros Hax. induction wraps as [|w rest IH]; intros acc k Hk; simpl in *.
  - reflexivity.
  - rewrite Hax by lia. apply IH; lia.
Qed.

Lemma entry_zero (g : t) (wraps : list bool) (p : nat) :
  (forall k nk wrapk, (k < length (_shape g))%nat ->
      axis_entry (_shape g) k nk wrapk p = 0%Z) ->
  forall k : nat,
    (k + length wraps <= length (_shape g))%nat ->
    entry g 0%Z k wraps p = 0%Z.
Proof.
  intros Hax. induction wraps as [|w rest IH]; intros k Hk; simpl in *.
  - reflexivity.
  - rewrite Hax by lia.
    replace (accumulate (_metric g) 0 0) with 0%Z; [apply IH; lia|].
    unfold accumulate.
    now destruct (_metric g =? "L2")%string, (_metric g =? "L1")%string,
      (_metric g =? "L0")%string.
Qed.

Lemma accumulate_nonneg (metric : string) (acc d : Z) :
  (0 <= acc)%Z -> (0 <= d)%Z -> (0 <= accumulate metric acc d)%Z.
Proof.
  intros Ha Hd. unfold accumulate.
  destruct (metric =? "L2")%string; [nia|].
  destruct (metric =? "L1")%string; [lia|].
  destruct (metric =? "L0")%string; lia.
Qed.

Lemma entry_nonneg (g : t) (wraps : list bool) (p : nat) :
  (forall k wrapk, (k < length (_shape g))%nat ->
      (0 <= axis_entry (_shape g) k (nth k (_shape g) 0%nat) wrapk p)%Z) ->
  forall (acc : Z) (k : nat),
    (0 <= acc)%Z -> (k + length wraps <= length (_shape g))%nat ->
    (0 <= entry g acc k wraps p)%Z.
Proof.
  intros Hax. induction wraps as [|w rest IH]; intros acc k Hacc Hk;
    simpl in *.
  - assumption.
  - apply IH; [|lia]. apply accumulate_nonneg; [assumption|].
    apply Hax; lia.
Qed.

(** Coordinates read by [axis_entry] at row [i], column [j]. *)
Lemma axis_entry_at (shape : list nat) (k nk : nat) (wrapk : bool)
  (i j : nat) :
  (i < prod shape)%nat -> (j < prod shape)%nat -> (k < length shape)%nat ->
  axis_entry shape k nk wrapk (i * prod shape + j) =
  dxk nk wrapk (nth k (unravel shape i) 0%nat)
               (nth k (unravel shape j) 0%nat).
Proof.
  intros Hi Hj Hk. unfold axis_entry.
  rewrite unravel_app by assumption.
  rewrite app_nth1 by (now rewrite length_unravel).
  rewrite <- (length_unravel shape i) at 1.
  now rewrite app_nth2_plus.
Qed.

End GridFacts.

Module GridClaims.
Import Grid GridSpec GridFacts.

Lemma separations_fresh (g : t) (S : list (list R)) :
  _separations g = None -> _calculate_separations g = Ok S ->
  separations g =
  Ok (S, mk (_size g) (Some S) (_shape g) (_wrap g) (_metric g)).
Proof.
  intros Hnone Hcalc. unfold separations. now rewrite Hnone, Hcalc.
Qed.

Lemma finish_nonneg (metric : string) (z : Z) :
  (0 <= z)%Z -> (0 <= finish metric z)%R.
Proof.
  intros Hz. unfold finish. destruct (metric =? "L2")%string.
  - apply sqrt_pos.
  - now apply IZR_le.
Qed.

Lemma finish_zero (metric : string) : finish metric 0 = 0%R.
Proof.
  unfold finish. destruct (metric =? "L2")%string;
    [apply sqrt_0 | reflexivity].
Qed.

(** C5.  For every grid that [Grid] constructs (any shape, any wrap flags,
    any accepted metric), the separations matrix has an entry for every
    pair of nodes, is symmetric, is non-negative, and is zero on the
    diagonal. *)
Theorem separations_symmetric_nonneg_zero_diagonal
  (signature : list Z) (metric : string) (g : t) :
  init signature metric = Ok g ->
  exists (S : list (list R)) (g' : t),
    separations g = Ok (S, g') /\
    (forall i j : nat, (i < _size g)%nat -> (j < _size g)%nat ->
       exists x : R,
         mat_get S i j = Some x /\ mat_get S j i = Some x /\ (0 <= x)%R) /\
    (forall i : nat, (i < _size g)%nat -> mat_get S i i = Some 0%R).
Proof.
  intros Hinit. destruct (init_wf _ _ Hinit) as [Hwf Hnone].
  destruct (calculate_separations_entry Hwf) as [S [Hcalc Hget]].
  exists S; eexists; split; [now apply separations_fresh|].
  destruct Hwf as [Hsize Hlen].
  split.
  - intros i j Hi Hj. eexists.
    rewrite !Hget.
    apply Nat.ltb_lt in Hi as Hi', Hj as Hj'. rewrite Hi', Hj'; simpl.
    rewrite Hsize in Hi, Hj |- *.
    split; [reflexivity|]. split.
    + f_equal. f_equal. apply entry_sym; [|simpl; lia].
      intros k nk wrapk Hk.
      rewrite !axis_entry_at by assumption. apply dxk_sym.
    + apply finish_nonneg. apply entry_nonneg; [|lia|simpl; lia].
      intros k wrapk Hk.
      rewrite axis_entry_at by assumption.
      pose proof (nth_error_nth' (_shape g) 0%nat Hk) as Hnk.
      apply dxk_nonneg; now apply unravel_bound.
  - intros i Hi. rewrite Hget.
    apply Nat.ltb_lt in Hi as Hi'. rewrite Hi'; simpl.
    rewrite Hsize in Hi |- *.
    rewrite entry_zero; [now rewrite finish_zero| |simpl; lia].
    intros k nk wrapk Hk.
    rewrite axis_entry_at by assumption. apply dxk_diag.
Qed.

Lemma separations_symmetric_nonneg_zero_diagonal_witness :
  exists (S : list (list R)) (g' : t),
    separations (mk 6 None [2; 3]%nat [false; true] "L2") = Ok (S, g') /\
    (forall i j : nat, (i < 6)%nat -> (j < 6)%nat ->
       exists x : R,
         mat_get S i j = Some x /\ mat_get S j i = Some x /\ (0 <= x)%R) /\
    (forall i : nat, (i < 6)%nat -> mat_get S i i = Some 0%R).
Proof.
  apply (@separations_symmetric_nonneg_zero_diagonal [2; -3]%Z "L2").
  reflexivity.
Defined.

(** C6.  On a wrapping one-dimensional grid of [n] nodes, with any accepted
    metric, the separation of the nodes [i] and [j] is
    [min(|i-j|, n-|i-j|)], the shortest way round the ring. *)
Theorem separations_ring (n : Z) (metric : string) (g : t) :
  (0 < n)%Z ->
  init [(- n)%Z] metric = Ok g ->
  exists (S : list (list R)) (g' : t),
    separations g = Ok (S, g') /\
    forall i j : nat, (Z.of_nat i < n)%Z -> (Z.of_nat j < n)%Z ->
      mat_get S i j =
      Some (IZR (Z.min (Z.abs (Z.of_nat i - Z.of_nat j))
                       (n - Z.abs (Z.of_nat i - Z.of_nat j)))).
Proof.
  intros Hn Hinit. destruct (init_wf _ _ Hinit) as [Hwf Hnone].
  destruct (calculate_separations_entry Hwf) as [S [Hcalc Hget]].
  exists S; eexists; split; [now apply separations_fresh|].
  unfold init in Hinit.
  destruct (valid_metric metric) eqn:Hvalid; [|discriminate].
  simpl in Hinit. injection Hinit as <-. simpl in *.
  assert (Hneg : (- n <? 0)%Z = true) by (apply Z.ltb_lt; lia).
  assert (Habs : Z.abs_nat (- n) = Z.to_nat n) by lia.
  rewrite Hneg, Habs in *. clear Hneg Habs.
  intros i j Hi Hj. rewrite Hget.
  assert (Hi' : (i < Z.to_nat n * 1)%nat) by lia.
  assert (Hj' : (j < Z.to_nat n * 1)%nat) by lia.
  apply Nat.ltb_lt in Hi' as Hib, Hj' as Hjb. rewrite Hib, Hjb; simpl.
  f_equal.
  change (Z.to_nat n * 1)%nat with (prod [Z.to_nat n]).
  rewrite axis_entry_at by (simpl; lia).
  cbn [unravel prod fold_right nth]. rewrite !Nat.div_1_r.
  rewrite dxk_wrap_min by lia.
  rewrite Z2Nat.id by lia.
  set (d := Z.min _ _).
  assert (Hd : (0 <= d)%Z) by (subst d; lia).
  unfold finish, accumulate, valid_metric in *.
  destruct (metric =? "L2")%string eqn:E2.
  { replace (0 + d ^ 2)%Z with (d * d)%Z by lia.
    rewrite mult_IZR. apply sqrt_square. now apply IZR_le. }
  destruct (metric =? "L1")%string eqn:E1; [reflexivity|].
  destruct (metric =? "L0")%string eqn:E0; [|discriminate].
  now rewrite Z.max_r.
Qed.

Lemma separations_ring_witness :
  exists (S : list (list R)) (g' : t),
    separations (mk 6 None [6%nat] [true] "L0") = Ok (S, g') /\
    forall i j : nat, (Z.of_nat i < 6)%Z -> (Z.of_nat j < 6)%Z ->
      mat_get S i j =
      Some (IZR (Z.min (Z.abs (Z.of_nat i - Z.of_nat j))
                       (6 - Z.abs (Z.of_nat i - Z.of_nat j)))).
Proof.
  apply (@separations_ring 6 "L0"); [lia | reflexivity].
Defined.

(** C9.  [Grid] accepts exactly the metrics L0, L1 and L2: with one of
    them construction succeeds and keeps the metric; with any other it
    raises ValueError, whatever the signature. *)
Theorem init_metric_validation (signature : list Z) (metric : string) :
  (In metric ["L0"; "L1"; "L2"]%string ->
     exists g : t, init signature metric = Ok g /\ _metric g = metric) /\
  (~ In metric ["L0"; "L1"; "L2"]%string ->
     init signature metric = Raise ValueError).
Proof.
  unfold init, valid_metric. split.
  - intros [<-|[<-|[<-|[]]]]; simpl; eexists; split; reflexivity.
  - intros Hnot.
    destruct (metric =? "L0")%string eqn:E0;
      [apply String.eqb_eq in E0; subst; simpl in Hnot; tauto|].
    destruct (metric =? "L1")%string eqn:E1;
      [apply String.eqb_eq in E1; subst; simpl in Hnot; tauto|].
    destruct (metric =? "L2")%string eqn:E2;
      [apply String.eqb_eq in E2; subst; simpl in Hnot; tauto|].
    reflexivity.
Qed.

Lemma init_metric_validation_witness :
  (exists g : t, init [3; -4]%Z "L1" = Ok g /\ _metric g = "L1"%string) /\
  init [3; -4]%Z "euclidean" = Raise ValueError.
Proof.
  destruct (init_metric_validation [3; -4]%Z "L1") as [Hok _].
  destruct (init_metric_validation [3; -4]%Z "euclidean") as [_ Hbad].
  split.
  - apply Hok. simpl; auto.
  - apply Hbad. simpl. intros [H|[H|[H|[]]]]; discriminate.
Defined.

End GridClaims.

(** * Properties of the BMU search *)

Unset Implicit Arguments.

(** ** Arrays *)

Section ArrayFacts.
Context {A : Type} `{DType A}.

Lemma firstn_add (X : Type) (a b : nat) (l : list X) :
  firstn (a + b) l = firstn a l ++ firstn b (skipn a l).
Proof.
  revert l; induction a as [|a IH]; intros [|x l]; simpl;
    try reflexivity.
  - now rewrite firstn_nil.
  - now rewrite IH.
Qed.

Lemma zip_with_repeat_row (f : A -> A -> A) (v : A) (row : list A) :
  zip_with f (repeat v (length row)) row =
  map (fun w => f v (nth w row dzero)) (seq 0 (length row)).
Proof.
  induction row as [|y row IH]; simpl; [reflexivity|].
  rewrite IH, <- seq_shift, map_map. reflexivity.
Qed.

(** ** argmin *)

Lemma argmin_from_spec (d0 : A) (l : list A) :
  forall (pre : list A) (best : nat) (mp : A),
    (best < length pre)%nat ->
    mp = nth best pre d0 ->
    (forall k, (k < length pre)%nat -> dltb (nth k pre d0) mp = false) ->
    (forall k, (k < best)%nat -> dltb mp (nth k pre d0) = true) ->
    is_first_min (fun k => nth k (pre ++ l) d0) (length (pre ++ l))
      (argmin_from best mp (length pre) l).
Proof.
  induction l as [|x l IH]; intros pre best mp Hb Hmp Hmin Hfirst; simpl.
  - rewrite app_nil_r. subst mp. repeat split; assumption.
  - assert (Hlen : length (pre ++ [x]) = S (length pre))
      by (rewrite length_app; simpl; lia).
    assert (Hx : nth (length pre) (pre ++ [x]) d0 = x)
      by (rewrite app_nth2, Nat.sub_diag by lia; reflexivity).
    assert (Hold : forall k, (k < length pre)%nat ->
                     nth k (pre ++ [x]) d0 = nth k pre d0)
      by (intros k Hk; now apply app_nth1).
    assert (Hsplit : pre ++ x :: l = (pre ++ [x]) ++ l)
      by (now rewrite <- app_assoc).
    rewrite Hsplit, <- Hlen.
    destruct (dltb x mp) eqn:Hlt.
    + apply IH.
      * lia.
      * now rewrite Hx.
      * intros k Hk.
        destruct (Nat.eq_dec k (length pre)) as [->|Hne].
        { rewrite Hx. apply dltb_irrefl. }
        rewrite Hold by lia.
        destruct (dltb (nth k pre d0) x) eqn:Hkx; [|reflexivity].
        pose proof (dltb_trans _ _ _ Hkx Hlt) as H2.
        rewrite Hmin in H2 by lia. discriminate.
      * intros k Hk. rewrite Hold by lia.
        destruct (dltb_cotrans x (nth k pre d0) _ Hlt) as [H1|H1];
          [assumption|].
        rewrite Hmin in H1 by lia. discriminate.
    + apply IH.
      * lia.
      * now rewrite Hold.
      * intros k Hk.
        destruct (Nat.eq_dec k (length pre)) as [->|Hne].
        { now rewrite Hx. }
        rewrite Hold by lia. apply Hmin. lia.
      * intros k Hk. rewrite Hold by lia. now apply Hfirst.
Qed.

(** [np.argmin] of a non-empty array returns the first index of its
    minimum. *)
Lemma argmin_spec (d0 x : A) (l : list A) :
  exists j : nat,
    argmin (x :: l) = Ok j /\
    j = argmin_from 0 x 1 l /\
    is_first_min (fun k => nth k (x :: l) d0) (length (x :: l)) j.
Proof.
  eexists; split; [reflexivity|]. split; [reflexivity|].
  apply (argmin_from_spec d0 l [x] 0%nat x); simpl.
  - lia.
  - reflexivity.
  - intros k Hk. assert (k = 0%nat) by lia; subst k. apply dltb_irrefl.
  - intros k Hk. lia.
Qed.

(** ** Distances *)

Lemma fold_columns (W : nat) (x : list A) :
  forall (weights : list (list A)) (acc : nat -> A),
    Forall (fun row => length row = W) weights ->
    fold_left (zip_with dadd)
      (map (map (fun v => dmul v v))
         (zip_with (zip_with dsub) (map (fun v => repeat v W) x) weights))
      (map acc (seq 0 W)) =
    map (fun w =>
           fold_left dadd
             (zip_with
                (fun xd row =>
                   let v := dsub xd (nth w row dzero) in dmul v v)
                x weights)
             (acc w))
        (seq 0 W).
Proof.
  induction x as [|v x IH]; intros [|row weights] acc Hrows; simpl;
    try reflexivity.
  inversion Hrows as [|? ? Hrow Hrest]; subst.
  rewrite zip_with_repeat_row, map_map, zip_with_map.
  now rewrite IH.
Qed.

(** One plane of the buffer, after the subtraction, the squaring and the
    sum over the feature axis, holds the squared distances of its sample
    to every prototype. *)
Lemma sum_axis1_sample (W : nat) (x : list A) (weights : list (list A)) :
  Forall (fun row => length row = W) weights ->
  sum_axis1 W (power2 (sub_broadcast (newaxis_broadcast W [x]) weights)) =
  [map (sqdist x weights) (seq 0 W)].
Proof.
  intros Hrows.
  unfold sum_axis1, sum_axis0, power2, sub_broadcast, newaxis_broadcast.
  simpl. rewrite (repeat_as_map dzero W 0), fold_columns by assumption.
  reflexivity.
Qed.

Lemma sum_axis1_app (W : nat) (b1 b2 : list (list (list A)))
  (weights : list (list A)) :
  sum_axis1 W (power2 (sub_broadcast (b1 ++ b2) weights)) =
  sum_axis1 W (power2 (sub_broadcast b1 weights)) ++
  sum_axis1 W (power2 (sub_broadcast b2 weights)).
Proof.
  unfold sum_axis1, power2, sub_broadcast. now rewrite !map_app.
Qed.

Lemma sum_axis1_samples (W : nat) (xs : list (list A))
  (weights : list (list A)) :
  Forall (fun row => length row = W) weights ->
  sum_axis1 W (power2 (sub_broadcast (newaxis_broadcast W xs) weights)) =
  map (fun x => map (sqdist x weights) (seq 0 W)) xs.
Proof.
  intros Hrows. induction xs as [|x xs IH]; [reflexivity|].
  change (newaxis_broadcast W (x :: xs))
    with (newaxis_broadcast W [x] ++ newaxis_broadcast W xs).
  rewrite sum_axis1_app, sum_axis1_sample, IH by assumption.
  reflexivity.
Qed.

Lemma length_sum_axis1 (W : nat) (buf : list (list (list A)))
  (weights : list (list A)) :
  length (sum_axis1 W (power2 (sub_broadcast buf weights))) = length buf.
Proof.
  unfold sum_axis1, power2, sub_broadcast. now rewrite !length_map.
Qed.

(** The row-wise argmin of the distances is the best matching unit of
    every sample. *)
Lemma argmin_axis1_nearest (W : nat) (xs : list (list A))
  (weights : list (list A)) :
  (0 < W)%nat ->
  argmin_axis1 (map (fun x => map (sqdist x weights) (seq 0 W)) xs) =
  Ok (map (fun x => Z.of_nat (nearest weights W x)) xs).
Proof.
  intros HW. induction xs as [|x xs IH]; simpl; [reflexivity|].
  rewrite IH. unfold nearest.
  destruct W as [|W]; [lia|]. reflexivity.
Qed.

(** [nearest] is the first minimum of the squared distances. *)
Lemma nearest_first_min (W : nat) (x : list A) (weights : list (list A)) :
  (0 < W)%nat ->
  is_first_min (sqdist x weights) W (nearest weights W x).
Proof.
  intros HW. unfold nearest.
  destruct (map (sqdist x weights) (seq 0 W)) as [|d ds] eqn:E.
  { destruct W; [lia | discriminate]. }
  destruct (argmin_spec dzero d ds) as [j [_ [-> [Hj [Hmin Hfirst]]]]].
  assert (Hlen : length (d :: ds) = W)
    by (now rewrite <- E, length_map, length_seq).
  assert (Hnth : forall k, (k < W)%nat ->
                   nth k (d :: ds) dzero = sqdist x weights k).
  { intros k Hk. rewrite <- E.
    rewrite (nth_indep _ dzero (sqdist x weights 0%nat))
      by (now rewrite length_map, length_seq).
    now rewrite map_nth, seq_nth. }
  rewrite Hlen in *.
  repeat split.
  - assumption.
  - intros k Hk. rewrite <- !Hnth by assumption. now apply Hmin.
  - intros k Hk. rewrite <- !Hnth by lia. now apply Hfirst.
Qed.

End ArrayFacts.

(** ** The store *)

Section StoreFacts.
Context {A : Type}.

Lemma nth_error_fresh (h ext : list (ndarray A)) (i : nat) :
  nth_error (h ++ ext) (length h + i) = nth_error ext i.
Proof.
  rewrite nth_error_app2 by lia. f_equal. lia.
Qed.

Lemma list_set_fresh (h ext : list (ndarray A)) (i : nat) (a : ndarray A) :
  list_set (length h + i) a (h ++ ext) = h ++ list_set i a ext.
Proof.
  induction h as [|c h IH]; simpl; [reflexivity | now rewrite IH].
Qed.

Lemma nth_error_old (h ext : list (ndarray A)) (l : loc) (a : ndarray A) :
  nth_error h l = Some a -> nth_error (h ++ ext) l = Some a.
Proof.
  intros Hl. rewrite nth_error_app1; [assumption|].
  apply nth_error_Some. congruence.
Qed.

Lemma nth_error_fresh0 (h ext : list (ndarray A)) :
  nth_error (h ++ ext) (length h) = nth_error ext 0.
Proof.
  rewrite nth_error_app2 by lia. now rewrite Nat.sub_diag.
Qed.

Lemma list_set_fresh0 (h ext : list (ndarray A)) (a : ndarray A) :
  list_set (length h) a (h ++ ext) = h ++ list_set 0 a ext.
Proof.
  induction h as [|c h IH]; simpl; [reflexivity | now rewrite IH].
Qed.

Lemma length_list_set (X : Type) (l : nat) (x : X) (h : list X) :
  length (list_set l x h) = length h.
Proof.
  revert l; induction h as [|y h IH]; intros [|l]; simpl;
    try reflexivity.
  now rewrite IH.
Qed.

Lemma firstn_list_set (X : Type) (n l : nat) (x : X) (h : list X) :
  (n <= l)%nat -> firstn n (list_set l x h) = firstn n h.
Proof.
  revert n l; induction h as [|y h IH]; intros [|n] [|l] Hle; simpl;
    try reflexivity; try lia.
  rewrite IH by lia. reflexivity.
Qed.

(** ** Running a computation whose first step is known *)
Lemma bind_run (X Y : Type) (c : M A X) (k : X -> M A Y) (w w' : World A)
  (x : X) :
  c w = (w', Ok x) -> bind c k w = k x w'.
Proof.
  intros Hc. unfold bind. now rewrite Hc.
Qed.

Lemma load_run (w : World A) (l : loc) (a : ndarray A) :
  nth_error (heap w) l = Some a -> load l w = (w, Ok a).
Proof.
  intros Hl. unfold load. now rewrite Hl.
Qed.

Lemma store_run (w : World A) (l : loc) (a0 a : ndarray A) :
  nth_error (heap w) l = Some a0 ->
  store l a w = (set_heap (list_set l a (heap w)) w, Ok tt).
Proof.
  intros Hl. unfold store. now rewrite Hl.
Qed.

(** ** Rules for [frames] *)

Lemma frames_weaken (n : nat) (X : Type) (c : M A X) (Q Q' : X -> Prop) :
  frames (A := A) n c Q -> (forall x, Q x -> Q' x) -> frames (A := A) n c Q'.
Proof.
  intros Hc HQ w Hw. destruct (Hc w Hw) as (?&?&?&?&?&?&Hx).
  repeat split; auto.
Qed.

Lemma frames_ret (n : nat) (X : Type) (x : X) (Q : X -> Prop) :
  Q x -> frames (A := A) n (ret x) Q.
Proof.
  intros HQ w Hw; simpl. repeat split; auto. now intros x' [= <-].
Qed.

Lemma frames_raise (n : nat) (X : Type) (e : exn) (Q : X -> Prop) :
  frames (A := A) n (raise e) Q.
Proof.
  intros w Hw; simpl. repeat split; auto. discriminate.
Qed.

Lemma frames_lift (n : nat) (X : Type) (r : result X) :
  frames (A := A) n (lift r) (fun x => r = Ok x).
Proof.
  intros w Hw; simpl. repeat split; auto.
Qed.

Lemma frames_bind (n : nat) (X Y : Type) (c : M A X) (k : X -> M A Y)
  (Q : X -> Prop) (Q' : Y -> Prop) :
  frames (A := A) n c Q -> (forall x, Q x -> frames (A := A) n (k x) Q') ->
  frames (A := A) n (bind c k) Q'.
Proof.
  intros Hc Hk w Hw. destruct (Hc w Hw) as (Hl&Hf&Hs&Ht&Hj&Hi&Hx).
  unfold bind. destruct (c w) as [w' [x|e]]; simpl in *.
  - destruct (Hk x (Hx x eq_refl) w' Hl) as (?&?&?&?&?&?&?).
    repeat split; try congruence; auto.
  - repeat split; auto. discriminate.
Qed.

Lemma frames_get_self (n : nat) : frames (A := A) n get_self (fun _ => True).
Proof. intros w Hw; simpl. repeat split; auto. Qed.

Lemma frames_get_junk (n : nat) : frames (A := A) n get_junk (fun _ => True).
Proof. intros w Hw; simpl. repeat split; auto. Qed.

Lemma frames_get_junk_int (n : nat) :
  frames (A := A) n get_junk_int (fun _ => True).
Proof. intros w Hw; simpl. repeat split; auto. Qed.

Lemma frames_load (n : nat) (l : loc) :
  frames (A := A) n (load l) (fun _ => True).
Proof.
  intros w Hw. unfold load.
  destruct (nth_error (heap w) l); simpl; repeat split; auto.
Qed.

(** A new array lies above the framed cells. *)
Lemma frames_alloc (n : nat) (a : ndarray A) :
  frames (A := A) n (alloc a) (fun l => (n <= l)%nat).
Proof.
  intros w Hw; simpl. rewrite length_app.
  repeat split; auto; try lia.
  - rewrite firstn_app.
    replace (n - length (heap w))%nat with 0%nat by lia; simpl.
    now rewrite app_nil_r.
  - now intros x [= <-].
Qed.

(** Writing above the framed cells keeps them. *)
Lemma frames_store (n : nat) (l : loc) (a : ndarray A) :
  (n <= l)%nat -> frames (A := A) n (store l a) (fun _ => True).
Proof.
  intros Hl w Hw. unfold store.
  destruct (nth_error (heap w) l); simpl; repeat split; auto.
  - now rewrite length_list_set.
  - now apply firstn_list_set.
Qed.

Lemma frames_for_each (n : nat) (I : Type) (items : list I)
  (body : I -> M A unit) :
  (forall i, frames (A := A) n (body i) (fun _ => True)) ->
  frames (A := A) n (for_each items body) (fun _ => True).
Proof.
  intros Hbody. induction items as [|i items IH]; simpl.
  - now apply frames_ret.
  - eapply frames_bind; [apply Hbody | intros; apply IH].
Qed.

Lemma frames_assert (n : nat) (b : bool) :
  frames (A := A) n (assert b) (fun _ => True).
Proof.
  unfold assert. destruct b; [now apply frames_ret | apply frames_raise].
Qed.

Lemma frames_floordiv (n : nat) (a b : Z) :
  frames (A := A) n (floordiv a b) (fun _ => True).
Proof.
  unfold floordiv.
  destruct (b =? 0)%Z; [apply frames_raise | now apply frames_ret].
Qed.

Lemma frames_load2 (n : nat) (l : loc) :
  frames (A := A) n (load2 l) (fun _ => True).
Proof.
  unfold load2. eapply frames_bind; [apply frames_load|].
  intros [] _; try apply frames_raise. now apply frames_ret.
Qed.

Lemma frames_shape2 (n : nat) (l : loc) :
  frames (A := A) n (shape2 l) (fun _ => True).
Proof.
  unfold shape2. eapply frames_bind; [apply frames_load2|].
  intros [m rows] _. now apply frames_ret.
Qed.

End StoreFacts.

(** ** [find_bmu] writes only to the arrays it allocates *)

Module FindBmuFacts.
Section Frame.
Context {A : Type} `{DType A}.
Import SelfOrganizingMap.

Ltac frames_step :=
  first
    [ apply frames_raise
    | apply frames_ret; exact I
    | apply frames_store; assumption
    | eapply frames_bind;
      [ first [ apply frames_load2 | apply frames_shape2 | apply frames_load
              | apply frames_get_self | apply frames_get_junk
              | apply frames_get_junk_int | apply frames_lift
              | apply frames_assert | apply frames_floordiv
              | apply frames_store; assumption ]
      | intros ? ? ] ].

Lemma frames_self_weights (n : nat) :
  frames (A := A) n (self_weights (A := A)) (fun _ => True).
Proof.
  unfold self_weights. frames_step.
  destruct (_weights _); frames_step.
Qed.

Lemma frames_load3 (n : nat) (l : loc) :
  frames (A := A) n (load3 (A := A) l) (fun _ => True).
Proof.
  unfold load3. frames_step. destruct x; frames_step.
Qed.

Lemma frames_load_int1 (n : nat) (l : loc) :
  frames (A := A) n (load_int1 (A := A) l) (fun _ => True).
Proof.
  unfold load_int1. frames_step. destruct x; frames_step.
Qed.

Lemma frames_np_empty_int (n N : nat) :
  frames (A := A) n (np_empty_int (A := A) N) (fun l => (n <= l)%nat).
Proof.
  unfold np_empty_int. frames_step. apply frames_alloc.
Qed.

Lemma frames_np_empty2 (n : nat) (S : Z) (W : nat) :
  frames (A := A) n (np_empty2 (A := A) S W) (fun l => (n <= l)%nat).
Proof.
  unfold np_empty2. destruct (S <? 0)%Z; [apply frames_raise|].
  frames_step. apply frames_alloc.
Qed.

Lemma frames_np_empty3 (n : nat) (S : Z) (D W : nat) :
  frames (A := A) n (np_empty3 (A := A) S D W) (fun l => (n <= l)%nat).
Proof.
  unfold np_empty3. destruct (S <? 0)%Z; [apply frames_raise|].
  frames_step. apply frames_alloc.
Qed.

Lemma frames_find_bmu_batch (n : nat) (data : loc) (batchsize : Z)
  (N : nat) (bmu buf distsq : loc) (ibatch : Z) :
  (n <= bmu)%nat -> (n <= buf)%nat -> (n <= distsq)%nat ->
  frames (A := A) n (find_bmu_batch data batchsize N bmu buf distsq ibatch)
    (fun _ => True).
Proof.
  intros Hbmu Hbuf Hdistsq. unfold find_bmu_batch.
  eapply frames_bind; [apply frames_load2 | intros [? ?] _].
  eapply frames_bind; [apply frames_load3 | intros [[? ?] ?] _].
  do 2 frames_step.
  eapply frames_bind; [apply frames_self_weights | intros ? _].
  eapply frames_bind; [apply frames_load2 | intros [? ?] _].
  eapply frames_bind; [apply frames_load3 | intros [[? ?] ?] _].
  frames_step.
  eapply frames_bind; [apply frames_load3 | intros [[? ?] ?] _].
  frames_step.
  eapply frames_bind; [apply frames_load3 | intros [[? ?] ?] _].
  eapply frames_bind; [apply frames_load2 | intros [? ?] _].
  frames_step.
  eapply frames_bind; [apply frames_load2 | intros [? ?] _].
  frames_step.
  eapply frames_bind; [apply frames_load_int1 | intros ? _].
  frames_step.
Qed.

(** Whatever its arguments and whatever it returns or raises, [find_bmu]
    keeps every array that existed before the call, and the instance. *)
Lemma frames_find_bmu (n : nat) (data : loc) (batchsize : Z) :
  frames (A := A) n (find_bmu (A := A) data batchsize) (fun _ => True).
Proof.
  unfold find_bmu.
  eapply frames_bind; [apply frames_shape2 | intros [N D] _].
  eapply frames_bind; [apply frames_self_weights | intros wl _].
  eapply frames_bind; [apply frames_shape2 | intros [D2 W] _].
  frames_step.
  eapply frames_bind; [apply frames_np_empty_int | intros bmu Hbmu].
  frames_step.
  eapply frames_bind; [apply frames_np_empty3 | intros buf Hbuf].
  eapply frames_bind; [apply frames_np_empty2 | intros distsq Hdistsq].
  eapply frames_bind.
  - apply frames_for_each. intros ibatch.
    now apply frames_find_bmu_batch.
  - intros _ _. now apply frames_ret.
Qed.

End Frame.
End FindBmuFacts.

(** ** One batch *)

Module FindBmuRun.
Section Run.
Context {A : Type} `{DType A}.
Import SelfOrganizingMap FindBmuSpec.

Section Locals.
Variables (w : World A) (h0 : list (ndarray A)) (v : list Z)
  (D W : nat) (planes : list (list (list A))) (d : list (list A)).

Local Abbreviation wcur := (set_heap (locals h0 v D W planes d) w).

Lemma load2_old (l : loc) (m : nat) (rows : list (list A)) :
  nth_error h0 l = Some (Arr2 m rows) ->
  load2 l wcur = (wcur, Ok (m, rows)).
Proof.
  intros Hl. unfold load2.
  erewrite bind_run
    by (apply load_run; simpl; apply nth_error_old, Hl).
  reflexivity.
Qed.

Lemma self_weights_locals (wl : loc) :
  _weights (self w) = Some wl -> self_weights wcur = (wcur, Ok wl).
Proof.
  intros Hwl. unfold self_weights, bind, get_self; simpl.
  now rewrite Hwl.
Qed.

Lemma load_int1_bmu :
  load_int1 (length h0) wcur = (wcur, Ok v).
Proof.
  unfold load_int1.
  erewrite bind_run
    by (apply load_run; simpl; unfold locals; rewrite nth_error_fresh0;
        reflexivity).
  reflexivity.
Qed.

Lemma load3_buf :
  load3 (length h0 + 1) wcur = (wcur, Ok (D, W, planes)).
Proof.
  unfold load3.
  erewrite bind_run
    by (apply load_run; simpl; unfold locals; rewrite nth_error_fresh;
        reflexivity).
  reflexivity.
Qed.

Lemma load2_distsq :
  load2 (length h0 + 2) wcur = (wcur, Ok (W, d)).
Proof.
  unfold load2.
  erewrite bind_run
    by (apply load_run; simpl; unfold locals; rewrite nth_error_fresh;
        reflexivity).
  reflexivity.
Qed.

Lemma store_bmu (v' : list Z) :
  store (length h0) (Int1 v') wcur =
  (set_heap (locals h0 v' D W planes d) w, Ok tt).
Proof.
  rewrite (store_run _ _ (Int1 v))
    by (unfold locals; simpl; rewrite nth_error_fresh0; reflexivity).
  unfold locals; simpl. now rewrite list_set_fresh0.
Qed.

Lemma store_buf (planes' : list (list (list A))) :
  store (length h0 + 1) (Arr3 D W planes') wcur =
  (set_heap (locals h0 v D W planes' d) w, Ok tt).
Proof.
  rewrite (store_run _ _ (Arr3 D W planes))
    by (unfold locals; simpl; rewrite nth_error_fresh; reflexivity).
  unfold locals; simpl. now rewrite list_set_fresh.
Qed.

Lemma store_distsq (d' : list (list A)) :
  store (length h0 + 2) (Arr2 W d') wcur =
  (set_heap (locals h0 v D W planes d') w, Ok tt).
Proof.
  rewrite (store_run _ _ (Arr2 W d))
    by (unfold locals; simpl; rewrite nth_error_fresh; reflexivity).
  unfold locals; simpl. now rewrite list_set_fresh.
Qed.

End Locals.

Lemma find_bmu_batch_run (w : World A) (h0 : list (ndarray A))
  (data wl : loc) (batchsize : Z) (N D W : nat)
  (rows weights : list (list A)) (v : list Z)
  (planes : list (list (list A))) (d : list (list A)) (k : nat) :
  nth_error h0 data = Some (Arr2 D rows) ->
  length rows = N ->
  _weights (self w) = Some wl ->
  nth_error h0 wl = Some (Arr2 W weights) ->
  Forall (fun row => length row = W) weights ->
  (0 < batchsize)%Z -> (0 < W)%nat ->
  length planes = Z.to_nat (Z.min (Z.of_nat N) batchsize) ->
  let ilo := Z.to_nat (Z.of_nat k * batchsize) in
  let ihi := Z.to_nat (Z.min (Z.of_nat k * batchsize + batchsize)
                             (Z.of_nat N)) in
  exists (planes' : list (list (list A))) (d' : list (list A)),
    find_bmu_batch data batchsize N (length h0) (length h0 + 1)
      (length h0 + 2) (Z.of_nat k)
      (set_heap (locals h0 v D W planes d) w) =
    (set_heap
       (locals h0
          (assign_slice ilo ihi
             (map (fun x => Z.of_nat (nearest weights W x))
                (firstn (ihi - ilo) (skipn ilo rows)))
             v)
          D W planes' d') w,
     Ok tt) /\
    length planes' = length planes.
Proof.
  intros Hdata Hrows Hself Hwl Hweights Hb HW Hplanes ilo ihi.
  unfold find_bmu_batch.
  set (n := Z.to_nat (Z.min (Z.of_nat k * batchsize + batchsize)
                            (Z.of_nat N) - Z.of_nat k * batchsize)).
  assert (Hn : n = (ihi - ilo)%nat) by (subst n ihi ilo; nia).
  fold ilo.
  assert (Hnlen : length (firstn n (skipn ilo rows)) = n).
  { rewrite length_firstn, length_skipn. subst n ihi ilo. nia. }
  assert (Hnle : (n <= length planes)%nat) by (subst n; nia).
  erewrite bind_run by (apply load2_old, Hdata). cbv beta iota.
  erewrite bind_run by apply load3_buf. cbv beta iota.
  unfold assign_first. apply Nat.leb_le in Hnle as Hnleb. rewrite Hnleb.
  erewrite bind_run by reflexivity.
  erewrite bind_run by apply store_buf.
  erewrite bind_run by (apply self_weights_locals, Hself).
  erewrite bind_run by (apply load2_old, Hwl). cbv beta iota.
  erewrite bind_run by apply load3_buf. cbv beta iota.
  erewrite bind_run by apply store_buf.
  erewrite bind_run by apply load3_buf. cbv beta iota.
  erewrite bind_run by apply store_buf.
  erewrite bind_run by apply load3_buf. cbv beta iota.
  erewrite bind_run by apply load2_distsq. cbv beta iota.
  erewrite bind_run by apply store_distsq.
  erewrite bind_run by apply load2_distsq. cbv beta iota.
  set (planes' := power2 (sub_broadcast _ weights)).
  assert (Hsum :
    firstn n (sum_axis1 W planes') =
    map (fun x => map (sqdist x weights) (seq 0 W))
        (firstn n (skipn ilo rows))).
  { subst planes'. rewrite sum_axis1_app, sum_axis1_samples by assumption.
    rewrite firstn_app, length_map, Hnlen, Nat.sub_diag; simpl.
    rewrite app_nil_r. apply firstn_all2. now rewrite length_map, Hnlen. }
  rewrite Hsum, argmin_axis1_nearest by assumption.
  erewrite bind_run by reflexivity.
  erewrite bind_run by apply load_int1_bmu.
  rewrite store_bmu.
  exists planes', (sum_axis1 W planes'). fold ihi. rewrite <- Hn.
  split; [reflexivity|].
  subst planes'. unfold power2, sub_broadcast, newaxis_broadcast.
  rewrite !length_map, length_app, length_map, Hnlen, length_skipn. lia.
Qed.

(** ** The loop over batches *)

Lemma skipn_repeat (X : Type) (x : X) (a n : nat) :
  skipn a (repeat x n) = repeat x (n - a).
Proof.
  revert n; induction a as [|a IH]; intros [|n]; simpl;
    try reflexivity.
  apply IH.
Qed.

Lemma assign_slice_step (weights : list (list A)) (W : nat)
  (rows : list (list A)) (j : Z) (ilo i' : nat) :
  (ilo <= i')%nat ->
  let ihi := Nat.min i' (length rows) in
  assign_slice ilo ihi
    (map (fun x => Z.of_nat (nearest weights W x))
       (firstn (ihi - ilo) (skipn ilo rows)))
    (partial_bmu weights W rows j ilo) =
  partial_bmu weights W rows j i'.
Proof.
  intros Hle ihi. unfold assign_slice, partial_bmu.
  set (f := fun x => Z.of_nat (nearest weights W x)).
  destruct (Nat.le_gt_cases ilo (length rows)) as [Hin|Hout].
  - assert (Hlen : length (map f (firstn ilo rows)) = ilo)
      by (rewrite length_map, length_firstn; lia).
    rewrite firstn_app, Hlen, Nat.sub_diag; simpl.
    rewrite app_nil_r, firstn_all2 by lia.
    rewrite skipn_app, Hlen, (skipn_all2 (n := ihi)) by lia; simpl.
    rewrite skipn_repeat, app_assoc, <- map_app, <- firstn_add.
    replace (ilo + (ihi - ilo))%nat with ihi by lia.
    replace (length rows - ilo - (ihi - ilo))%nat
      with (length rows - i')%nat by lia.
    f_equal. f_equal. subst ihi.
    destruct (Nat.le_gt_cases i' (length rows)).
    + now rewrite Nat.min_l.
    + rewrite Nat.min_r, !firstn_all2 by lia. reflexivity.
  - assert (Hihi : ihi = length rows) by lia.
    rewrite Hihi.
    replace (length rows - ilo)%nat with 0%nat by lia.
    replace (length rows - i')%nat with 0%nat by lia.
    simpl.
    rewrite (firstn_all2 (n := ilo) rows), (firstn_all2 (n := i') rows)
      by lia.
    rewrite !app_nil_r.
    rewrite firstn_all2, skipn_all2 by (rewrite length_map; lia).
    now rewrite app_nil_r.
Qed.

Lemma find_bmu_loop_run (w : World A) (h0 : list (ndarray A))
  (data wl : loc) (batchsize : Z) (N D W : nat)
  (rows weights : list (list A)) (j : Z) :
  nth_error h0 data = Some (Arr2 D rows) ->
  length rows = N ->
  _weights (self w) = Some wl ->
  nth_error h0 wl = Some (Arr2 W weights) ->
  Forall (fun row => length row = W) weights ->
  (0 < batchsize)%Z -> (0 < W)%nat ->
  forall (cnt k0 : nat) (planes : list (list (list A)))
         (d : list (list A)),
    length planes = Z.to_nat (Z.min (Z.of_nat N) batchsize) ->
    exists (planes' : list (list (list A))) (d' : list (list A)),
      for_each (map Z.of_nat (seq k0 cnt))
        (find_bmu_batch data batchsize N (length h0) (length h0 + 1)
           (length h0 + 2))
        (set_heap
           (locals h0
              (partial_bmu weights W rows j (k0 * Z.to_nat batchsize))
              D W planes d) w) =
      (set_heap
         (locals h0
            (partial_bmu weights W rows j
               ((k0 + cnt) * Z.to_nat batchsize))
            D W planes' d') w,
       Ok tt) /\
      length planes' = length planes.
Proof.
  intros Hdata Hrows Hself Hwl Hweights Hb HW.
  induction cnt as [|cnt IH]; intros k0 planes d Hplanes; simpl.
  - exists planes, d. rewrite Nat.add_0_r. split; reflexivity.
  - destruct (find_bmu_batch_run w h0 data wl batchsize N D W rows weights
                (partial_bmu weights W rows j (k0 * Z.to_nat batchsize))
                planes d k0 Hdata Hrows Hself Hwl Hweights Hb HW Hplanes)
      as [planes1 [d1 [Hrun Hlen1]]].
    erewrite bind_run by exact Hrun.
    replace (Z.to_nat (Z.of_nat k0 * batchsize))
      with (k0 * Z.to_nat batchsize)%nat by nia.
    replace (Z.to_nat (Z.min (Z.of_nat k0 * batchsize + batchsize)
                             (Z.of_nat N)))
      with (Nat.min (S k0 * Z.to_nat batchsize) (length rows)) by nia.
    rewrite assign_slice_step by nia.
    destruct (IH (S k0) planes1 d1 ltac:(congruence))
      as [planes2 [d2 [Hrest Hlen2]]].
    exists planes2, d2. rewrite Hrest.
    replace (S k0 + cnt)%nat with (k0 + S cnt)%nat by lia.
    split; [reflexivity | congruence].
Qed.

(** ** The whole search *)

(** Called with a positive batch size on an [(N, D)] data matrix, with a
    [(D, W)] prototype matrix of at least one prototype, [find_bmu]
    returns a new array that holds the best matching unit of every sample;
    it adds three arrays to the store and changes nothing else. *)
Lemma find_bmu_run (w : World A) (data : loc) (batchsize : Z)
  (N D W : nat) (rows weights : list (list A)) :
  bmu_inputs w data N D W rows weights ->
  (0 < batchsize)%Z -> (0 < W)%nat ->
  exists (planes : list (list (list A))) (d : list (list A)),
    find_bmu data batchsize w =
    (set_heap
       (locals (heap w)
          (map (fun x => Z.of_nat (nearest weights W x)) rows)
          D W planes d) w,
     Ok (length (heap w))).
Proof.
  intros (Hdata & [Hrows Hcols] & wl & Hself & Hwl & [HD Hweights]) Hb HW.
  unfold find_bmu, shape2.
  assert (Hload2 : forall l m r, nth_error (heap w) l = Some (Arr2 m r) ->
                     load2 l w = (w, Ok (m, r))).
  { intros l m r Hl. unfold load2.
    erewrite bind_run by (apply load_run, Hl). reflexivity. }
  erewrite bind_run
    by (erewrite bind_run by (apply Hload2, Hdata); reflexivity).
  cbv beta iota.
  erewrite bind_run
    by (unfold self_weights, bind, get_self; rewrite Hself; reflexivity).
  erewrite bind_run
    by (erewrite bind_run by (apply Hload2, Hwl); reflexivity).
  cbv beta iota. rewrite Hrows, HD, Nat.eqb_refl.
  erewrite bind_run by reflexivity.
  erewrite bind_run by reflexivity.
  unfold floordiv. destruct (Z.eqb_spec batchsize 0) as [|_]; [lia|].
  erewrite bind_run by reflexivity.
  unfold np_empty3, np_empty2.
  destruct (Z.ltb_spec (Z.min (Z.of_nat N) batchsize) 0) as [|_]; [lia|].
  erewrite bind_run by reflexivity.
  erewrite bind_run by reflexivity.
  cbn [heap set_heap self junk junk_int trace].
  rewrite !length_app, <- !app_assoc. cbn [length app].
  rewrite <- (Nat.add_assoc (length (heap w)) 1 1). cbn [Nat.add].
  set (planes0 := repeat _ (Z.to_nat (Z.min (Z.of_nat N) batchsize))).
  set (d0 := repeat _ (Z.to_nat (Z.min (Z.of_nat N) batchsize))).
  assert (Hv0 : repeat (junk_int w) N =
                partial_bmu weights W rows (junk_int w)
                  (0 * Z.to_nat batchsize))
    by (unfold partial_bmu; simpl; now rewrite Hrows, Nat.sub_0_r).
  destruct (find_bmu_loop_run w (heap w) data wl batchsize N D W rows
              weights (junk_int w) Hdata Hrows Hself Hwl Hweights Hb HW
              (Z.to_nat ((Z.of_nat N + batchsize - 1) / batchsize)) 0%nat
              planes0 d0)
    as [planes [d [Hloop _]]].
  { subst planes0. now rewrite repeat_length. }
  exists planes, d.
  match goal with
  | |- bind _ _ ?w' = _ =>
      change w' with
        (set_heap
           (locals (heap w) (repeat (junk_int w) N) D W planes0 d0) w)
  end.
  rewrite Hv0.
  unfold range. erewrite bind_run by exact Hloop.
  unfold ret. f_equal. f_equal. f_equal.
  unfold partial_bmu.
  set (q := ((Z.of_nat N + batchsize - 1) / batchsize)%Z).
  assert (Hq : (length rows <= (0 + Z.to_nat q) * Z.to_nat batchsize)%nat).
  { pose proof (Z.div_mod (Z.of_nat N + batchsize - 1) batchsize
                  ltac:(lia)) as Hdm.
    pose proof (Z.mod_pos_bound (Z.of_nat N + batchsize - 1) batchsize Hb).
    fold q in Hdm.
    assert (0 <= q)%Z by (subst q; apply Z.div_pos; lia).
    nia. }
  rewrite firstn_all2 by assumption.
  replace (length rows - _)%nat with 0%nat by lia.
  simpl. now rewrite app_nil_r.
Qed.

End Run.
End FindBmuRun.

(** ** The claims about [find_bmu] *)

Module FindBmuClaims.
Import SelfOrganizingMap FindBmuSpec FindBmuFacts FindBmuRun Examples.

Lemma returned_vector_locals {A : Type} (w : World A)
  (h0 : list (ndarray A)) (v : list Z) (D W : nat)
  (planes : list (list (list A))) (d : list (list A)) :
  returned_vector (set_heap (locals h0 v D W planes d) w, Ok (length h0)) =
  Some v.
Proof.
  unfold returned_vector, locals; simpl. now rewrite nth_error_fresh0.
Qed.

Lemma bmu_inputs_locals {A : Type} (w : World A) (data : loc)
  (N D W : nat) (rows weights : list (list A)) (v : list Z) (D' W' : nat)
  (planes : list (list (list A))) (d : list (list A)) :
  bmu_inputs w data N D W rows weights ->
  bmu_inputs (set_heap (locals (heap w) v D' W' planes d) w) data N D W
    rows weights.
Proof.
  intros (Hdata & Hrows & wl & Hself & Hwl & Hweights).
  unfold bmu_inputs, locals; simpl.
  split; [now apply nth_error_old|]. split; [assumption|].
  exists wl. split; [assumption|].
  split; [now apply nth_error_old | assumption].
Qed.

Lemma bmu_example_world_inputs :
  bmu_inputs bmu_example_world 0 5 2 3
    [[0; 0]; [5; 5]; [9; 1]; [2; 2]; [5; 4]]%Z [[0; 5; 9]; [0; 5; 0]]%Z.
Proof.
  split; [reflexivity|].
  split; [split; [reflexivity | repeat constructor]|].
  exists 1%nat. split; [reflexivity|]. split; [reflexivity|].
  split; [reflexivity | repeat constructor].
Defined.

(** C4.  On an [(N, D)] data matrix and a [(D, W)] prototype matrix,
    [find_bmu] returns a vector of [N] integers whose entry [i] is the
    index of the prototype at minimal squared Euclidean distance from
    sample [i], the lowest such index when several are minimal. *)
Theorem find_bmu_nearest_prototype {A : Type} `{DType A} (w : World A)
  (data : loc) (batchsize : Z) (N D W : nat)
  (rows weights : list (list A)) :
  bmu_inputs w data N D W rows weights ->
  (0 < batchsize)%Z -> (0 < W)%nat ->
  exists v : list Z,
    returned_vector (find_bmu data batchsize w) = Some v /\
    length v = N /\
    forall (i : nat) (x : list A),
      nth_error rows i = Some x ->
      exists j : nat,
        nth_error v i = Some (Z.of_nat j) /\
        is_first_min (sqdist x weights) W j.
Proof.
  intros Hin Hb HW.
  destruct (find_bmu_run w data batchsize N D W rows weights Hin Hb HW)
    as [planes [d Hrun]].
  rewrite Hrun, returned_vector_locals.
  eexists; split; [reflexivity|].
  destruct Hin as (_ & [Hrows _] & _).
  split; [now rewrite length_map|].
  intros i x Hx. exists (nearest weights W x).
  split; [|now apply nearest_first_min].
  now rewrite nth_error_map, Hx.
Qed.

Lemma find_bmu_nearest_prototype_witness :
  exists v : list Z,
    returned_vector (find_bmu 0%nat 1024%Z bmu_example_world) = Some v /\
    length v = 5%nat /\
    forall (i : nat) (x : list Z),
      nth_error [[0; 0]; [5; 5]; [9; 1]; [2; 2]; [5; 4]]%Z i = Some x ->
      exists j : nat,
        nth_error v i = Some (Z.of_nat j) /\
        is_first_min (sqdist x [[0; 5; 9]; [0; 5; 0]]%Z) 3 j.
Proof.
  apply (find_bmu_nearest_prototype bmu_example_world 0%nat 1024%Z 5 2 3).
  - exact bmu_example_world_inputs.
  - lia.
  - lia.
Defined.

(** C2.  The assignment vector that [find_bmu] returns does not depend on
    the batch size: any two batch sizes give the same vector of [N]
    entries on the same data and prototypes. *)
Theorem find_bmu_batchsize_invariant {A : Type} `{DType A} (w : World A)
  (data : loc) (batchsize1 batchsize2 : Z) (N D W : nat)
  (rows weights : list (list A)) :
  bmu_inputs w data N D W rows weights ->
  (0 < batchsize1)%Z -> (0 < batchsize2)%Z -> (0 < W)%nat ->
  exists v : list Z,
    returned_vector (find_bmu data batchsize1 w) = Some v /\
    returned_vector (find_bmu data batchsize2 w) = Some v /\
    length v = N.
Proof.
  intros Hin Hb1 Hb2 HW.
  destruct (find_bmu_run w data batchsize1 N D W rows weights Hin Hb1 HW)
    as [planes1 [d1 Hrun1]].
  destruct (find_bmu_run w data batchsize2 N D W rows weights Hin Hb2 HW)
    as [planes2 [d2 Hrun2]].
  rewrite Hrun1, Hrun2, !returned_vector_locals.
  eexists; repeat split.
  destruct Hin as (_ & [Hrows _] & _). now rewrite length_map.
Qed.

Lemma find_bmu_batchsize_invariant_witness :
  exists v : list Z,
    returned_vector (find_bmu 0%nat 1%Z bmu_example_world) = Some v /\
    returned_vector (find_bmu 0%nat 5%Z bmu_example_world) = Some v /\
    length v = 5%nat.
Proof.
  eapply (find_bmu_batchsize_invariant bmu_example_world 0%nat 1%Z 5%Z 5 2 3).
  - exact bmu_example_world_inputs.
  - lia.
  - lia.
  - lia.
Defined.

(** C10.  [find_bmu] is read-only on the map instance: whatever the data
    and the batch size, and whether it returns or raises, the attributes
    of the instance and every array that existed before the call (the
    prototype matrix among them) are unchanged; so a second call on the
    same data returns the same assignment vector as the first. *)
Theorem find_bmu_read_only {A : Type} `{DType A} (w : World A)
  (data : loc) (batchsize : Z) :
  let w1 := fst (find_bmu data batchsize w) in
  self w1 = self w /\
  (forall (l : loc) (a : ndarray A),
      nth_error (heap w) l = Some a -> nth_error (heap w1) l = Some a) /\
  (forall (N D W : nat) (rows weights : list (list A)),
      bmu_inputs w data N D W rows weights ->
      (0 < batchsize)%Z -> (0 < W)%nat ->
      exists v : list Z,
        returned_vector (find_bmu data batchsize w) = Some v /\
        returned_vector (find_bmu data batchsize w1) = Some v).
Proof.
  intros w1.
  destruct (frames_find_bmu (length (heap w)) data batchsize w
              (Nat.le_refl _)) as (Hlen & Hfirst & Hself & _).
  fold w1 in Hlen, Hfirst, Hself.
  split; [assumption|]. split.
  - intros l a Hl.
    assert (Hlt : (l < length (heap w))%nat)
      by (apply nth_error_Some; congruence).
    rewrite <- (firstn_skipn (length (heap w)) (heap w1)).
    rewrite nth_error_app1
      by (rewrite length_firstn; lia).
    rewrite Hfirst, firstn_all. assumption.
  - intros N D W rows weights Hin Hb HW.
    destruct (find_bmu_run w data batchsize N D W rows weights Hin Hb HW)
      as [planes [d Hrun]].
    subst w1. rewrite Hrun. cbn [fst].
    pose proof (bmu_inputs_locals w data N D W rows weights
                  (map (fun x => Z.of_nat (nearest weights W x)) rows)
                  D W planes d Hin) as Hin1.
    destruct (find_bmu_run _ data batchsize N D W rows weights Hin1 Hb HW)
      as [planes' [d' Hrun']].
    rewrite Hrun'.
    change (set_heap ?h (set_heap ?h' w)) with (set_heap h w).
    rewrite !returned_vector_locals.
    eexists; split; reflexivity.
Qed.

Lemma find_bmu_read_only_witness :
  self (fst (find_bmu 0%nat 2%Z bmu_example_world))
  = self bmu_example_world /\
  (forall (l : loc) (a : ndarray Z),
      nth_error (heap bmu_example_world) l = Some a ->
      nth_error (heap (fst (find_bmu 0%nat 2%Z bmu_example_world))) l =
      Some a) /\
  exists v : list Z,
    returned_vector (find_bmu 0%nat 2%Z bmu_example_world) = Some v /\
    returned_vector
      (find_bmu 0%nat 2%Z (fst (find_bmu 0%nat 2%Z bmu_example_world))) =
    Some v.
Proof.
  destruct (find_bmu_read_only bmu_example_world 0%nat 2%Z)
    as (Hself & Hheap & Hsame).
  split; [exact Hself|]. split; [exact Hheap|].
  apply (Hsame 5%nat 2%nat 3%nat _ _ bmu_example_world_inputs); lia.
Defined.

End FindBmuClaims.

(** * Properties of the training loop *)

(** ** Rules for following a reference computation *)

Section SimRules.
Context {St1 St2 : Type} (Rep : St2 -> St1 -> Prop).

Lemma sim_ret (X : Type) (x : X) : sim Rep (ret x) (ret x).
Proof. intros st w HR; simpl. now split. Qed.

Lemma sim_raise (X : Type) (e : exn) :
  sim Rep (raise (X := X) e) (raise e).
Proof. intros st w HR; simpl. now split. Qed.

Lemma sim_lift (X : Type) (r : result X) : sim Rep (lift r) (lift r).
Proof. intros st w HR; simpl. now split. Qed.

Lemma sim_bind (X Y : Type) (c : ST St1 X) (p : ST St2 X)
  (k : X -> ST St1 Y) (q : X -> ST St2 Y) :
  sim Rep c p -> (forall x, sim Rep (k x) (q x)) ->
  sim Rep (bind c k) (bind p q).
Proof.
  intros Hc Hk st w HR. destruct (Hc st w HR) as [Hres Hrep].
  unfold bind. destruct (c w) as [w' r], (p st) as [st' r']; simpl in *.
  subst r'. destruct r as [x|e]; [now apply Hk | now split].
Qed.

Lemma sim_for_fold (I S : Type) (items : list I)
  (body : I -> S -> ST St1 S) (body' : I -> S -> ST St2 S) :
  (forall i s, sim Rep (body i s) (body' i s)) ->
  forall s, sim Rep (for_fold items body s) (for_fold items body' s).
Proof.
  intros Hbody. induction items as [|i items IH]; intros s; simpl.
  - apply sim_ret.
  - apply sim_bind; [apply Hbody | apply IH].
Qed.

End SimRules.

(** ** Cells of the store *)

Lemma nth_error_list_set_eq (X : Type) (h : list X) (l : nat) (x0 x : X) :
  nth_error h l = Some x0 -> nth_error (list_set l x h) l = Some x.
Proof.
  revert l; induction h as [|y h IH]; intros [|l] Hl; simpl in *;
    try discriminate; [reflexivity | now apply IH].
Qed.

Lemma nth_error_list_set_ne (X : Type) (h : list X) (l l' : nat) (x : X) :
  l <> l' -> nth_error (list_set l x h) l' = nth_error h l'.
Proof.
  revert l l'; induction h as [|y h IH]; intros [|l] [|l'] Hne; simpl;
    try reflexivity; try congruence.
  apply IH. congruence.
Qed.

Lemma map_list_set (X Y : Type) (f : X -> Y) (i : nat) (x : X) (l : list X) :
  map f (list_set i x l) = list_set i (f x) (map f l).
Proof.
  revert i; induction l as [|y l IH]; intros [|i]; simpl;
    try reflexivity.
  now rewrite IH.
Qed.

(** ** The operations of the training loop follow their references *)

Module FitSim.
Section FitSim.
Context `{RandomStateOps}.
Variable lay : Layout.

Local Abbreviation Rep := (holds lay).

Ltac unf :=
  cbv beta iota zeta delta
    [Fit.read_weights Fit.weights_iadd Fit.setitem_loss Fit.self_loss
     Fit.load1 Fit.data_rows Fit.self_data Fit.mapgeom_separations
     SelfOrganizingMap.self_weights bind ret raise lift get_self set_self
     load2 load store log set_heap FitSpec.read_weights
     FitSpec.weights_iadd FitSpec.setitem_loss FitSpec.log];
  cbn [fst snd heap self junk junk_int trace _weights _loss data
       _mapgeom].

Ltac run H := rewrite H; unf.

Ltac open_rep HR :=
  pose proof HR as
    (Hw & Hl & Hd & Hwl & Hwd & Hld & Hcw & Hcl & Hcd & Ht & Hg).

Lemma sim_read_weights : sim Rep Fit.read_weights FitSpec.read_weights.
Proof.
  intros st w HR. open_rep HR.
  unf. run Hw. run Hcw. now split.
Qed.

Lemma sim_weights_iadd (delta : matrix) :
  sim Rep (Fit.weights_iadd delta) (FitSpec.weights_iadd delta).
Proof.
  intros st w HR. open_rep HR.
  unf. run Hw. run Hcw. run Hcw.
  split; [reflexivity|].
  unfold holds; simpl.
  repeat split; try assumption.
  - eapply nth_error_list_set_eq; eassumption.
  - now rewrite nth_error_list_set_ne.
  - now rewrite nth_error_list_set_ne.
Qed.

Lemma sim_log (e : R * R) : sim Rep (log e) (FitSpec.log e).
Proof.
  intros st w HR. open_rep HR.
  unf. split; [reflexivity|].
  unfold holds; simpl.
  repeat split; try assumption.
  now rewrite Ht, app_assoc.
Qed.

Lemma sim_setitem_loss (it : Z) (loss : R) :
  sim Rep (Fit.setitem_loss it loss) (FitSpec.setitem_loss it loss).
Proof.
  intros st w HR. open_rep HR.
  unf. run Hl. run Hcl. rewrite length_map.
  destruct (Z.to_nat it <? length (FitSpec.t_loss st))%nat; unf.
  - run Hcl. split; [reflexivity|].
    unfold holds; simpl.
    repeat split; try assumption.
    + rewrite nth_error_list_set_ne by congruence. assumption.
    + rewrite map_list_set.
      eapply nth_error_list_set_eq; eassumption.
    + rewrite nth_error_list_set_ne by congruence. assumption.
  - now split.
Qed.

Lemma separations_again (g g' : Grid.t) (sep : matrix) :
  Grid.separations g = Ok (sep, g') -> Grid.separations g' = Ok (sep, g').
Proof.
  unfold Grid.separations. intros Hg.
  destruct (Grid._separations g) as [s|] eqn:Hc.
  - injection Hg as <- <-. now rewrite Hc.
  - destruct (Grid._calculate_separations g); [|discriminate].
    simpl in Hg. injection Hg as <- <-. reflexivity.
Qed.

Lemma sim_mapgeom_separations :
  sim Rep Fit.mapgeom_separations (ret (l_sep lay)).
Proof.
  intros st w HR. open_rep HR. destruct Hg as [g Hg].
  unf. run Hg. split; [reflexivity|].
  unfold holds; simpl.
  repeat split; try assumption.
  exists g. now apply separations_again with (g := _mapgeom (self w)).
Qed.

Lemma sim_data_rows (batch_idx : list nat) :
  sim Rep (Fit.data_rows batch_idx)
    (lift (take_rows (l_X lay) batch_idx)).
Proof.
  intros st w HR. open_rep HR.
  unf. run Hd. run Hcd. now split.
Qed.

(** ** The training loop follows its reference *)

Ltac sim_op :=
  first
    [ apply sim_ret | apply sim_raise | apply sim_lift
    | apply sim_read_weights | apply sim_weights_iadd | apply sim_log
    | apply sim_setitem_loss | apply sim_mapgeom_separations
    | apply sim_data_rows ].

Ltac sim_auto :=
  repeat
    first
      [ sim_op
      | apply sim_bind; [ sim_op | intros ? ]
      | match goal with
        | |- sim _ (match ?x with _ => _ end) _ => destruct x
        | |- sim _ (let '(_, _) := ?x in _) _ => destruct x
        end ].

Lemma sim_somz_sample_step (alpha : option R) (sigma : R) (x : list R)
  (loss : R) :
  sim Rep (Fit.somz_sample_step alpha sigma x loss)
    (FitSpec.somz_sample_step (l_sep lay) alpha sigma x loss).
Proof.
  unfold Fit.somz_sample_step, FitSpec.somz_sample_step. sim_auto.
Qed.

Lemma sim_somviz_sample_step (learn_rate : option R) (gauss_width : R)
  (x : list R) (loss : R) :
  sim Rep (Fit.somviz_sample_step learn_rate gauss_width x loss)
    (FitSpec.somviz_sample_step (l_sep lay) learn_rate gauss_width x loss).
Proof.
  unfold Fit.somviz_sample_step, FitSpec.somviz_sample_step. sim_auto.
Qed.

Lemma sim_somz_epoch (tt nt : Z) (sigma0 sigma_single : R) (N : nat)
  (batch_size it : Z) (rng : rng_state) :
  sim Rep
    (Fit.somz_epoch tt nt sigma0 sigma_single N batch_size it rng)
    (FitSpec.somz_epoch (l_sep lay) (l_X lay) tt nt sigma0 sigma_single N
       batch_size it rng).
Proof.
  unfold Fit.somz_epoch, FitSpec.somz_epoch. sim_auto.
  apply sim_bind; [|intros ?; sim_auto].
  apply sim_for_fold. intros; apply sim_somz_sample_step.
Qed.

Lemma sim_somviz_epoch (eta large_scale : R) (maxiter : Z) (N : nat)
  (batch_size i : Z) (rng : rng_state) :
  sim Rep
    (Fit.somviz_epoch eta large_scale maxiter N batch_size i rng)
    (FitSpec.somviz_epoch (l_sep lay) (l_X lay) eta large_scale maxiter N
       batch_size i rng).
Proof.
  unfold Fit.somviz_epoch, FitSpec.somviz_epoch. sim_auto.
  apply sim_bind; [|intros ?; sim_auto].
  apply sim_for_fold. intros; apply sim_somviz_sample_step.
Qed.

Lemma sim_train (maxiter : Z) (eta : R) (somz : bool) (N : nat)
  (batch_size : Z) (rng : rng_state) :
  sim Rep (Fit.train maxiter eta somz N batch_size rng)
    (FitSpec.train (l_sep lay) (l_X lay) maxiter eta somz N batch_size
       rng).
Proof.
  unfold Fit.train, FitSpec.train. destruct somz; sim_auto.
  - apply sim_bind; [|intros ?; sim_auto].
    apply sim_for_fold. intros; apply sim_somz_epoch.
  - apply sim_bind; [|intros ?; sim_auto].
    apply sim_for_fold. intros; apply sim_somviz_epoch.
Qed.

End FitSim.
End FitSim.

(** ** A run of [fit] follows the reference *)

Module FitRun.
Section FitRun.
Context `{RandomStateOps}.

Ltac unf :=
  cbv beta iota zeta delta
    [Fit.fit Fit.set_data Fit.set_loss Fit.set_weights Fit.self_data
     Fit.np_empty1 Fit.init_weights Fit.mapgeom_size shape2 load2 load
     alloc bind ret raise lift get_self set_self get_junk set_heap];
  cbn [fst snd heap self junk junk_int trace _weights _loss data
       _mapgeom].

Lemma init_weights_run (w : World R) (dl : loc) (D : nat) (X : matrix)
  (somz : bool) (rng : rng_state) :
  data (self w) = Some dl ->
  nth_error (heap w) dl = Some (Arr2 D X) ->
  (somz = true ->
   exists (x00 : R) (row0 : list R) (rest : matrix),
     X = (x00 :: row0) :: rest) ->
  let size := Grid._size (_mapgeom (self w)) in
  let init :=
    FitSpec.initial_weights X somz D size (FitSpec.first_entry X) rng in
  Fit.init_weights somz D rng w =
  (mkWorld (heap w ++ [Arr2 size (fst init)])
     (mkSOM (_mapgeom (self w)) (Some (length (heap w))) (_loss (self w))
        (data (self w)))
     (junk w) (junk_int w) (trace w),
   Ok (snd init)).
Proof.
  intros Hd Hcell Hfirst size init. subst init size.
  unfold FitSpec.initial_weights, FitSpec.first_entry. unf.
  destruct somz.
  - destruct (Hfirst eq_refl) as (x00 & row0 & rest & ->).
    destruct (rng_rand rng D (Grid._size (_mapgeom (self w))))
      as [u rng'].
    unf. rewrite Hd. unf. rewrite Hcell. unf.
    unfold getitem; simpl. now rewrite Hd.
  - rewrite Hd. unf. rewrite Hcell. unf.
    destruct (rng_normal rng D (Grid._size (_mapgeom (self w))))
      as [g rng'].
    unf. now rewrite Hd.
Qed.

(** Called with [init='random'] and a non-negative [maxiter] on a
    two-dimensional data array (with a first entry, in SOMz mode), on a
    map whose geometry yields the separations [sep], [fit] returns or
    raises as the reference does and leaves the training state of the
    reference in the store. *)
Lemma fit_follows (w : World R) (dl : loc) (maxiter : Z)
  (iterfrac eta : R) (seed : Z) (somz : bool) (D : nat) (X sep : matrix)
  (g' : Grid.t) :
  nth_error (heap w) dl = Some (Arr2 D X) ->
  (0 <= maxiter)%Z ->
  (somz = true ->
   exists (x00 : R) (row0 : list R) (rest : matrix),
     X = (x00 :: row0) :: rest) ->
  Grid.separations (_mapgeom (self w)) = Ok (sep, g') ->
  let out :=
    FitSpec.fit sep X maxiter iterfrac eta seed somz D
      (Grid._size (_mapgeom (self w))) in
  snd (Fit.fit dl maxiter iterfrac eta "random" seed somz w) = snd out /\
  holds (layout_of w dl D X sep) (fst out)
    (fst (Fit.fit dl maxiter iterfrac eta "random" seed somz w)).
Proof.
  intros Hdata Hmax Hfirst Hsep out.
  assert (Hlt : (dl < length (heap w))%nat)
    by (apply nth_error_Some; congruence).
  unfold Fit.fit.
  erewrite bind_run by reflexivity.
  erewrite bind_run by reflexivity.
  erewrite bind_run
    by (unf; rewrite Hdata; reflexivity).
  cbv beta iota.
  erewrite bind_run
    by (unf; destruct (Z.ltb_spec maxiter 0) as [|_]; [lia|]; reflexivity).
  erewrite bind_run by reflexivity.
  rewrite String.eqb_refl.
  erewrite bind_run.
  2:{ apply init_weights_run with (dl := dl) (X := X).
      - reflexivity.
      - unf. now apply nth_error_old.
      - assumption. }
  cbn [fst snd heap self junk junk_int trace _weights _loss data
       _mapgeom].
  rewrite <- app_assoc, length_app. cbn [app length].
  subst out. unfold FitSpec.fit.
  apply (FitSim.sim_train (layout_of w dl D X sep)).
  unfold holds, layout_of, FitSpec.initial_state; simpl.
  repeat split.
  - lia.
  - lia.
  - lia.
  - now rewrite nth_error_fresh.
  - now rewrite map_repeat, nth_error_fresh0.
  - now apply nth_error_old.
  - now rewrite app_nil_r.
  - now exists g'.
Qed.

End FitRun.
End FitRun.

(** ** Properties of the reference training *)

Section Preserves.
Context {St : Type} (Rel : St -> St -> Prop).
Hypothesis Rel_refl : forall s, Rel s s.
Hypothesis Rel_trans : forall s1 s2 s3, Rel s1 s2 -> Rel s2 s3 -> Rel s1 s3.

Lemma preserves_ret (X : Type) (x : X) : preserves Rel (ret x).
Proof. intros s. apply Rel_refl. Qed.

Lemma preserves_raise (X : Type) (e : exn) : preserves Rel (raise (X := X) e).
Proof. intros s. apply Rel_refl. Qed.

Lemma preserves_lift (X : Type) (r : result X) : preserves Rel (lift r).
Proof. intros s. apply Rel_refl. Qed.

Lemma preserves_bind (X Y : Type) (c : ST St X) (k : X -> ST St Y) :
  preserves Rel c -> (forall x, preserves Rel (k x)) ->
  preserves Rel (bind c k).
Proof.
  intros Hc Hk s. unfold bind. specialize (Hc s).
  destruct (c s) as [s1 [x|e]]; simpl in *; [|assumption].
  eapply Rel_trans; [eassumption | apply Hk].
Qed.

Lemma preserves_bind_ret (X Y : Type) (x : X) (k : X -> ST St Y) :
  preserves Rel (k x) -> preserves Rel (bind (ret x) k).
Proof. intros Hk s. apply Hk. Qed.

(** After a pure step the rest runs with the value the step returned. *)
Lemma preserves_bind_lift (X Y : Type) (r : result X) (k : X -> ST St Y) :
  (forall x, r = Ok x -> preserves Rel (k x)) ->
  preserves Rel (bind (lift r) k).
Proof.
  intros Hk s. unfold bind, lift. destruct r as [x|e]; simpl.
  - now apply Hk.
  - apply Rel_refl.
Qed.

Lemma preserves_for_fold (I S : Type) (items : list I)
  (body : I -> S -> ST St S) :
  (forall i s, preserves Rel (body i s)) ->
  forall s, preserves Rel (for_fold items body s).
Proof.
  intros Hbody. induction items as [|i items IH]; intros s; simpl.
  - apply preserves_ret.
  - apply preserves_bind; [apply Hbody | apply IH].
Qed.

End Preserves.

(** A computation that returned went through both parts of a [bind]. *)
Lemma bind_ok_inv (St X Y : Type) (c : ST St X) (k : X -> ST St Y)
  (s s' : St) (y : Y) :
  bind c k s = (s', Ok y) ->
  exists (x : X) (s1 : St), c s = (s1, Ok x) /\ k x s1 = (s', Ok y).
Proof.
  unfold bind. destruct (c s) as [s1 [x|e]]; [|discriminate].
  intros Hk. now exists x, s1.
Qed.

Lemma bind_lift_ok_inv (St X Y : Type) (r : result X) (k : X -> ST St Y)
  (s s' : St) (y : Y) :
  bind (lift r) k s = (s', Ok y) ->
  exists x : X, r = Ok x /\ k x s = (s', Ok y).
Proof.
  unfold bind, lift. destruct r as [x|e]; [|discriminate].
  intros Hk. now exists x.
Qed.

Module FitFacts.
Section FitFacts.
Context `{RandomStateOps}.
Import FitSpec TrainProps.

(** ** No epoch *)

(** With [maxiter = 0] the training leaves the state as it is. *)
Lemma train_no_epoch (sep X : matrix) (eta : R) (somz : bool) (N : nat)
  (batch_size : Z) (rng : rng_state) (st : Train) :
  train sep X 0 eta somz N batch_size rng st =
  (st,
   if somz
   then rbind (np_max sep) (fun _ =>
        rbind (np_min (where_positive sep sep)) (fun _ => Ok tt))
   else Ok tt).
Proof.
  unfold train, range; simpl. destruct somz; [|reflexivity].
  unfold bind, ret, lift; simpl.
  destruct (np_max sep); [|reflexivity]. simpl.
  destruct (np_min (where_positive sep sep)); reflexivity.
Qed.

(** ** The schedule of SOMz mode *)

Lemma logs_only_refl (P : R * R -> Prop) (st : Train) : logs_only P st st.
Proof. exists []. now rewrite app_nil_r. Qed.

Lemma logs_only_trans (P : R * R -> Prop) (st1 st2 st3 : Train) :
  logs_only P st1 st2 -> logs_only P st2 st3 -> logs_only P st1 st3.
Proof.
  intros [l1 [H1 HP1]] [l2 [H2 HP2]]. exists (l1 ++ l2).
  rewrite H2, H1, app_assoc. split; [reflexivity|].
  apply Forall_app. now split.
Qed.

Section LogsOnly.
Variable P : R * R -> Prop.

Local Abbreviation keeps := (preserves (logs_only P)).

Lemma keeps_read_weights : keeps read_weights.
Proof. intros st. apply logs_only_refl. Qed.

Lemma keeps_weights_iadd (delta : matrix) : keeps (weights_iadd delta).
Proof. intros st. exists []. simpl. now rewrite app_nil_r. Qed.

Lemma keeps_setitem_loss (it : Z) (loss : R) :
  keeps (setitem_loss it loss).
Proof.
  intros st. unfold setitem_loss.
  destruct (Z.to_nat it <? length (t_loss st))%nat; simpl.
  - exists []. simpl. now rewrite app_nil_r.
  - apply logs_only_refl.
Qed.

Lemma keeps_log (e : R * R) : P e -> keeps (log e).
Proof.
  intros He st. exists [e]. simpl. split; [reflexivity|].
  now constructor.
Qed.

Ltac keeps_op :=
  first
    [ apply preserves_ret; apply logs_only_refl
    | apply preserves_raise; apply logs_only_refl
    | apply preserves_lift; apply logs_only_refl
    | apply keeps_read_weights | apply keeps_weights_iadd
    | apply keeps_setitem_loss
    | apply keeps_log; assumption ].

Ltac keeps_auto :=
  repeat
    first
      [ keeps_op
      | apply preserves_bind;
        [ apply logs_only_trans | keeps_op | intros ? ]
      | match goal with
        | |- preserves _ (match ?x with _ => _ end) => destruct x
        end ].

(** A sample step logs the rate and the width it was given. *)
Lemma keeps_somz_sample_step (sep : matrix) (alpha sigma : R)
  (x : list R) (loss : R) :
  P (alpha, sigma) ->
  keeps (somz_sample_step sep (Some alpha) sigma x loss).
Proof.
  intros HP. unfold somz_sample_step, real_of. keeps_auto.
Qed.

End LogsOnly.

(** With the step counter at 0 the exponent of the schedule is 0, and the
    power is 1 whatever the base. *)
Lemma schedule_at_zero (nt : Z) (base r : R) :
  py_truediv 0 nt = Ok r -> py_pow base r = Ok (Some 1%R).
Proof.
  unfold py_truediv. destruct (nt =? 0)%Z; [discriminate|].
  intros [= <-]. unfold py_pow.
  destruct (Req_dec_T (0 / IZR nt) 0) as [|Hne]; [reflexivity|].
  exfalso. apply Hne. unfold Rdiv. apply Rmult_0_l.
Qed.

Lemma np_schedule_at_zero (nt : Z) (base r : R) :
  py_truediv 0 nt = Ok r -> np_pow base r = 1%R.
Proof.
  unfold py_truediv. destruct (nt =? 0)%Z; [discriminate|].
  intros [= <-]. unfold np_pow.
  destruct (Req_dec_T (0 / IZR nt) 0) as [|Hne]; [reflexivity|].
  exfalso. apply Hne. unfold Rdiv. apply Rmult_0_l.
Qed.

(** Every epoch of SOMz mode runs with the step counter it is given; at 0
    the learning rate is [aps] and the width is [sigma0]. *)
Lemma somz_epoch_trace (sep X : matrix) (nt : Z)
  (sigma0 sigma_single : R) (N : nat) (batch_size it : Z)
  (rng : rng_state) :
  preserves (logs_only (fun e => e = (Fit.aps * 1, sigma0 * 1)%R))
    (somz_epoch sep X 0 nt sigma0 sigma_single N batch_size it rng).
Proof.
  set (P := fun e : R * R => e = (Fit.aps * 1, sigma0 * 1)%R).
  assert (Hrefl := logs_only_refl P).
  assert (Htrans := logs_only_trans P).
  unfold somz_epoch.
  apply preserves_bind_lift; [assumption|]. intros r Hr.
  rewrite (schedule_at_zero nt _ r Hr).
  apply preserves_bind_lift; [assumption|]. intros p [= <-].
  apply preserves_bind_lift; [assumption|]. intros r' Hr'.
  rewrite (np_schedule_at_zero nt _ r' Hr').
  destruct (rng_choice rng N batch_size) as [batch_idx rng'].
  apply preserves_bind_lift; [assumption|]. intros idx _.
  apply preserves_bind_lift; [assumption|]. intros xs _.
  apply preserves_bind; [assumption | |].
  - apply preserves_for_fold; [assumption | assumption |].
    intros x loss. apply keeps_somz_sample_step. reflexivity.
  - intros loss.
    apply preserves_bind; [assumption | |].
    + apply keeps_setitem_loss.
    + intros _. apply preserves_ret. assumption.
Qed.

(** In SOMz mode every update of a run has learning rate 0.8 and, as
    width, the largest separation of the map. *)
Lemma train_somz_trace (sep X : matrix) (maxiter : Z) (eta : R) (N : nat)
  (batch_size : Z) (rng : rng_state) :
  preserves
    (logs_only (fun e => fst e = 0.8%R /\ np_max sep = Ok (snd e)))
    (train sep X maxiter eta true N batch_size rng).
Proof.
  set (P := fun e : R * R => fst e = 0.8%R /\ np_max sep = Ok (snd e)).
  assert (Hrefl := logs_only_refl P).
  assert (Htrans := logs_only_trans P).
  unfold train.
  apply preserves_bind_ret.
  apply preserves_bind_lift; [assumption|]. intros sigma0 Hsigma0.
  do 2 apply preserves_bind_ret.
  apply preserves_bind_lift; [assumption|]. intros sigma_single _.
  apply preserves_bind; [assumption | |].
  - apply preserves_for_fold; [assumption | assumption |].
    intros it rng' st.
    destruct (somz_epoch_trace sep X (maxiter * Z.of_nat N) sigma0
                sigma_single N batch_size it rng' st) as [l [Hl HP]].
    exists l. split; [assumption|].
    eapply Forall_impl; [|exact HP].
    intros e ->. unfold P, Fit.aps; simpl. split; [lra|].
    now rewrite Rmult_1_r.
  - intros _. apply preserves_ret. assumption.
Qed.

(** ** The loss history of a run that returns *)

Lemma same_loss_refl (st : Train) : same_loss st st.
Proof. reflexivity. Qed.

Lemma same_loss_trans (st1 st2 st3 : Train) :
  same_loss st1 st2 -> same_loss st2 st3 -> same_loss st1 st3.
Proof. unfold same_loss. congruence. Qed.

Ltac same_loss_op :=
  first
    [ apply preserves_ret; apply same_loss_refl
    | apply preserves_raise; apply same_loss_refl
    | apply preserves_lift; apply same_loss_refl
    | intros ?; reflexivity ].

Ltac same_loss_auto :=
  repeat
    first
      [ same_loss_op
      | apply preserves_bind;
        [ apply same_loss_trans | same_loss_op | intros ? ]
      | match goal with
        | |- preserves _ (match ?x with _ => _ end) => destruct x
        end ].

Lemma same_loss_somz_sample_step (sep : matrix) (alpha : option R)
  (sigma : R) (x : list R) (loss : R) :
  preserves same_loss (somz_sample_step sep alpha sigma x loss).
Proof. unfold somz_sample_step. same_loss_auto. Qed.

Lemma same_loss_somviz_sample_step (sep : matrix)
  (learn_rate : option R) (gauss_width : R) (x : list R) (loss : R) :
  preserves same_loss
    (somviz_sample_step sep learn_rate gauss_width x loss).
Proof. unfold somviz_sample_step. same_loss_auto. Qed.

Lemma filled_list_set (l : list (option R)) (k i : nat) (v : R) :
  (k < length l)%nat ->
  (i = k \/ filled l i) -> filled (list_set k (Some v) l) i.
Proof.
  intros Hk Hi. unfold filled.
  destruct (Nat.eq_dec k i) as [->|Hne].
  - exists v. destruct (nth_error l i) as [o|] eqn:Ho.
    + eapply nth_error_list_set_eq; eassumption.
    + apply nth_error_None in Ho. lia.
  - rewrite nth_error_list_set_ne by assumption.
    destruct Hi as [->|Hf]; [contradiction | assumption].
Qed.

(** The end of an epoch: the samples, then the loss of the epoch. *)
Lemma epoch_tail_writes (step : list R -> R -> ST Train R) (xs : matrix)
  (it : Z) (rng rng' : rng_state) (st st' : Train) :
  (forall x loss, preserves same_loss (step x loss)) ->
  bind (for_fold xs step 0%R)
    (fun loss => bind (setitem_loss it loss) (fun _ => ret rng)) st =
  (st', Ok rng') ->
  length (t_loss st') = length (t_loss st) /\
  filled (t_loss st') (Z.to_nat it) /\
  forall i, filled (t_loss st) i -> filled (t_loss st') i.
Proof.
  intros Hstep Hrun.
  apply bind_ok_inv in Hrun as (loss & st1 & Hfold & Hrun).
  pose proof (preserves_for_fold same_loss same_loss_refl same_loss_trans
                _ _ xs step Hstep 0%R st) as Hsame.
  rewrite Hfold in Hsame. unfold same_loss in Hsame; simpl in Hsame.
  apply bind_ok_inv in Hrun as ([] & st2 & Hset & Hret).
  injection Hret as <- _.
  unfold setitem_loss in Hset.
  destruct (Z.to_nat it <? length (t_loss st1))%nat eqn:Hlt;
    [|discriminate].
  apply Nat.ltb_lt in Hlt. injection Hset as <-. simpl.
  rewrite Hsame in Hlt |- *. rewrite length_list_set. repeat split.
  - apply filled_list_set; [assumption | now left].
  - intros i Hi. apply filled_list_set; [assumption|].
    now right.
Qed.

Lemma somz_epoch_writes (sep X : matrix) (tt nt : Z)
  (sigma0 sigma_single : R) (N : nat) (batch_size : Z) :
  writes_loss (somz_epoch sep X tt nt sigma0 sigma_single N batch_size).
Proof.
  intros it rng rng' st st' Hrun. unfold somz_epoch in Hrun.
  apply bind_lift_ok_inv in Hrun as (r & _ & Hrun).
  apply bind_lift_ok_inv in Hrun as (p & _ & Hrun).
  apply bind_lift_ok_inv in Hrun as (r' & _ & Hrun).
  destruct (rng_choice rng N batch_size) as [batch_idx rng1].
  apply bind_lift_ok_inv in Hrun as (idx & _ & Hrun).
  apply bind_lift_ok_inv in Hrun as (xs & _ & Hrun).
  eapply epoch_tail_writes; [|exact Hrun].
  intros x loss. apply same_loss_somz_sample_step.
Qed.

Lemma somviz_epoch_writes (sep X : matrix) (eta large_scale : R)
  (maxiter : Z) (N : nat) (batch_size : Z) :
  writes_loss (somviz_epoch sep X eta large_scale maxiter N batch_size).
Proof.
  intros it rng rng' st st' Hrun. unfold somviz_epoch in Hrun.
  apply bind_lift_ok_inv in Hrun as (r & _ & Hrun).
  apply bind_lift_ok_inv in Hrun as (p & _ & Hrun).
  apply bind_lift_ok_inv in Hrun as (r' & _ & Hrun).
  destruct (rng_choice rng N batch_size) as [batch_idx rng1].
  apply bind_lift_ok_inv in Hrun as (idx & _ & Hrun).
  apply bind_lift_ok_inv in Hrun as (xs & _ & Hrun).
  eapply epoch_tail_writes; [|exact Hrun].
  intros x loss. apply same_loss_somviz_sample_step.
Qed.

(** A loop over the epochs [k0, ..., k0 + cnt - 1] that returns wrote the
    loss of each of them. *)
Lemma epochs_write (epoch : Z -> rng_state -> ST Train rng_state) :
  writes_loss epoch ->
  forall (cnt k0 : nat) (rng rng' : rng_state) (st st' : Train),
    for_fold (map Z.of_nat (seq k0 cnt)) epoch rng st = (st', Ok rng') ->
    length (t_loss st') = length (t_loss st) /\
    forall i,
      (filled (t_loss st) i \/ (k0 <= i < k0 + cnt)%nat) ->
      filled (t_loss st') i.
Proof.
  intros Hepoch. induction cnt as [|cnt IH];
    intros k0 rng rng' st st' Hrun; simpl in Hrun.
  - injection Hrun as <- _. split; [reflexivity|].
    intros i [Hi|Hi]; [assumption | lia].
  - apply bind_ok_inv in Hrun as (rng1 & st1 & Hfirst & Hrest).
    destruct (Hepoch _ _ _ _ _ Hfirst) as (Hlen1 & Hk0 & Hkeep1).
    rewrite Nat2Z.id in Hk0.
    destruct (IH _ _ _ _ _ Hrest) as (Hlen2 & Hkeep2).
    split; [congruence|].
    intros i [Hi|Hi].
    + apply Hkeep2. left. now apply Hkeep1.
    + destruct (Nat.eq_dec i k0) as [->|Hne].
      * apply Hkeep2. now left.
      * apply Hkeep2. right. lia.
Qed.

(** A training that returns has written the whole loss history. *)
Lemma train_writes_all (sep X : matrix) (maxiter : Z) (eta : R)
  (somz : bool) (N : nat) (batch_size : Z) (rng : rng_state)
  (st st' : Train) :
  length (t_loss st) = Z.to_nat maxiter ->
  train sep X maxiter eta somz N batch_size rng st = (st', Ok tt) ->
  length (t_loss st') = Z.to_nat maxiter /\
  forall i, (i < Z.to_nat maxiter)%nat -> filled (t_loss st') i.
Proof.
  intros Hlen Hrun. unfold train, range in Hrun.
  destruct somz.
  - apply bind_ok_inv in Hrun as (s1 & st1 & [= <- <-] & Hrun).
    apply bind_lift_ok_inv in Hrun as (sigma0 & _ & Hrun).
    apply bind_ok_inv in Hrun as (s2 & st2 & [= <- <-] & Hrun).
    apply bind_ok_inv in Hrun as (s3 & st3 & [= <- <-] & Hrun).
    apply bind_lift_ok_inv in Hrun as (sigma_single & _ & Hrun).
    apply bind_ok_inv in Hrun as (rng' & st4 & Hloop & [= <-]).
    destruct (epochs_write _ (somz_epoch_writes sep X _ _ _ _ _ _)
                _ _ _ _ _ _ Hloop) as [Hlen' Hfilled].
    split; [congruence|]. intros i Hi. apply Hfilled. right. lia.
  - apply bind_ok_inv in Hrun as (s1 & st1 & [= <- <-] & Hrun).
    apply bind_ok_inv in Hrun as (rng' & st4 & Hloop & [= <-]).
    destruct (epochs_write _ (somviz_epoch_writes sep X _ _ _ _ _)
                _ _ _ _ _ _ Hloop) as [Hlen' Hfilled].
    split; [congruence|]. intros i Hi. apply Hfilled. right. lia.
Qed.

(** A loss history that is written throughout is the same in the store
    whatever [np.empty] had left there. *)
Lemma resolve_filled (l : list (option R)) (j1 j2 : R) :
  (forall i, (i < length l)%nat -> filled l i) ->
  map (resolve j1) l = map (resolve j2) l.
Proof.
  induction l as [|o l IH]; intros Hall; simpl; [reflexivity|].
  f_equal.
  - destruct (Hall 0%nat ltac:(simpl; lia)) as [v Hv].
    simpl in Hv. now injection Hv as ->.
  - apply IH. intros i Hi. apply (Hall (S i)). simpl; lia.
Qed.

End FitFacts.
End FitFacts.

(** ** The claims about [fit] *)

Module FitClaims.
Import FitRun FitFacts Examples.

Lemma weights_of_holds (lay : Layout) (st : FitSpec.Train) (w : World R) :
  holds lay st w ->
  weights_of w = Some (FitSpec.t_m st, FitSpec.t_weights st).
Proof.
  intros (Hw & _ & _ & _ & _ & _ & Hcw & _).
  unfold weights_of. now rewrite Hw, Hcw.
Qed.

Lemma loss_of_holds (lay : Layout) (st : FitSpec.Train) (w : World R) :
  holds lay st w ->
  loss_of w = Some (map (resolve (l_junk lay)) (FitSpec.t_loss st)).
Proof.
  intros (_ & Hl & _ & _ & _ & _ & _ & Hcl & _).
  unfold loss_of. now rewrite Hl, Hcl.
Qed.

Lemma trace_holds (lay : Layout) (st : FitSpec.Train) (w : World R) :
  holds lay st w -> trace w = l_trace lay ++ FitSpec.t_trace st.
Proof.
  now intros (_ & _ & _ & _ & _ & _ & _ & _ & _ & Ht & _).
Qed.

(** C8.  Called with [maxiter=0], in either mode, [fit] leaves the
    prototype matrix at its initial values and a loss history of length 0,
    and applies no prototype update. *)
Theorem fit_maxiter_zero `{RandomStateOps} (w : World R) (dl : loc)
  (iterfrac eta : R) (seed : Z) (somz : bool) (D : nat) (X sep : matrix)
  (g' : Grid.t) :
  nth_error (heap w) dl = Some (Arr2 D X) ->
  (somz = true -> has_first_entry X) ->
  Grid.separations (_mapgeom (self w)) = Ok (sep, g') ->
  let size := Grid._size (_mapgeom (self w)) in
  let run := Fit.fit dl 0 iterfrac eta "random" seed somz w in
  weights_of (fst run) =
    Some (size,
          fst (FitSpec.initial_weights X somz D size
                 (FitSpec.first_entry X) (RandomState seed))) /\
  loss_of (fst run) = Some [] /\
  trace (fst run) = trace w /\
  snd run =
    (if somz
     then rbind (np_max sep) (fun _ =>
          rbind (np_min (where_positive sep sep)) (fun _ => Ok tt))
     else Ok tt).
Proof.
  intros Hdata Hfirst Hsep size run.
  destruct (fit_follows w dl 0 iterfrac eta seed somz D X sep g' Hdata
              (Z.le_refl 0) Hfirst Hsep) as [Hres Hholds].
  fold run in Hres, Hholds.
  unfold FitSpec.fit in Hres, Hholds.
  rewrite train_no_epoch in Hres, Hholds. simpl in Hres, Hholds.
  rewrite (weights_of_holds _ _ _ Hholds), (loss_of_holds _ _ _ Hholds),
    (trace_holds _ _ _ Hholds).
  simpl. rewrite app_nil_r. repeat split. assumption.
Qed.

Lemma fit_maxiter_zero_witness :
  let run :=
    Fit.fit 0%nat 0 (1 / 10) (1 / 2) "random" 123 true fit_example_world in
  weights_of (fst run) =
    Some (2%nat,
          fst (FitSpec.initial_weights [[0]; [1]]%R true 1 2
                 (FitSpec.first_entry [[0]; [1]]%R) (RandomState 123))) /\
  loss_of (fst run) = Some [] /\
  trace (fst run) = [] /\
  snd run =
    rbind (np_max [[0; 1]; [1; 0]]%R) (fun _ =>
    rbind (np_min (where_positive [[0; 1]; [1; 0]]%R [[0; 1]; [1; 0]]%R))
      (fun _ => Ok tt)).
Proof.
  apply (fit_maxiter_zero fit_example_world 0%nat (1 / 10)%R (1 / 2)%R 123
           true 1 [[0]; [1]]%R [[0; 1]; [1; 0]]%R
           (Grid.mk 2 (Some [[0; 1]; [1; 0]]%R) [2%nat] [false] "L2")).
  - reflexivity.
  - intros _. now exists 0%R, [], [[1%R]].
  - reflexivity.
Defined.

(** The schedule the specification describes for SOMz mode does decay:
    once the step counter is positive, the learning rate it prescribes is
    below its start value 0.8. *)
Lemma described_alpha_decays (tt nt : Z) :
  (0 < tt)%Z -> (0 < nt)%Z ->
  (Fit.aps * Rpower (Fit.ape / Fit.aps) (IZR tt / IZR nt) < Fit.aps)%R.
Proof.
  intros Htt Hnt. unfold Fit.aps, Fit.ape.
  assert (Hy : (0 < IZR tt / IZR nt)%R)
    by (apply Rdiv_lt_0_compat; now apply IZR_lt).
  assert (Hln : (ln (0.5 / 0.8) < 0)%R)
    by (rewrite <- ln_1; apply ln_increasing; lra).
  assert (Hpow : (Rpower (0.5 / 0.8) (IZR tt / IZR nt) < 1)%R).
  { unfold Rpower. rewrite <- exp_0. apply exp_increasing. nra. }
  nra.
Qed.

(** C1 (what the code does).  In SOMz mode the step counter stays at 0:
    every prototype update of a run, in every epoch, is applied with
    learning rate 0.8 and with the largest separation of the map as
    neighbourhood width.  Neither decays. *)
Theorem somz_schedule_never_decays `{RandomStateOps} (w : World R)
  (dl : loc) (maxiter : Z) (iterfrac eta : R) (seed : Z) (D : nat)
  (X sep : matrix) (g' : Grid.t) :
  nth_error (heap w) dl = Some (Arr2 D X) ->
  (0 <= maxiter)%Z ->
  has_first_entry X ->
  Grid.separations (_mapgeom (self w)) = Ok (sep, g') ->
  exists updates : list (R * R),
    trace (fst (Fit.fit dl maxiter iterfrac eta "random" seed true w)) =
    trace w ++ updates /\
    Forall (fun e => fst e = 0.8%R /\ np_max sep = Ok (snd e)) updates.
Proof.
  intros Hdata Hmax Hfirst Hsep.
  destruct (fit_follows w dl maxiter iterfrac eta seed true D X sep g'
              Hdata Hmax (fun _ => Hfirst) Hsep) as [_ Hholds].
  rewrite (trace_holds _ _ _ Hholds).
  unfold layout_of, FitSpec.fit. cbn [l_trace].
  destruct (train_somz_trace sep X maxiter eta (length X)
              (py_round (iterfrac * INR (length X)))
              (snd (FitSpec.initial_weights X true D
                      (Grid._size (_mapgeom (self w)))
                      (FitSpec.first_entry X) (RandomState seed)))
              (FitSpec.initial_state X maxiter true D
                 (Grid._size (_mapgeom (self w))) seed))
    as [l [Hl HP]].
  exists l. rewrite Hl. cbn [FitSpec.t_trace FitSpec.initial_state app].
  now split.
Qed.

Lemma somz_schedule_never_decays_witness :
  exists updates : list (R * R),
    trace (fst (Fit.fit 0%nat 2 1 (1 / 2) "random" 123 true
                  fit_example_world)) =
    trace fit_example_world ++ updates /\
    Forall (fun e => fst e = 0.8%R /\
                     np_max [[0; 1]; [1; 0]]%R = Ok (snd e)) updates.
Proof.
  apply (somz_schedule_never_decays fit_example_world 0%nat 2 1 (1 / 2) 123 1
           [[0]; [1]]%R [[0; 1]; [1; 0]]%R
           (Grid.mk 2 (Some [[0; 1]; [1; 0]]%R) [2%nat] [false] "L2")).
  - reflexivity.
  - lia.
  - now exists 0%R, [], [[1%R]].
  - reflexivity.
Defined.

(** A grid as constructed, or with its separations cached, yields the
    separations of the grid as constructed. *)
Lemma same_grid_separations (signature : list Z) (metric : string)
  (g0 g : Grid.t) :
  Grid.init signature metric = Ok g0 ->
  same_grid g0 g ->
  exists (sep : matrix) (g' : Grid.t),
    Grid._calculate_separations g0 = Ok sep /\
    Grid.separations g = Ok (sep, g') /\
    Grid._size g = Grid._size g0.
Proof.
  intros Hinit Hsame.
  destruct (GridFacts.init_wf _ _ Hinit) as [Hwf Hnone].
  destruct (GridFacts.calculate_separations_entry Hwf) as [sep [Hcalc _]].
  pose proof (GridClaims.separations_fresh _ Hnone Hcalc) as Hfresh.
  exists sep. destruct Hsame as [->|[S HS]].
  - eexists. split; [assumption|]. split; [eassumption | reflexivity].
  - rewrite Hfresh in HS. injection HS as <- <-.
    eexists. split; [assumption|]. split; [|reflexivity].
    eapply FitSim.separations_again. eassumption.
Qed.

(** C7.  [fit] is deterministic: two runs with the same seed, the same
    data and the same hyperparameters, on maps of the same geometry, end
    the same way (both return, or both raise the same exception) with the
    same prototype matrix, and when they return with the same loss
    history, one entry per epoch; in both training modes.  The runs may
    start in different stores, with different earlier attributes of the
    instance and different contents of uninitialised memory. *)
Theorem fit_deterministic `{RandomStateOps} (signature : list Z)
  (metric : string) (g0 : Grid.t) (w1 w2 : World R) (dl1 dl2 : loc)
  (D : nat) (X : matrix) (maxiter : Z) (iterfrac eta : R) (seed : Z)
  (somz : bool) :
  Grid.init signature metric = Ok g0 ->
  same_grid g0 (_mapgeom (self w1)) ->
  same_grid g0 (_mapgeom (self w2)) ->
  nth_error (heap w1) dl1 = Some (Arr2 D X) ->
  nth_error (heap w2) dl2 = Some (Arr2 D X) ->
  (0 <= maxiter)%Z ->
  (somz = true -> has_first_entry X) ->
  let run1 := Fit.fit dl1 maxiter iterfrac eta "random" seed somz w1 in
  let run2 := Fit.fit dl2 maxiter iterfrac eta "random" seed somz w2 in
  snd run1 = snd run2 /\
  (exists W : nat * matrix,
      weights_of (fst run1) = Some W /\ weights_of (fst run2) = Some W) /\
  (snd run1 = Ok tt ->
   exists L : list R,
     loss_of (fst run1) = Some L /\ loss_of (fst run2) = Some L /\
     length L = Z.to_nat maxiter).
Proof.
  intros Hinit Hg1 Hg2 Hd1 Hd2 Hmax Hfirst run1 run2.
  destruct (same_grid_separations _ _ _ _ Hinit Hg1)
    as (sep & g1' & Hcalc & Hsep1 & Hsize1).
  destruct (same_grid_separations _ _ _ _ Hinit Hg2)
    as (sep' & g2' & Hcalc' & Hsep2 & Hsize2).
  assert (sep' = sep) by congruence. subst sep'.
  destruct (fit_follows w1 dl1 maxiter iterfrac eta seed somz D X sep g1'
              Hd1 Hmax Hfirst Hsep1) as [Hres1 Hholds1].
  destruct (fit_follows w2 dl2 maxiter iterfrac eta seed somz D X sep g2'
              Hd2 Hmax Hfirst Hsep2) as [Hres2 Hholds2].
  fold run1 in Hres1, Hholds1. fold run2 in Hres2, Hholds2.
  rewrite Hsize1 in Hres1, Hholds1. rewrite Hsize2 in Hres2, Hholds2.
  set (out := FitSpec.fit sep X maxiter iterfrac eta seed somz D
                (Grid._size g0)) in *.
  split; [congruence|]. split.
  - eexists. split; eapply weights_of_holds; eassumption.
  - intros Hok. rewrite Hres1 in Hok.
    rewrite (loss_of_holds _ _ _ Hholds1), (loss_of_holds _ _ _ Hholds2).
    assert (Hout : out = (fst out, Ok tt))
      by (rewrite <- Hok; now destruct out).
    unfold out, FitSpec.fit in Hout.
    apply train_writes_all in Hout;
      [|simpl; now rewrite repeat_length].
    destruct Hout as [Hlen Hfilled].
    fold (FitSpec.fit sep X maxiter iterfrac eta seed somz D
            (Grid._size g0)) in Hlen, Hfilled.
    fold out in Hlen, Hfilled.
    eexists. split; [reflexivity|]. split.
    + f_equal. apply resolve_filled. now rewrite Hlen.
    + now rewrite length_map.
Qed.

Lemma fit_deterministic_witness :
  let run1 :=
    Fit.fit 0%nat 3 (1 / 2) (1 / 2) "random" 123 false fit_example_world1 in
  let run2 :=
    Fit.fit 2%nat 3 (1 / 2) (1 / 2) "random" 123 false fit_example_world2 in
  snd run1 = snd run2 /\
  (exists W : nat * matrix,
      weights_of (fst run1) = Some W /\ weights_of (fst run2) = Some W) /\
  (snd run1 = Ok tt ->
   exists L : list R,
     loss_of (fst run1) = Some L /\ loss_of (fst run2) = Some L /\
     length L = Z.to_nat 3).
Proof.
  apply (fit_deterministic [2%Z] "L1"
           (Grid.mk 2 None [2%nat] [false] "L1") fit_example_world1
           fit_example_world2 0%nat 2%nat 1 [[0]; [1]]%R 3 (1 / 2)%R (1 / 2)%R
           123 false).
  - reflexivity.
  - now left.
  - now left.
  - reflexivity.
  - reflexivity.
  - lia.
  - discriminate.
Defined.

End FitClaims.

(** ** The prototype update of one sample *)

Lemma nth_error_zip_with (X Y V : Type) (f : X -> Y -> V) (l1 : list X)
  (l2 : list Y) (i : nat) (x : X) (y : Y) :
  nth_error l1 i = Some x -> nth_error l2 i = Some y ->
  nth_error (zip_with f l1 l2) i = Some (f x y).
Proof.
  revert l2 i; induction l1 as [|a l1 IH]; intros [|b l2] [|i] H1 H2;
    simpl in *; try discriminate.
  - now injection H1 as ->; injection H2 as ->.
  - now apply IH.
Qed.

(** Entry [(k, j)] of the prototype matrix after [weights += coef * dx],
    with [dx] the difference between the sample and each prototype. *)
Lemma update_entry (coef x : list R) (W : matrix) (k j : nat) (xk v c : R) :
  nth_error x k = Some xk ->
  mat_get W k j = Some v ->
  nth_error coef j = Some c ->
  mat_get (add2 W (scale_rows coef (sub_columns x W))) k j =
  Some (v + c * (xk - v))%R.
Proof.
  unfold mat_get, add2, scale_rows, sub_columns. intros Hx Hv Hc.
  destruct (nth_error W k) as [row|] eqn:Hrow; [|discriminate].
  erewrite nth_error_zip_with; [|eassumption|].
  2:{ erewrite map_nth_error; [reflexivity|].
      eapply nth_error_zip_with; eassumption. }
  eapply nth_error_zip_with; [eassumption|].
  eapply nth_error_zip_with; [eassumption|].
  now apply map_nth_error.
Qed.

Module UpdateRule.
Import FitSpec Examples.

(** The index [np.argmin] returns lies within the array. *)
Lemma argmin_bound (l : list R) (best : nat) :
  argmin l = Ok best -> (best < length l)%nat.
Proof.
  destruct l as [|x l]; [discriminate|]. intros Hbest.
  destruct (argmin_spec 0%R x l) as [j [Hj [_ [Hlt _]]]].
  rewrite Hbest in Hj. now injection Hj as ->.
Qed.

(** The reference step of SOMz mode, when the best matching unit is
    [best] and [row] holds its separations. *)
Lemma somz_sample_step_run (sep : matrix) (alpha sigma : R) (x : list R)
  (loss : R) (st : Train) (best : nat) (row : list R) :
  argmin (sum_axis0 (t_m st) (square2 (sub_columns x (t_weights st)))) =
    Ok best ->
  nth_error sep best = Some row ->
  exists loss' : R,
    somz_sample_step sep (Some alpha) sigma x loss st =
    (mkTrain (t_m st)
       (add2 (t_weights st)
          (scale_rows
             (map (Rmult alpha)
                (map (fun s => exp (- (s ^ 2) / sigma ^ 2)) row))
             (sub_columns x (t_weights st))))
       (t_loss st) (t_trace st ++ [(alpha, sigma)]),
     Ok loss').
Proof.
  intros Hbest Hrow.
  pose proof (argmin_bound _ _ Hbest) as Hlt.
  rewrite <- (length_map sqrt) in Hlt.
  destruct (nth_error
              (map sqrt
                 (sum_axis0 (t_m st)
                    (square2 (sub_columns x (t_weights st))))) best)
    as [l|] eqn:Hl; [|apply nth_error_None in Hl; lia].
  exists (loss + l)%R.
  unfold somz_sample_step, bind, read_weights, lift, ret, getitem.
  rewrite Hbest, Hrow, Hl. reflexivity.
Qed.

(** The reference step of the default mode, likewise. *)
Lemma somviz_sample_step_run (sep : matrix) (learn_rate gauss_width : R)
  (x : list R) (loss : R) (st : Train) (bmu : nat) (dz : list R) :
  argmin (sum_axis0 (t_m st) (square2 (sub_columns x (t_weights st)))) =
    Ok bmu ->
  nth_error sep bmu = Some dz ->
  exists loss' : R,
    somviz_sample_step sep (Some learn_rate) gauss_width x loss st =
    (mkTrain (t_m st)
       (add2 (t_weights st)
          (scale_rows
             (map (fun z =>
                     learn_rate * exp (-0.5 * (z / gauss_width) ^ 2))%R
                dz)
             (sub_columns x (t_weights st))))
       (t_loss st) (t_trace st ++ [(learn_rate, gauss_width)]),
     Ok loss').
Proof.
  intros Hbmu Hdz.
  pose proof (argmin_bound _ _ Hbmu) as Hlt.
  destruct (nth_error (sum_axis0 (t_m st)
                         (square2 (sub_columns x (t_weights st)))) bmu)
    as [d|] eqn:Hd; [|apply nth_error_None in Hd; lia].
  exists (loss + sqrt d)%R.
  unfold somviz_sample_step, bind, read_weights, lift, ret, getitem.
  rewrite Hbmu, Hdz, Hd. reflexivity.
Qed.

(** What a sample step of SOMz mode does to the store: every entry of the
    prototype matrix moves towards the sample by [alpha] times the kernel
    [exp(-(d / sigma)^2)] of the separation [d] of its node from the best
    matching unit. *)
Lemma somz_sample_step_entries (lay : Layout) (st : Train) (w : World R)
  (alpha sigma : R) (x : list R) (loss : R) (best : nat)
  (row : list R) :
  holds lay st w ->
  sigma <> 0%R ->
  argmin (sum_axis0 (t_m st) (square2 (sub_columns x (t_weights st)))) =
    Ok best ->
  nth_error (l_sep lay) best = Some row ->
  let run := Fit.somz_sample_step (Some alpha) sigma x loss w in
  exists (loss' : R) (W' : matrix),
    snd run = Ok loss' /\
    weights_of (fst run) = Some (t_m st, W') /\
    forall (k j : nat) (xk v d : R),
      nth_error x k = Some xk ->
      mat_get (t_weights st) k j = Some v ->
      nth_error row j = Some d ->
      mat_get W' k j =
      Some (v + alpha * exp (- (d / sigma) ^ 2) * (xk - v))%R.
Proof.
  intros Hholds Hsigma Hbest Hrow run.
  destruct (FitSim.sim_somz_sample_step lay (Some alpha) sigma x
              loss st w Hholds) as [Hres Hrep].
  destruct (somz_sample_step_run (l_sep lay) alpha sigma x loss st best
              row Hbest Hrow) as [loss' Hrun].
  fold run in Hres, Hrep. rewrite Hrun in Hres, Hrep.
  cbn [fst snd] in Hres, Hrep.
  exists loss'. eexists. split; [assumption|].
  split; [exact (FitClaims.weights_of_holds _ _ _ Hrep)|].
  intros k j xk v d Hx Hv Hd. cbn [t_weights].
  erewrite update_entry; [|eassumption|eassumption|].
  2:{ erewrite map_nth_error; [reflexivity|].
      erewrite map_nth_error; [reflexivity | eassumption]. }
  f_equal. f_equal. f_equal. f_equal. f_equal. field. assumption.
Qed.

Lemma somviz_sample_step_entries (lay : Layout) (st : Train)
  (w : World R) (learn_rate gauss_width : R) (x : list R) (loss : R)
  (bmu : nat) (dz : list R) :
  holds lay st w ->
  argmin (sum_axis0 (t_m st) (square2 (sub_columns x (t_weights st)))) =
    Ok bmu ->
  nth_error (l_sep lay) bmu = Some dz ->
  let run :=
    Fit.somviz_sample_step (Some learn_rate) gauss_width x loss w in
  exists (loss' : R) (W' : matrix),
    snd run = Ok loss' /\
    weights_of (fst run) = Some (t_m st, W') /\
    forall (k j : nat) (xk v d : R),
      nth_error x k = Some xk ->
      mat_get (t_weights st) k j = Some v ->
      nth_error dz j = Some d ->
      mat_get W' k j =
      Some (v + learn_rate * exp (-0.5 * (d / gauss_width) ^ 2)
                * (xk - v))%R.
Proof.
  intros Hholds Hbmu Hdz run.
  destruct (FitSim.sim_somviz_sample_step lay (Some learn_rate)
              gauss_width x loss st w Hholds) as [Hres Hrep].
  destruct (somviz_sample_step_run (l_sep lay) learn_rate gauss_width x
              loss st bmu dz Hbmu Hdz) as [loss' Hrun].
  fold run in Hres, Hrep. rewrite Hrun in Hres, Hrep.
  cbn [fst snd] in Hres, Hrep.
  exists loss'. eexists. split; [assumption|].
  split; [exact (FitClaims.weights_of_holds _ _ _ Hrep)|].
  intros k j xk v d Hx Hv Hd. cbn [t_weights].
  erewrite update_entry; [reflexivity|eassumption|eassumption|].
  exact (map_nth_error
           (fun z => learn_rate * exp (-0.5 * (z / gauss_width) ^ 2))%R
           j dz Hd).
Qed.

Lemma example_holds :
  holds update_example_layout update_example_state update_example_world.
Proof.
  unfold holds; simpl.
  repeat split; try reflexivity; try discriminate.
  eexists. reflexivity.
Defined.

Lemma example_best :
  argmin (sum_axis0 (t_m update_example_state)
            (square2 (sub_columns [1%R] (t_weights update_example_state)))) =
  Ok 0%nat.
Proof.
  unfold argmin, sum_axis0; simpl. unfold Rltb.
  destruct (Rlt_dec _ _) as [Hlt|_]; [lra | reflexivity].
Defined.

(** C3 (amended).  In SOMz mode the update of one sample increments every
    prototype by [alpha * exp(-(d / sigma)^2) * difference], where [d] is
    the map-space separation of the node from the best matching unit and
    [difference] the data-space difference between the sample and the
    prototype: the Gaussian rule of the default mode with [alpha] and
    [sigma] for [learn_rate] and [gauss_width], without the factor 0.5
    in the exponent. *)
Theorem somz_update_rule (lay : Layout) (st : Train) (w : World R)
  (alpha sigma : R) (x : list R) (loss : R) (best : nat)
  (row : list R) :
  holds lay st w ->
  sigma <> 0%R ->
  argmin (sum_axis0 (t_m st) (square2 (sub_columns x (t_weights st)))) =
    Ok best ->
  nth_error (l_sep lay) best = Some row ->
  let run := Fit.somz_sample_step (Some alpha) sigma x loss w in
  exists (loss' : R) (W' : matrix),
    snd run = Ok loss' /\
    weights_of (fst run) = Some (t_m st, W') /\
    forall (k j : nat) (xk v d : R),
      nth_error x k = Some xk ->
      mat_get (t_weights st) k j = Some v ->
      nth_error row j = Some d ->
      mat_get W' k j =
      Some (v + alpha * exp (- (d / sigma) ^ 2) * (xk - v))%R.
Proof.
  intros Hholds Hsigma Hbest Hrow.
  exact (somz_sample_step_entries lay st w alpha sigma x loss best row
           Hholds Hsigma Hbest Hrow).
Qed.

Lemma somz_update_rule_witness :
  let run :=
    Fit.somz_sample_step (Some 0.8%R) 1%R [1%R] 0%R update_example_world in
  exists (loss' : R) (W' : matrix),
    snd run = Ok loss' /\
    weights_of (fst run) = Some (2%nat, W') /\
    forall (k j : nat) (xk v d : R),
      nth_error [1%R] k = Some xk ->
      mat_get [[0; 0]]%R k j = Some v ->
      nth_error [0; 1]%R j = Some d ->
      mat_get W' k j = Some (v + 0.8 * exp (- (d / 1) ^ 2) * (xk - v))%R.
Proof.
  apply (somz_update_rule update_example_layout update_example_state
           update_example_world
           0.8%R 1%R [1%R] 0%R 0%nat [0; 1]%R).
  - exact example_holds.
  - lra.
  - exact example_best.
  - reflexivity.
Defined.

(** C3 as stated fails: on the map of two nodes, after the sample 1 with
    [alpha = 0.8] and [sigma = 1], the prototype of the node at
    separation 1 from the best matching unit is not the value the rule
    with the factor 0.5 gives, and not the one the step of the default
    mode produces. *)
Lemma somz_update_is_not_the_default_rule :
  let run :=
    Fit.somz_sample_step (Some 0.8%R) 1%R [1%R] 0%R update_example_world in
  let run' :=
    Fit.somviz_sample_step (Some 0.8%R) 1%R [1%R] 0%R
      update_example_world in
  exists W' : matrix,
    weights_of (fst run) = Some (2%nat, W') /\
    mat_get W' 0 1 <>
      Some (0 + 0.8 * exp (-0.5 * (1 / 1) ^ 2) * (1 - 0))%R /\
    weights_of (fst run) <> weights_of (fst run').
Proof.
  intros run run'.
  destruct (somz_sample_step_entries update_example_layout
              update_example_state
              update_example_world 0.8%R 1%R [1%R] 0%R 0%nat [0; 1]%R
              example_holds ltac:(lra) example_best eq_refl)
    as (l & W' & _ & HW & Hentries).
  destruct (somviz_sample_step_entries update_example_layout
              update_example_state
              update_example_world 0.8%R 1%R [1%R] 0%R 0%nat [0; 1]%R
              example_holds example_best eq_refl)
    as (l2 & W2 & _ & HW2 & Hentries2).
  fold run in HW. fold run' in HW2.
  specialize (Hentries 0%nat 1%nat 1%R 0%R 1%R eq_refl eq_refl eq_refl).
  specialize (Hentries2 0%nat 1%nat 1%R 0%R 1%R eq_refl eq_refl eq_refl).
  assert (Hne : mat_get W' 0 1 <>
                Some (0 + 0.8 * exp (-0.5 * (1 / 1) ^ 2) * (1 - 0))%R).
  { rewrite Hentries.
    set (a := exp (- (1 / 1) ^ 2)). set (b := exp (-0.5 * (1 / 1) ^ 2)).
    intros [= Heq].
    assert (Hexp : a = b) by lra.
    apply exp_inv in Hexp. lra. }
  exists W'. split; [assumption|]. split; [assumption|].
  rewrite HW, HW2. intros [= HWW]. subst W2.
  apply Hne. now rewrite <- Hentries2.
Qed.

End UpdateRule.
(** ** Properties of the separations *)

Module GridAxesFacts.
Import Grid GridSpec GridFacts GridAxes.

Lemma entry_combine (g : t) (i j : nat) (wraps : list bool) :
  (i < prod (_shape g))%nat -> (j < prod (_shape g))%nat ->
  forall (acc : Z) (k : nat),
    (k + length wraps <= length (_shape g))%nat ->
    entry g acc k wraps (i * prod (_shape g) + j) =
    combine_axes (_metric g) (axis_separations (_shape g) k wraps i j) acc.
Proof.
  intros Hi Hj. induction wraps as [|wrapk rest IH]; intros acc k Hk.
  - reflexivity.
  - simpl in Hk. cbn [entry axis_separations]. unfold combine_axes.
    cbn [fold_left]. rewrite IH by lia.
    rewrite axis_entry_at by (assumption || lia). reflexivity.
Qed.

Lemma length_reshape2 (X : Type) (n m : nat) (flat : list X) :
  length (reshape2 n m flat) = n.
Proof. unfold reshape2. now rewrite length_map, length_seq. Qed.

Lemma reshape2_rows (X : Type) (n m : nat) (flat : list X) :
  length flat = (n * m)%nat ->
  Forall (fun row => length row = m) (reshape2 n m flat).
Proof.
  intros Hlen. unfold reshape2. apply Forall_forall. intros row Hin.
  apply in_map_iff in Hin as [i [<- Hi]]. apply in_seq in Hi.
  rewrite length_firstn, length_skipn. nia.
Qed.

(** The matrix a grid built by [Grid] computes on its first access. *)
Lemma init_separations (signature : list Z) (metric : string) (g : t) :
  init signature metric = Ok g ->
  _shape g = map Z.abs_nat signature /\
  _wrap g = map (fun k => (k <? 0)%Z) signature /\
  _metric g = metric /\
  _size g = prod (_shape g) /\
  valid_metric metric = true /\
  exists (S : list (list R)) (g' : t),
    separations g = Ok (S, g') /\
    length S = _size g /\
    Forall (fun row => length row = _size g) S /\
    forall i j : nat, (i < _size g)%nat -> (j < _size g)%nat ->
      mat_get S i j =
      Some (finish metric
              (combine_axes metric
                 (axis_separations (_shape g) 0 (_wrap g) i j) 0)).
Proof.
  intros Hinit. destruct (init_wf _ _ Hinit) as [[Hsize Hlen] Hnone].
  unfold init in Hinit.
  destruct (valid_metric metric) eqn:Hvalid; [|discriminate].
  simpl in Hinit. injection Hinit as <-.
  cbn [_shape _wrap _metric _size] in *.
  repeat (split; [reflexivity|]).
  set (g := mk _ _ _ _ _) in *.
  unfold separations. cbn [_separations g].
  unfold _calculate_separations.
  rewrite (repeat_as_map 0%Z _ 0).
  rewrite loop_axes_entry by (cbn; lia).
  cbn [rbind]. eexists; eexists; split; [reflexivity|].
  cbn [_size _shape _metric _wrap g].
  set (shape := map Z.abs_nat signature) in *.
  split; [apply length_reshape2|].
  split.
  { apply reshape2_rows.
    destruct (metric =? "L2")%string;
      now rewrite !length_map, length_seq, prod_app. }
  intros i j Hi Hj.
  assert (Hm : forall f : Z -> R,
             mat_get (reshape2 (prod shape) (prod shape)
               (map f (map (fun p => entry g 0 0
                    (map (fun k => (k <? 0)%Z) signature) p)
                  (seq 0 (prod (shape ++ shape)))))) i j =
             Some (f (entry g 0 0 (map (fun k => (k <? 0)%Z) signature)
                        (i * prod shape + j)))).
  { intros f. rewrite map_map, prod_app, mat_get_reshape2.
    apply Nat.ltb_lt in Hi, Hj. now rewrite Hi, Hj. }
  unfold finish.
  destruct (metric =? "L2")%string; rewrite Hm;
    rewrite (entry_combine g) by (assumption || (cbn; lia)); reflexivity.
Qed.

Lemma valid_metric_cases (metric : string) :
  valid_metric metric = true ->
  metric = "L0"%string \/ metric = "L1"%string \/ metric = "L2"%string.
Proof.
  unfold valid_metric. intros Hv.
  apply orb_true_iff in Hv as [Hv|Hv];
    [apply orb_true_iff in Hv as [Hv|Hv]|];
    apply String.eqb_eq in Hv; auto.
Qed.

(** ** Separations along the axes *)

Lemma axis_separations_nonneg (shape : list nat) (i j : nat)
  (wraps : list bool) :
  (i < prod shape)%nat -> (j < prod shape)%nat ->
  forall k : nat,
    (k + length wraps <= length shape)%nat ->
    Forall (fun d => (0 <= d)%Z) (axis_separations shape k wraps i j).
Proof.
  intros Hi Hj. induction wraps as [|wrapk rest IH]; intros k Hk;
    cbn [axis_separations]; constructor.
  - simpl in Hk. assert (Hlt : (k < length shape)%nat) by lia.
    pose proof (nth_error_nth' shape 0%nat Hlt) as Hnk.
    apply dxk_nonneg; now apply unravel_bound.
  - apply IH. simpl in Hk. lia.
Qed.

Lemma dxk_zero (nk : nat) (wrapk : bool) (a b : nat) :
  (a < nk)%nat -> (b < nk)%nat -> dxk nk wrapk a b = 0%Z -> a = b.
Proof.
  intros Ha Hb. unfold dxk.
  destruct (wrapk && _); lia.
Qed.


Lemma dxk_wrap_le (nk : nat) (wrapk : bool) (a b : nat) :
  (a < nk)%nat -> (b < nk)%nat ->
  (dxk nk wrapk a b <= dxk nk false a b)%Z.
Proof.
  intros Ha Hb. destruct wrapk; [|lia].
  rewrite dxk_wrap_min by assumption. unfold dxk; simpl. lia.
Qed.

(** Nodes with the same coordinates are the same node. *)
Lemma unravel_inj (shape : list nat) :
  forall i j : nat,
    (i < prod shape)%nat -> (j < prod shape)%nat ->
    (forall k, (k < length shape)%nat ->
       nth k (unravel shape i) 0%nat = nth k (unravel shape j) 0%nat) ->
    i = j.
Proof.
  induction shape as [|n rest IH]; intros i j Hi Hj Heq.
  - simpl in Hi, Hj. lia.
  - cbn [prod fold_right] in Hi, Hj. fold (prod rest) in Hi, Hj.
    assert (Hpos : prod rest <> 0%nat) by nia.
    pose proof (Heq 0%nat ltac:(simpl; lia)) as H0. cbn in H0.
    fold (prod rest) in H0.
    assert (Hmod : (i mod prod rest = j mod prod rest)%nat).
    { apply IH; try (apply Nat.mod_upper_bound; assumption).
      intros k Hk. apply (Heq (S k)). simpl. lia. }
    rewrite (Nat.div_mod_eq i (prod rest)), (Nat.div_mod_eq j (prod rest)).
    now rewrite H0, Hmod.
Qed.

Lemma axis_separations_zero (shape : list nat) (i j : nat)
  (wraps : list bool) :
  (i < prod shape)%nat -> (j < prod shape)%nat ->
  forall k : nat,
    (k + length wraps <= length shape)%nat ->
    Forall (fun d => d = 0%Z) (axis_separations shape k wraps i j) ->
    forall k', (k <= k' < k + length wraps)%nat ->
      nth k' (unravel shape i) 0%nat = nth k' (unravel shape j) 0%nat.
Proof.
  intros Hi Hj. induction wraps as [|wrapk rest IH]; intros k Hk Hz k' Hk'.
  - simpl in Hk'. lia.
  - cbn [axis_separations] in Hz. inversion Hz as [|d ds Hd Hds]; subst.
    simpl in Hk, Hk'.
    destruct (Nat.eq_dec k' k) as [->|Hne].
    + assert (Hlt : (k < length shape)%nat) by lia.
      pose proof (nth_error_nth' shape 0%nat Hlt) as Hnk.
      eapply dxk_zero; [| |exact Hd]; now apply unravel_bound.
    + apply (IH (S k)); [lia | assumption | lia].
Qed.

(** ** Accumulating over the axes *)

Lemma combine_axes_nonneg (metric : string) (ds : list Z) :
  Forall (fun d => (0 <= d)%Z) ds ->
  forall acc : Z, (0 <= acc)%Z -> (0 <= combine_axes metric ds acc)%Z.
Proof.
  unfold combine_axes.
  induction 1 as [|d ds Hd _ IH]; intros acc Hacc; cbn [fold_left].
  - assumption.
  - apply IH. now apply accumulate_nonneg.
Qed.

Lemma combine_axes_ge (metric : string) (ds : list Z) :
  Forall (fun d => (0 <= d)%Z) ds ->
  forall acc : Z, (acc <= combine_axes metric ds acc)%Z.
Proof.
  unfold combine_axes.
  induction 1 as [|d ds Hd _ IH]; intros acc; cbn [fold_left].
  - lia.
  - etransitivity; [|apply IH].
    unfold accumulate.
    destruct (metric =? "L2")%string; [nia|].
    destruct (metric =? "L1")%string; [lia|].
    destruct (metric =? "L0")%string; lia.
Qed.

Lemma combine_axes_zero (metric : string) (ds : list Z) :
  valid_metric metric = true ->
  Forall (fun d => (0 <= d)%Z) ds ->
  forall acc : Z,
    (0 <= acc)%Z -> combine_axes metric ds acc = 0%Z ->
    Forall (fun d => d = 0%Z) ds.
Proof.
  intros Hv. induction 1 as [|d ds Hd Hds IH]; intros acc Hacc Hz.
  - constructor.
  - unfold combine_axes in Hz. cbn [fold_left] in Hz.
    fold (combine_axes metric ds (accumulate metric acc d)) in Hz.
    pose proof (combine_axes_ge metric ds Hds (accumulate metric acc d))
      as Hge.
    pose proof (accumulate_nonneg metric Hacc Hd) as Hnn.
    assert (Ha : accumulate metric acc d = 0%Z) by lia.
    constructor.
    + destruct (valid_metric_cases _ Hv) as [-> | [-> | ->]];
        cbv [accumulate String.eqb Ascii.eqb Bool.eqb] in Ha; nia.
    + apply (IH (accumulate metric acc d)); assumption.
Qed.

Lemma finish_ge_1 (metric : string) (z : Z) :
  (1 <= z)%Z -> (1 <= finish metric z)%R.
Proof.
  intros Hz. unfold finish. destruct (metric =? "L2")%string.
  - rewrite <- sqrt_1 at 1. apply sqrt_le_1_alt. now apply IZR_le.
  - now apply IZR_le.
Qed.

(** ** The triangle inequality *)





(** ** The three metrics compared *)

Lemma combine_axes_ordered (ds : list Z) :
  Forall (fun d => (0 <= d)%Z) ds ->
  forall m s2 s1 : Z,
    (0 <= m)%Z -> (0 <= s1)%Z -> (m * m <= s2)%Z -> (s2 <= s1 * s1)%Z ->
    let m' := combine_axes "L0" ds m in
    let s2' := combine_axes "L2" ds s2 in
    let s1' := combine_axes "L1" ds s1 in
    (0 <= m')%Z /\ (0 <= s1')%Z /\ (m' * m' <= s2')%Z /\
    (s2' <= s1' * s1')%Z.
Proof.
  unfold combine_axes.
  induction 1 as [|d ds Hd _ IH]; intros m s2 s1 Hm Hs1 H1 H2;
    cbn [fold_left].
  - auto.
  - apply IH; cbv [accumulate String.eqb Ascii.eqb Bool.eqb]; nia.
Qed.

(** ** Wrapping *)

Lemma accumulate_mono (metric : string) (a b d e : Z) :
  (0 <= d)%Z -> (a <= b)%Z -> (d <= e)%Z ->
  (accumulate metric a d <= accumulate metric b e)%Z.
Proof.
  intros Hd Hab Hde. unfold accumulate.
  destruct (metric =? "L2")%string; [nia|].
  destruct (metric =? "L1")%string; [lia|].
  destruct (metric =? "L0")%string; lia.
Qed.

Lemma axis_separations_unwrapped (metric : string) (shape : list nat)
  (i j : nat) (wraps : list bool) :
  (i < prod shape)%nat -> (j < prod shape)%nat ->
  forall (k : nat) (a b : Z),
    (k + length wraps <= length shape)%nat ->
    (a <= b)%Z ->
    (combine_axes metric (axis_separations shape k wraps i j) a <=
     combine_axes metric
       (axis_separations shape k (map (fun _ => false) wraps) i j) b)%Z.
Proof.
  intros Hi Hj.
  induction wraps as [|wrapk rest IH]; intros k a b Hk Hab.
  - exact Hab.
  - simpl in Hk. cbn [axis_separations map]. unfold combine_axes.
    cbn [fold_left]. apply IH; [lia|].
    assert (Hlt : (k < length shape)%nat) by lia.
    pose proof (nth_error_nth' shape 0%nat Hlt) as Hnk.
    apply accumulate_mono; [| assumption |];
      [apply dxk_nonneg | apply dxk_wrap_le]; now apply unravel_bound.
Qed.

Lemma finish_mono (metric : string) (a b : Z) :
  (a <= b)%Z -> (finish metric a <= finish metric b)%R.
Proof.
  intros Hab. unfold finish. destruct (metric =? "L2")%string.
  - apply sqrt_le_1_alt. now apply IZR_le.
  - now apply IZR_le.
Qed.

Lemma axis_separations_diag (shape : list nat) (i : nat)
  (wraps : list bool) :
  forall k : nat,
    Forall (fun d => d = 0%Z) (axis_separations shape k wraps i i).
Proof.
  induction wraps as [|wrapk rest IH]; intros k; cbn [axis_separations];
    constructor; [apply dxk_diag | apply IH].
Qed.

Lemma combine_axes_all_zero (metric : string) (ds : list Z) :
  Forall (fun d => d = 0%Z) ds -> combine_axes metric ds 0 = 0%Z.
Proof.
  unfold combine_axes. induction 1 as [|d ds -> _ IH]; cbn [fold_left].
  - reflexivity.
  - replace (accumulate metric 0 0) with 0%Z; [exact IH|].
    unfold accumulate.
    destruct (metric =? "L2")%string; [reflexivity|].
    destruct (metric =? "L1")%string; [reflexivity|].
    destruct (metric =? "L0")%string; reflexivity.
Qed.

Lemma finish_0 (metric : string) : finish metric 0 = 0%R.
Proof.
  unfold finish. destruct (metric =? "L2")%string;
    [apply sqrt_0 | reflexivity].
Qed.

(** The geometry of a map, as constructed or after an access to its
    separations, yields the matrix of the grid: square, with a zero
    diagonal. *)
Lemma grid_separations (signature : list Z) (metric : string)
  (g0 g : t) :
  init signature metric = Ok g0 ->
  same_grid g0 g ->
  exists (S : list (list R)) (g' : t),
    separations g = Ok (S, g') /\
    _size g = _size g0 /\
    length S = _size g0 /\
    Forall (fun row => length row = _size g0) S /\
    forall i : nat, (i < _size g0)%nat -> mat_get S i i = Some 0%R.
Proof.
  intros Hinit Hsame.
  destruct (init_separations _ _ _ Hinit)
    as (_ & _ & _ & _ & _ & S & g0' & Hsep & Hlen & Hrows & Hget).
  assert (Hdiag : forall i, (i < _size g0)%nat ->
             mat_get S i i = Some 0%R).
  { intros i Hi. rewrite Hget by assumption.
    rewrite combine_axes_all_zero by apply axis_separations_diag.
    now rewrite finish_0. }
  destruct Hsame as [-> | [S1 HS1]].
  - exists S, g0'. auto.
  - rewrite Hsep in HS1. injection HS1 as <- <-.
    exists S, g0'. split; [eapply FitSim.separations_again; eassumption|].
    split; [|auto].
    unfold separations in Hsep.
    destruct (_separations g0); [now injection Hsep as _ <-|].
    destruct (_calculate_separations g0); [|discriminate].
    now injection Hsep as _ <-.
Qed.
End GridAxesFacts.

Module GridExtras.
Import Grid GridSpec GridFacts GridAxes GridAxesFacts.

(** X1.  [MapGeometry.separations] evaluates lazily and once: an access
    that returned the matrix [S] leaves a geometry on which every later
    access returns [S] again without changing anything, and it changes
    no attribute but the cache. *)
Theorem separations_cached (g g' : t) (S : list (list R)) :
  separations g = Ok (S, g') ->
  separations g' = Ok (S, g') /\
  _separations g' = Some S /\
  _size g' = _size g /\ _shape g' = _shape g /\
  _wrap g' = _wrap g /\ _metric g' = _metric g.
Proof.
  unfold separations. destruct (_separations g) as [s|] eqn:Hs.
  - intros [= <- <-]. rewrite Hs. repeat split.
  - destruct (_calculate_separations g) as [s|e]; [|discriminate].
    cbn [rbind]. intros [= <- <-]. repeat split.
Qed.

Lemma separations_cached_witness :
  let g := mk 2 None [2%nat] [false] "L1" in
  let S := [[0; 1]; [1; 0]]%R in
  let g' := mk 2 (Some S) [2%nat] [false] "L1" in
  separations g' = Ok (S, g') /\
  _separations g' = Some S /\
  _size g' = _size g /\ _shape g' = _shape g /\
  _wrap g' = _wrap g /\ _metric g' = _metric g.
Proof.
  intros g S g'. apply (separations_cached g g' S). reflexivity.
Defined.

(** X2.  The separations of a grid form a square matrix with one row and
    one column for every node: [size] rows of [size] entries, where
    [size] is the product of the absolute values of the signature. *)
Theorem separations_shape (signature : list Z) (metric : string) (g : t) :
  init signature metric = Ok g ->
  _size g = prod (map Z.abs_nat signature) /\
  exists (S : list (list R)) (g' : t),
    separations g = Ok (S, g') /\
    length S = _size g /\
    Forall (fun row => length row = _size g) S.
Proof.
  intros Hinit.
  destruct (init_separations _ _ _ Hinit)
    as (Hshape & _ & _ & Hsize & _ & S & g' & Hsep & Hlen & Hrows & _).
  split; [now rewrite Hsize, Hshape|].
  exists S, g'. auto.
Qed.

Lemma separations_shape_witness :
  let g := mk 6 None [2; 3]%nat [false; true] "L2" in
  _size g = prod (map Z.abs_nat [2; -3]%Z) /\
  exists (S : list (list R)) (g' : t),
    separations g = Ok (S, g') /\
    length S = _size g /\
    Forall (fun row => length row = _size g) S.
Proof.
  intros g. apply (separations_shape [2; -3]%Z "L2" g). reflexivity.
Defined.

(** X3.  Two different nodes of a grid are at least 1 apart, in every
    metric and with or without wrapping: only the diagonal of the
    separations is zero. *)
Theorem separations_distinct_nodes (signature : list Z) (metric : string)
  (g : t) :
  init signature metric = Ok g ->
  exists (S : list (list R)) (g' : t),
    separations g = Ok (S, g') /\
    forall i j : nat,
      (i < _size g)%nat -> (j < _size g)%nat -> i <> j ->
      exists x : R, mat_get S i j = Some x /\ (1 <= x)%R.
Proof.
  intros Hinit.
  destruct (init_separations _ _ _ Hinit)
    as (Hshape & Hwrap & _ & Hsize & Hv & S & g' & Hsep & _ & _ & Hget).
  exists S, g'. split; [assumption|].
  intros i j Hi Hj Hne. eexists; split; [now apply Hget|].
  rewrite Hsize in Hi, Hj.
  assert (Hlen : length (_wrap g) = length (_shape g))
    by now rewrite Hwrap, Hshape, !length_map.
  pose proof (axis_separations_nonneg (_shape g) i j (_wrap g) Hi Hj 0
                ltac:(simpl; lia)) as Hnn.
  pose proof (combine_axes_nonneg metric _ Hnn 0%Z ltac:(lia)) as Hc.
  apply finish_ge_1.
  destruct (Z.eq_dec
              (combine_axes metric
                 (axis_separations (_shape g) 0 (_wrap g) i j) 0) 0)
    as [Hz|Hz]; [|lia].
  exfalso. apply Hne.
  apply (unravel_inj (_shape g)); try assumption.
  intros k Hk.
  apply (axis_separations_zero (_shape g) i j (_wrap g) Hi Hj 0
           ltac:(simpl; lia)); [|lia].
  apply (combine_axes_zero metric _ Hv Hnn 0%Z); [lia | assumption].
Qed.

Lemma separations_distinct_nodes_witness :
  exists (S : list (list R)) (g' : t),
    separations (mk 6 None [2; 3]%nat [false; true] "L2") = Ok (S, g') /\
    forall i j : nat,
      (i < 6)%nat -> (j < 6)%nat -> i <> j ->
      exists x : R, mat_get S i j = Some x /\ (1 <= x)%R.
Proof.
  apply (separations_distinct_nodes [2; -3]%Z "L2"). reflexivity.
Defined.



(** X5.  On the same signature the three metrics are ordered: for every
    pair of nodes the L0 separation (the largest step along an axis) is
    at most the L2 separation, which is at most the L1 separation (the
    sum of the steps). *)
Theorem separations_metrics_ordered (signature : list Z)
  (g0 g1 g2 : t) :
  init signature "L0" = Ok g0 ->
  init signature "L1" = Ok g1 ->
  init signature "L2" = Ok g2 ->
  exists (S0 S1 S2 : list (list R)) (g0' g1' g2' : t),
    separations g0 = Ok (S0, g0') /\
    separations g1 = Ok (S1, g1') /\
    separations g2 = Ok (S2, g2') /\
    forall i j : nat,
      (i < prod (map Z.abs_nat signature))%nat ->
      (j < prod (map Z.abs_nat signature))%nat ->
      exists x0 x1 x2 : R,
        mat_get S0 i j = Some x0 /\ mat_get S1 i j = Some x1 /\
        mat_get S2 i j = Some x2 /\ (x0 <= x2 <= x1)%R.
Proof.
  intros H0 H1 H2.
  destruct (init_separations _ _ _ H0)
    as (Hshape0 & Hwrap0 & _ & Hsize0 & _ & S0 & g0' & Hsep0 & _ & _ & Hget0).
  destruct (init_separations _ _ _ H1)
    as (Hshape1 & Hwrap1 & _ & Hsize1 & _ & S1 & g1' & Hsep1 & _ & _ & Hget1).
  destruct (init_separations _ _ _ H2)
    as (Hshape2 & Hwrap2 & _ & Hsize2 & _ & S2 & g2' & Hsep2 & _ & _ & Hget2).
  exists S0, S1, S2, g0', g1', g2'. repeat (split; [assumption|]).
  rewrite Hshape0 in Hsize0. rewrite Hshape1 in Hsize1.
  rewrite Hshape2 in Hsize2.
  intros i j Hi Hj. do 3 eexists.
  split; [apply Hget0; now rewrite Hsize0|].
  split; [apply Hget1; now rewrite Hsize1|].
  split; [apply Hget2; now rewrite Hsize2|].
  rewrite Hshape0, Hwrap0, Hshape1, Hwrap1, Hshape2, Hwrap2.
  set (shape := map Z.abs_nat signature) in *.
  set (wraps := map (fun k => (k <? 0)%Z) signature).
  assert (Hnn : Forall (fun d => (0 <= d)%Z)
                  (axis_separations shape 0 wraps i j)).
  { apply axis_separations_nonneg; try assumption.
    subst shape wraps. rewrite !length_map. simpl; lia. }
  destruct (combine_axes_ordered _ Hnn 0 0 0
              ltac:(lia) ltac:(lia) ltac:(lia) ltac:(lia))
    as (Hm & Hs1 & Hms & Hss).
  cbv zeta in Hm, Hs1, Hms, Hss.
  set (m := combine_axes "L0" _ 0) in *.
  set (s1 := combine_axes "L1" _ 0) in *.
  set (s2 := combine_axes "L2" _ 0) in *.
  cbv [finish String.eqb Ascii.eqb Bool.eqb].
  split.
  - rewrite <- (sqrt_square (IZR m)) by now apply IZR_le.
    apply sqrt_le_1_alt. rewrite <- mult_IZR. now apply IZR_le.
  - rewrite <- (sqrt_square (IZR s1)) by now apply IZR_le.
    apply sqrt_le_1_alt. rewrite <- mult_IZR. now apply IZR_le.
Qed.

Lemma separations_metrics_ordered_witness :
  exists (S0 S1 S2 : list (list R)) (g0' g1' g2' : t),
    separations (mk 6 None [2; 3]%nat [false; true] "L0") = Ok (S0, g0') /\
    separations (mk 6 None [2; 3]%nat [false; true] "L1") = Ok (S1, g1') /\
    separations (mk 6 None [2; 3]%nat [false; true] "L2") = Ok (S2, g2') /\
    forall i j : nat,
      (i < prod (map Z.abs_nat [2; -3]%Z))%nat ->
      (j < prod (map Z.abs_nat [2; -3]%Z))%nat ->
      exists x0 x1 x2 : R,
        mat_get S0 i j = Some x0 /\ mat_get S1 i j = Some x1 /\
        mat_get S2 i j = Some x2 /\ (x0 <= x2 <= x1)%R.
Proof.
  apply (separations_metrics_ordered [2; -3]%Z); reflexivity.
Defined.

(** X6.  Wrapping an axis never lengthens a separation: every entry of
    the matrix of a grid is at most the entry of the grid of the same
    shape without wrapping. *)
Theorem separations_wrap_shortens (signature : list Z) (metric : string)
  (g gu : t) :
  init signature metric = Ok g ->
  init (map Z.abs signature) metric = Ok gu ->
  exists (S Su : list (list R)) (g' gu' : t),
    separations g = Ok (S, g') /\
    separations gu = Ok (Su, gu') /\
    _size gu = _size g /\
    forall i j : nat,
      (i < _size g)%nat -> (j < _size g)%nat ->
      exists x xu : R,
        mat_get S i j = Some x /\ mat_get Su i j = Some xu /\
        (x <= xu)%R.
Proof.
  intros Hg Hgu.
  destruct (init_separations _ _ _ Hg)
    as (Hshape & Hwrap & _ & Hsize & _ & S & g' & Hsep & _ & _ & Hget).
  destruct (init_separations _ _ _ Hgu)
    as (Hshapeu & Hwrapu & _ & Hsizeu & _ & Su & gu' & Hsepu & _ & _
        & Hgetu).
  assert (Hsame : _shape gu = _shape g).
  { rewrite Hshape, Hshapeu, map_map. apply map_ext. intros k. lia. }
  assert (Hflags : _wrap gu = map (fun _ => false) (_wrap g)).
  { rewrite Hwrap, Hwrapu, !map_map. apply map_ext. intros k.
    apply Z.ltb_ge. lia. }
  assert (Hs : _size gu = _size g) by now rewrite Hsize, Hsizeu, Hsame.
  exists S, Su, g', gu'. repeat (split; [assumption|]).
  intros i j Hi Hj. do 2 eexists.
  split; [now apply Hget|]. split; [apply Hgetu; now rewrite Hs|].
  rewrite Hsame, Hflags. apply finish_mono.
  rewrite Hsize in Hi, Hj.
  apply axis_separations_unwrapped; try assumption; [|lia].
  rewrite Hwrap, Hshape, !length_map. simpl; lia.
Qed.

Lemma separations_wrap_shortens_witness :
  exists (S Su : list (list R)) (g' gu' : t),
    separations (mk 6 None [2; 3]%nat [false; true] "L2") = Ok (S, g') /\
    separations (mk 6 None [2; 3]%nat [false; false] "L2") =
      Ok (Su, gu') /\
    6%nat = 6%nat /\
    forall i j : nat,
      (i < 6)%nat -> (j < 6)%nat ->
      exists x xu : R,
        mat_get S i j = Some x /\ mat_get Su i j = Some xu /\
        (x <= xu)%R.
Proof.
  apply (separations_wrap_shortens [2; -3]%Z "L2"); reflexivity.
Defined.

(** X7.  On a two-dimensional grid without wrapping the nodes are
    numbered row by row, node [(a, b)] being [a * n2 + b], and the
    separation of [(a, b)] and [(c, d)] is the larger of [|a-c|] and
    [|b-d|] for L0, their sum for L1, and the Euclidean distance for
    L2. *)
Theorem separations_grid2d (n1 n2 : nat) (metric : string) (g : t) :
  init [Z.of_nat n1; Z.of_nat n2] metric = Ok g ->
  exists (S : list (list R)) (g' : t),
    separations g = Ok (S, g') /\
    forall a b c d : nat,
      (a < n1)%nat -> (b < n2)%nat -> (c < n1)%nat -> (d < n2)%nat ->
      let dr := Z.abs (Z.of_nat a - Z.of_nat c) in
      let dc := Z.abs (Z.of_nat b - Z.of_nat d) in
      mat_get S (a * n2 + b) (c * n2 + d) =
      Some (if (metric =? "L2")%string then sqrt (IZR (dr ^ 2 + dc ^ 2))
            else if (metric =? "L1")%string then IZR (dr + dc)
            else IZR (Z.max dr dc)).
Proof.
  intros Hinit.
  destruct (init_separations _ _ _ Hinit)
    as (Hshape & Hwrap & _ & Hsize & Hv & S & g' & Hsep & _ & _ & Hget).
  exists S, g'. split; [assumption|].
  intros a b c d Ha Hb Hc Hd dr dc.
  cbn [map] in Hshape, Hwrap. rewrite !Zabs2Nat.id in Hshape.
  assert (Hn1 : (Z.of_nat n1 <? 0)%Z = false) by (apply Z.ltb_ge; lia).
  assert (Hn2 : (Z.of_nat n2 <? 0)%Z = false) by (apply Z.ltb_ge; lia).
  rewrite Hn1, Hn2 in Hwrap.
  rewrite Hshape in Hsize. cbn [prod fold_right] in Hsize.
  rewrite Hget by nia.
  rewrite Hshape, Hwrap. cbn [axis_separations unravel prod fold_right nth].
  rewrite !Nat.mul_1_r, !Nat.div_1_r.
  assert (Hdiv : forall x y, (y < n2)%nat ->
             ((x * n2 + y) / n2 = x /\ (x * n2 + y) mod n2 = y)%nat).
  { intros x y Hy. split.
    - rewrite Nat.div_add_l by lia. rewrite Nat.div_small by assumption.
      lia.
    - rewrite Nat.add_comm, Nat.Div0.mod_add. now apply Nat.mod_small. }
  destruct (Hdiv a b Hb) as [-> ->]. destruct (Hdiv c d Hd) as [-> ->].
  unfold dxk. cbn [andb]. fold dr dc.
  destruct (valid_metric_cases _ Hv) as [-> | [-> | ->]];
    cbv [combine_axes fold_left accumulate finish String.eqb Ascii.eqb
           Bool.eqb];
    do 2 f_equal; lia.
Qed.

Lemma separations_grid2d_witness :
  exists (S : list (list R)) (g' : t),
    separations (mk 12 None [3; 4]%nat [false; false] "L2") =
      Ok (S, g') /\
    forall a b c d : nat,
      (a < 3)%nat -> (b < 4)%nat -> (c < 3)%nat -> (d < 4)%nat ->
      let dr := Z.abs (Z.of_nat a - Z.of_nat c) in
      let dc := Z.abs (Z.of_nat b - Z.of_nat d) in
      mat_get S (a * 4 + b) (c * 4 + d) =
      Some (sqrt (IZR (dr ^ 2 + dc ^ 2))).
Proof.
  apply (separations_grid2d 3 4 "L2"). reflexivity.
Defined.
End GridExtras.

(** ** The search at its edges *)

Module FindBmuEdgeFacts.
Section Facts.
Context {A : Type} `{DType A}.
Import SelfOrganizingMap FindBmuSpec FindBmuRun.

Lemma load2_run (w : World A) (l : loc) (m : nat) (rows : list (list A)) :
  nth_error (heap w) l = Some (Arr2 m rows) ->
  load2 l w = (w, Ok (m, rows)).
Proof.
  intros Hl. unfold load2.
  erewrite bind_run by (apply load_run, Hl). reflexivity.
Qed.

Lemma shape2_run (w : World A) (l : loc) (m : nat) (rows : list (list A)) :
  nth_error (heap w) l = Some (Arr2 m rows) ->
  shape2 l w = (w, Ok (length rows, m)).
Proof.
  intros Hl. unfold shape2.
  erewrite bind_run by (apply load2_run, Hl). reflexivity.
Qed.

Lemma self_weights_run (w : World A) (wl : loc) :
  _weights (self w) = Some wl -> self_weights w = (w, Ok wl).
Proof.
  intros Hwl. unfold self_weights, bind, get_self. now rewrite Hwl.
Qed.

Lemma bind_raise (X Y : Type) (c : M A X) (k : X -> M A Y)
  (w w' : World A) (e : exn) :
  c w = (w', Raise e) -> bind c k w = (w', Raise e).
Proof.
  intros Hc. unfold bind. now rewrite Hc.
Qed.

(** The search up to the loop: the three arrays are allocated. *)
Lemma find_bmu_prologue (w : World A) (data : loc) (batchsize : Z)
  (N D W : nat) (rows weights : list (list A)) :
  bmu_inputs w data N D W rows weights ->
  (0 < batchsize)%Z ->
  find_bmu data batchsize w =
  bind (for_each (range ((Z.of_nat N + batchsize - 1) / batchsize))
          (find_bmu_batch data batchsize N (length (heap w))
             (length (heap w) + 1) (length (heap w) + 2)))
       (fun _ => ret (length (heap w)))
       (set_heap
          (locals (heap w) (repeat (junk_int w) N) D W
             (repeat (repeat (repeat (junk w) W) D)
                (Z.to_nat (Z.min (Z.of_nat N) batchsize)))
             (repeat (repeat (junk w) W)
                (Z.to_nat (Z.min (Z.of_nat N) batchsize))))
          w).
Proof.
  intros (Hdata & [Hrows Hcols] & wl & Hself & Hwl & [HD Hweights]) Hb.
  unfold find_bmu.
  erewrite bind_run by (apply shape2_run, Hdata). cbv beta iota.
  erewrite bind_run by (apply self_weights_run, Hself).
  erewrite bind_run by (apply shape2_run, Hwl). cbv beta iota.
  rewrite Hrows, HD, Nat.eqb_refl.
  erewrite bind_run by reflexivity.
  erewrite bind_run by reflexivity.
  unfold floordiv. destruct (Z.eqb_spec batchsize 0) as [|_]; [lia|].
  erewrite bind_run by reflexivity.
  unfold np_empty3, np_empty2.
  destruct (Z.ltb_spec (Z.min (Z.of_nat N) batchsize) 0) as [|_]; [lia|].
  erewrite bind_run by reflexivity.
  erewrite bind_run by reflexivity.
  cbn [heap set_heap self junk junk_int trace].
  rewrite !length_app, <- !app_assoc. cbn [length app].
  rewrite <- (Nat.add_assoc (length (heap w)) 1 1). cbn [Nat.add].
  reflexivity.
Qed.

Lemma sum_axis0_no_columns (a : list (list A)) : sum_axis0 0 a = [].
Proof.
  unfold sum_axis0. cbn [repeat].
  induction a as [|row a IH]; [reflexivity|]. cbn [fold_left zip_with].
  exact IH.
Qed.
End Facts.
End FindBmuEdgeFacts.

Module FindBmuExtras.
Import SelfOrganizingMap FindBmuSpec FindBmuRun FindBmuEdgeFacts Examples.

(** X8.  [find_bmu] checks its inputs before it allocates anything: on a
    map that was never fitted it raises AttributeError, on data whose
    number of features differs from that of the prototypes it raises
    AssertionError, and on data that is not two-dimensional it raises
    ValueError.  In each case the store is left as it was. *)
Theorem find_bmu_rejects {A : Type} `{DType A} (w : World A) (data : loc)
  (batchsize : Z) :
  (forall (D : nat) (rows : list (list A)),
      nth_error (heap w) data = Some (Arr2 D rows) ->
      _weights (self w) = None ->
      find_bmu data batchsize w = (w, Raise AttributeError)) /\
  (forall (D W : nat) (rows weights : list (list A)) (wl : loc),
      nth_error (heap w) data = Some (Arr2 D rows) ->
      _weights (self w) = Some wl ->
      nth_error (heap w) wl = Some (Arr2 W weights) ->
      length weights <> D ->
      find_bmu data batchsize w = (w, Raise AssertionError)) /\
  (forall v : list A,
      nth_error (heap w) data = Some (Arr1 v) ->
      find_bmu data batchsize w = (w, Raise ValueError)).
Proof.
  split; [|split].
  - intros D rows Hdata Hnone. unfold find_bmu.
    erewrite bind_run by (apply shape2_run, Hdata). cbv beta iota.
    unfold self_weights, bind, get_self. now rewrite Hnone.
  - intros D W rows weights wl Hdata Hself Hwl Hne. unfold find_bmu.
    erewrite bind_run by (apply shape2_run, Hdata). cbv beta iota.
    erewrite bind_run by (apply self_weights_run, Hself).
    erewrite bind_run by (apply shape2_run, Hwl). cbv beta iota.
    apply Nat.eqb_neq in Hne. rewrite Nat.eqb_sym, Hne. reflexivity.
  - intros v Hdata. unfold find_bmu, shape2, load2, bind, load.
    now rewrite Hdata.
Qed.

Lemma find_bmu_rejects_witness :
  let w0 : World Z :=
    mkWorld [Arr2 2 [[0; 0]; [5; 5]]%Z; Arr2 3 [[0; 5; 9]]%Z; Arr1 [1%Z]]
      (mkSOM (Grid.mk 3 None [3%nat] [false] "L2") None None None)
      0%Z 0%Z [] in
  let w1 : World Z :=
    mkWorld (heap w0)
      (mkSOM (Grid.mk 3 None [3%nat] [false] "L2") (Some 1%nat) None None)
      0%Z 0%Z [] in
  find_bmu 0%nat 1024 w0 = (w0, Raise AttributeError) /\
  find_bmu 0%nat 1024 w1 = (w1, Raise AssertionError) /\
  find_bmu 2%nat 1024 w1 = (w1, Raise ValueError).
Proof.
  intros w0 w1.
  destruct (find_bmu_rejects w0 0%nat 1024) as (Hattr & _ & _).
  destruct (find_bmu_rejects w1 0%nat 1024) as (_ & Hassert & _).
  destruct (find_bmu_rejects w1 2%nat 1024) as (_ & _ & Hvalue).
  split; [|split].
  - apply (Hattr 2%nat [[0; 0]; [5; 5]]%Z); reflexivity.
  - apply (Hassert 2%nat 3%nat [[0; 0]; [5; 5]]%Z [[0; 5; 9]]%Z 1%nat);
      try reflexivity. simpl. lia.
  - apply (Hvalue [1%Z]). reflexivity.
Defined.

(** X9.  The batch size has to be positive: with [batchsize = 0] the
    search raises ZeroDivisionError, with a negative batch size it raises
    ValueError, whatever the data and the prototypes. *)
Theorem find_bmu_batchsize_errors {A : Type} `{DType A} (w : World A)
  (data : loc) (batchsize : Z) (N D W : nat)
  (rows weights : list (list A)) :
  bmu_inputs w data N D W rows weights ->
  (batchsize <= 0)%Z ->
  snd (find_bmu data batchsize w) =
  Raise (if (batchsize =? 0)%Z then ZeroDivisionError else ValueError).
Proof.
  intros (Hdata & [Hrows Hcols] & wl & Hself & Hwl & [HD Hweights]) Hb.
  unfold find_bmu.
  erewrite bind_run by (apply shape2_run, Hdata). cbv beta iota.
  erewrite bind_run by (apply self_weights_run, Hself).
  erewrite bind_run by (apply shape2_run, Hwl). cbv beta iota.
  rewrite Hrows, HD, Nat.eqb_refl.
  erewrite bind_run by reflexivity.
  erewrite bind_run by reflexivity.
  unfold floordiv. destruct (Z.eqb_spec batchsize 0) as [|Hne].
  - reflexivity.
  - erewrite bind_run by reflexivity.
    unfold np_empty3.
    destruct (Z.ltb_spec (Z.min (Z.of_nat N) batchsize) 0) as [_|]; [|lia].
    reflexivity.
Qed.

Lemma find_bmu_batchsize_errors_witness :
  snd (find_bmu 0%nat 0 bmu_example_world) = Raise ZeroDivisionError /\
  snd (find_bmu 0%nat (-4) bmu_example_world) = Raise ValueError.
Proof.
  split.
  - apply (find_bmu_batchsize_errors bmu_example_world 0%nat 0 5 2 3
             [[0; 0]; [5; 5]; [9; 1]; [2; 2]; [5; 4]]%Z
             [[0; 5; 9]; [0; 5; 0]]%Z);
      [apply FindBmuClaims.bmu_example_world_inputs | lia].
  - apply (find_bmu_batchsize_errors bmu_example_world 0%nat (-4) 5 2 3
             [[0; 0]; [5; 5]; [9; 1]; [2; 2]; [5; 4]]%Z
             [[0; 5; 9]; [0; 5; 0]]%Z);
      [apply FindBmuClaims.bmu_example_world_inputs | lia].
Defined.

(** X10.  On data without samples the search runs no batch and returns
    an empty vector, for every positive batch size, even on a map
    without prototypes. *)
Theorem find_bmu_no_samples {A : Type} `{DType A} (w : World A)
  (data : loc) (batchsize : Z) (D W : nat) (weights : list (list A)) :
  bmu_inputs w data 0 D W [] weights ->
  (0 < batchsize)%Z ->
  returned_vector (find_bmu data batchsize w) = Some [].
Proof.
  intros Hin Hb.
  rewrite (find_bmu_prologue w data batchsize 0 D W [] weights Hin Hb).
  change (Z.of_nat 0) with 0%Z.
  replace ((0 + batchsize - 1) / batchsize)%Z with 0%Z
    by (symmetry; apply Z.div_small; lia).
  cbn [range Z.to_nat seq map for_each]. unfold bind, ret.
  apply FindBmuClaims.returned_vector_locals.
Qed.

Lemma find_bmu_no_samples_witness :
  returned_vector
    (find_bmu 0%nat 1024
       (mkWorld [Arr2 2 []; Arr2 0 [[]; []]]
          (mkSOM (Grid.mk 0 None [0%nat] [false] "L2") (Some 1%nat) None
             None)
          0%Z 0%Z [])) = Some [].
Proof.
  apply (find_bmu_no_samples _ 0%nat 1024 2 0 [[]; []]); [|lia].
  split; [reflexivity|]. split; [split; [reflexivity | constructor]|].
  exists 1%nat. split; [reflexivity|]. split; [reflexivity|].
  split; [reflexivity | repeat constructor].
Defined.

(** X11.  On a map without prototypes the search has no minimum to take:
    with at least one sample it raises ValueError. *)
Theorem find_bmu_no_prototypes {A : Type} `{DType A} (w : World A)
  (data : loc) (batchsize : Z) (N D : nat)
  (rows weights : list (list A)) :
  bmu_inputs w data N D 0 rows weights ->
  (0 < N)%nat -> (0 < batchsize)%Z ->
  snd (find_bmu data batchsize w) = Raise ValueError.
Proof.
  intros Hin HN Hb.
  rewrite (find_bmu_prologue w data batchsize N D 0 rows weights Hin Hb).
  destruct Hin as (Hdata & [Hrows Hcols] & wl & Hself & Hwl & [HD Hweights]).
  set (q := ((Z.of_nat N + batchsize - 1) / batchsize)%Z).
  assert (Hq : (1 <= q)%Z).
  { subst q. apply Z.div_le_lower_bound; lia. }
  unfold range. destruct (Z.to_nat q) as [|q'] eqn:Eq; [lia|].
  cbn [seq map for_each].
  set (n := Z.to_nat (Z.min (Z.of_nat N) batchsize)).
  assert (Hn : (0 < n)%nat) by (subst n; lia).
  match goal with
  | |- snd (bind (bind ?c _) _ _) = _ =>
      assert (Hbatch : exists w'',
                 c (set_heap
                      (locals (heap w) (repeat (junk_int w) N) D 0
                         (repeat (repeat (repeat (junk w) 0) D) n)
                         (repeat (repeat (junk w) 0) n)) w) =
                 (w'', Raise ValueError))
  end.
  { unfold find_bmu_batch.
    change (Z.of_nat 0 * batchsize)%Z with 0%Z.
    replace (Z.to_nat (Z.min (0 + batchsize) (Z.of_nat N) - 0)) with n
      by (subst n; lia).
    change (Z.to_nat 0) with 0%nat. cbn [skipn].
    erewrite bind_run by (apply load2_old, Hdata). cbv beta iota.
    erewrite bind_run by apply load3_buf. cbv beta iota.
    unfold assign_first. rewrite repeat_length, Nat.leb_refl.
    erewrite bind_run by reflexivity.
    erewrite bind_run by apply store_buf.
    erewrite bind_run by (apply self_weights_locals, Hself).
    erewrite bind_run by (apply load2_old, Hwl). cbv beta iota.
    erewrite bind_run by apply load3_buf. cbv beta iota.
    erewrite bind_run by apply store_buf.
    erewrite bind_run by apply load3_buf. cbv beta iota.
    erewrite bind_run by apply store_buf.
    erewrite bind_run by apply load3_buf. cbv beta iota.
    erewrite bind_run by apply load2_distsq. cbv beta iota.
    erewrite bind_run by apply store_distsq.
    erewrite bind_run by apply load2_distsq. cbv beta iota.
    set (planes' := power2 _).
    assert (Hlen : (0 < length planes')%nat).
    { subst planes'. unfold power2, sub_broadcast, newaxis_broadcast.
      rewrite !length_map, length_app, length_map, length_firstn.
      rewrite Hrows. lia. }
    destruct planes' as [|p planes']; [simpl in Hlen; lia|].
    destruct n as [|n']; [lia|].
    cbn [sum_axis1 map firstn argmin_axis1].
    rewrite sum_axis0_no_columns. cbn [argmin rbind].
    eexists. reflexivity. }
  destruct Hbatch as [w'' Hrun].
  erewrite bind_raise; [reflexivity|].
  erewrite bind_raise; [reflexivity|]. exact Hrun.
Qed.

Lemma find_bmu_no_prototypes_witness :
  snd (find_bmu 0%nat 1024
         (mkWorld [Arr2 2 [[1; 2]]%Z; Arr2 0 [[]; []]]
            (mkSOM (Grid.mk 0 None [0%nat] [false] "L2") (Some 1%nat)
               None None)
            0%Z 0%Z [])) = Raise ValueError.
Proof.
  apply (find_bmu_no_prototypes _ 0%nat 1024 1 2 [[1; 2]]%Z [[]; []]);
    [|lia|lia].
  split; [reflexivity|].
  split; [split; [reflexivity | repeat constructor]|].
  exists 1%nat. split; [reflexivity|]. split; [reflexivity|].
  split; [reflexivity | repeat constructor].
Defined.


End FindBmuExtras.

(** ** Training at its edges *)

Lemma list_set_at (X : Type) (l1 l2 : list X) (x y : X) :
  list_set (length l1) x (l1 ++ y :: l2) = l1 ++ x :: l2.
Proof.
  induction l1 as [|z l1 IH]; simpl; [reflexivity | now rewrite IH].
Qed.

Module FitEdgeFacts.
Section FitEdgeFacts.
Context `{RandomStateOps}.
Import FitSpec.

Lemma py_pow_returns (x y : R) :
  (0 <= y)%R -> exists p : option R, py_pow x y = Ok p.
Proof.
  intros Hy. unfold py_pow.
  destruct (Req_dec_T y 0); [eauto|].
  destruct (Rlt_dec 0 x); [eauto|].
  destruct (Req_dec_T x 0).
  - destruct (Rlt_dec 0 y); [eauto | lra].
  - destruct (Req_dec_T (IZR (Zfloor y)) y); eauto.
Qed.

Lemma list_set_written (X : Type) (x y : X) (k cnt : nat) :
  list_set k x (repeat x k ++ repeat y (S cnt)) =
  repeat x (S k) ++ repeat y cnt.
Proof.
  pose proof (list_set_at X (repeat x k) (repeat y cnt) x y) as E.
  rewrite repeat_length in E. cbn [repeat]. rewrite E.
  rewrite repeat_cons, <- app_assoc. reflexivity.
Qed.

(** An epoch of the default mode on an empty batch writes a loss of zero
    and updates nothing. *)
Lemma somviz_epoch_empty (sep X : matrix) (eta large_scale : R)
  (maxiter : Z) (N : nat) (i : Z) (rng : rng_state) (st : Train) :
  (0 <= i < maxiter)%Z ->
  (Z.to_nat i < length (t_loss st))%nat ->
  fst (rng_choice rng N 0) = Ok [] ->
  somviz_epoch sep X eta large_scale maxiter N 0 i rng st =
  (mkTrain (t_m st) (t_weights st)
     (list_set (Z.to_nat i) (Some 0%R) (t_loss st)) (t_trace st),
   Ok (snd (rng_choice rng N 0))).
Proof.
  intros Hi Hlen Hchoice. unfold somviz_epoch, py_truediv.
  destruct (Z.eqb_spec maxiter 0) as [|_]; [lia|].
  assert (Hr : (0 <= IZR i / IZR maxiter)%R).
  { apply Rmult_le_pos; [apply IZR_le; lia|].
    apply Rlt_le, Rinv_0_lt_compat, IZR_lt. lia. }
  destruct (py_pow_returns eta _ Hr) as [p Hp].
  unfold bind at 1. unfold lift at 1. cbv beta iota.
  unfold bind at 1. rewrite Hp. unfold lift at 1. cbv beta iota.
  unfold bind at 1. unfold lift at 1. cbv beta iota.
  destruct (rng_choice rng N 0) as [idx rng'].
  cbn [fst snd] in *. subst idx.
  unfold bind, lift, ret, setitem_loss. cbn [take_rows for_fold ret].
  apply Nat.ltb_lt in Hlen. now rewrite Hlen.
Qed.

Lemma zero_batch_epochs (sep X : matrix) (eta large_scale : R)
  (maxiter : Z) (N : nat) (m : nat) (W : matrix) (tr : list (R * R)) :
  (forall rng, fst (rng_choice rng N 0) = Ok []) ->
  forall (cnt k : nat) (rng : rng_state),
    (k + cnt)%nat = Z.to_nat maxiter ->
    exists rng' : rng_state,
      for_fold (map Z.of_nat (seq k cnt))
        (somviz_epoch sep X eta large_scale maxiter N 0) rng
        (mkTrain m W (repeat (Some 0%R) k ++ repeat None cnt) tr) =
      (mkTrain m W (repeat (Some 0%R) (Z.to_nat maxiter)) tr, Ok rng').
Proof.
  intros Hchoice. induction cnt as [|cnt IH]; intros k rng Hk.
  - exists rng. simpl. rewrite app_nil_r, Nat.add_0_r in *. now subst.
  - cbn [seq map for_fold]. unfold bind at 1.
    rewrite somviz_epoch_empty; [| lia | | apply Hchoice].
    2:{ cbn [t_loss]. rewrite length_app, !repeat_length, Nat2Z.id.
        lia. }
    cbn [t_m t_weights t_loss t_trace].
    rewrite Nat2Z.id, list_set_written. apply IH. lia.
Qed.

(** Training in the default mode with batches of size zero. *)
Lemma train_zero_batch (sep X : matrix) (maxiter : Z) (eta : R) (N : nat)
  (rng : rng_state) (m : nat) (W : matrix) (tr : list (R * R)) :
  (0 <= maxiter)%Z ->
  (forall rng, fst (rng_choice rng N 0) = Ok []) ->
  train sep X maxiter eta false N 0 rng
    (mkTrain m W (repeat None (Z.to_nat maxiter)) tr) =
  (mkTrain m W (repeat (Some 0%R) (Z.to_nat maxiter)) tr, Ok tt).
Proof.
  intros Hmax Hchoice. unfold train, range.
  unfold bind at 1. unfold ret at 1. cbv beta iota.
  destruct (zero_batch_epochs sep X eta (np_mean sep) maxiter N m W tr
              Hchoice (Z.to_nat maxiter) 0 rng ltac:(lia))
    as [rng' Hrun].
  cbn [repeat app] in Hrun. unfold bind. now rewrite Hrun.
Qed.

(** Half a sample or less rounds to none. *)
Lemma py_round_small (x : R) :
  (-1 / 2 <= x <= 1 / 2)%R -> py_round x = 0%Z.
Proof.
  intros Hx. unfold py_round.
  destruct (Rlt_dec x 0) as [Hneg|Hpos].
  - assert (Hf : Zfloor x = (-1)%Z) by (apply Zfloor_eq; simpl; lra).
    rewrite Hf. simpl.
    destruct (Rlt_dec (x - -1) (1 / 2)); [lra|].
    destruct (Rlt_dec (1 / 2) (x - -1)); reflexivity.
  - assert (Hf : Zfloor x = 0%Z) by (apply Zfloor_eq; simpl; lra).
    rewrite Hf. simpl.
    destruct (Rlt_dec (x - 0) (1 / 2)); [reflexivity|].
    destruct (Rlt_dec (1 / 2) (x - 0)); [lra | reflexivity].
Qed.

Lemma Rltb_irrefl (x : R) : Rltb x x = false.
Proof. unfold Rltb. destruct (Rlt_dec x x); [lra | reflexivity]. Qed.

(** Training in SOMz mode on a map of at most one node. *)
Lemma train_somz_small (sep X : matrix) (maxiter : Z) (eta : R) (N : nat)
  (batch_size : Z) (rng : rng_state) (st : Train) :
  sep = [] \/ sep = [[0%R]] ->
  snd (train sep X maxiter eta true N batch_size rng st) =
  Raise ValueError.
Proof.
  intros [-> | ->]; unfold train, bind, ret, lift; cbn.
  - reflexivity.
  - unfold where_positive. cbn. rewrite Rltb_irrefl. reflexivity.
Qed.
End FitEdgeFacts.
End FitEdgeFacts.

Module FitExtras.
Import FitSpec FitRun FitFacts FitEdgeFacts GridAxesFacts Examples
  ExtraExamples.

(** X13.  In the default mode the update of one sample increments every
    prototype by
    [learn_rate * exp(-0.5 * (d / gauss_width)^2) * difference], where
    [d] is the map-space separation of the node from the best matching
    unit and [difference] the data-space difference between the sample
    and the prototype. *)
Theorem somviz_update_rule (lay : Layout) (st : Train) (w : World R)
  (learn_rate gauss_width : R) (x : list R) (loss : R) (bmu : nat)
  (dz : list R) :
  holds lay st w ->
  argmin (sum_axis0 (t_m st) (square2 (sub_columns x (t_weights st)))) =
    Ok bmu ->
  nth_error (l_sep lay) bmu = Some dz ->
  let run :=
    Fit.somviz_sample_step (Some learn_rate) gauss_width x loss w in
  exists (loss' : R) (W' : matrix),
    snd run = Ok loss' /\
    weights_of (fst run) = Some (t_m st, W') /\
    forall (k j : nat) (xk v d : R),
      nth_error x k = Some xk ->
      mat_get (t_weights st) k j = Some v ->
      nth_error dz j = Some d ->
      mat_get W' k j =
      Some (v + learn_rate * exp (-0.5 * (d / gauss_width) ^ 2)
                * (xk - v))%R.
Proof.
  intros Hholds Hbmu Hdz.
  exact (UpdateRule.somviz_sample_step_entries lay st w learn_rate
           gauss_width x loss bmu dz Hholds Hbmu Hdz).
Qed.

Lemma somviz_update_rule_witness :
  let run :=
    Fit.somviz_sample_step (Some 0.8%R) 1%R [1%R] 0%R
      update_example_world in
  exists (loss' : R) (W' : matrix),
    snd run = Ok loss' /\
    weights_of (fst run) = Some (2%nat, W') /\
    forall (k j : nat) (xk v d : R),
      nth_error [1%R] k = Some xk ->
      mat_get [[0; 0]]%R k j = Some v ->
      nth_error [0; 1]%R j = Some d ->
      mat_get W' k j =
      Some (v + 0.8 * exp (-0.5 * (d / 1) ^ 2) * (xk - v))%R.
Proof.
  apply (somviz_update_rule update_example_layout update_example_state
           update_example_world 0.8%R 1%R [1%R] 0%R 0%nat [0; 1]%R).
  - exact UpdateRule.example_holds.
  - exact UpdateRule.example_best.
  - reflexivity.
Defined.

Lemma step_example_holds :
  holds update_example_layout update_example_state step_example_world.
Proof.
  unfold holds; simpl.
  repeat split; try reflexivity; try discriminate.
  eexists. reflexivity.
Defined.

(** X14.  On a grid, the update of one sample moves the prototype of the
    best matching unit towards the sample by the learning rate, in both
    modes: it becomes [v + rate * (x - v)], since the unit is at
    separation 0 from itself.  With a rate of 1 it lands on the
    sample. *)
Theorem bmu_moves_by_rate (signature : list Z) (metric : string)
  (g0 : Grid.t) (lay : Layout) (st : Train) (w : World R)
  (rate width : R) (x : list R) (loss : R) (best : nat) :
  holds lay st w ->
  Grid.init signature metric = Ok g0 ->
  same_grid g0 (_mapgeom (self w)) ->
  width <> 0%R ->
  argmin (sum_axis0 (t_m st) (square2 (sub_columns x (t_weights st)))) =
    Ok best ->
  (best < Grid._size g0)%nat ->
  let moved (run : World R * result R) :=
    exists (loss' : R) (W' : matrix),
      snd run = Ok loss' /\
      weights_of (fst run) = Some (t_m st, W') /\
      forall (k : nat) (xk v : R),
        nth_error x k = Some xk ->
        mat_get (t_weights st) k best = Some v ->
        mat_get W' k best = Some (v + rate * (xk - v))%R in
  moved (Fit.somz_sample_step (Some rate) width x loss w) /\
  moved (Fit.somviz_sample_step (Some rate) width x loss w).
Proof.
  intros Hholds Hinit Hsame Hwidth Hbest Hlt moved.
  destruct (grid_separations _ _ _ _ Hinit Hsame)
    as (S & g' & Hsep & _ & Hlen & _ & Hdiag).
  assert (Hl : l_sep lay = S).
  { destruct Hholds as (_ & _ & _ & _ & _ & _ & _ & _ & _ & _ & g & Hg).
    rewrite Hsep in Hg. now injection Hg as ->. }
  specialize (Hdiag best Hlt). unfold mat_get in Hdiag.
  destruct (nth_error S best) as [row|] eqn:Hrow; [|discriminate].
  rewrite <- Hl in Hrow.
  assert (Hexp1 : exp (- (0 / width) ^ 2) = 1%R).
  { replace (- (0 / width) ^ 2)%R with 0%R by (field; assumption).
    apply exp_0. }
  assert (Hexp2 : exp (-0.5 * (0 / width) ^ 2) = 1%R).
  { replace (-0.5 * (0 / width) ^ 2)%R with 0%R by (field; assumption).
    apply exp_0. }
  split.
  - destruct (UpdateRule.somz_sample_step_entries lay st w rate width x
                loss best row Hholds Hwidth Hbest Hrow)
      as (loss' & W' & Hres & Hw & Hent).
    exists loss', W'. repeat (split; [assumption|]).
    intros k xk v Hx Hv. rewrite (Hent k best xk v 0%R Hx Hv Hdiag).
    rewrite Hexp1. f_equal. ring.
  - destruct (UpdateRule.somviz_sample_step_entries lay st w rate width x
                loss best row Hholds Hbest Hrow)
      as (loss' & W' & Hres & Hw & Hent).
    exists loss', W'. repeat (split; [assumption|]).
    intros k xk v Hx Hv. rewrite (Hent k best xk v 0%R Hx Hv Hdiag).
    rewrite Hexp2. f_equal. ring.
Qed.

Lemma bmu_moves_by_rate_witness :
  let moved (run : World R * result R) :=
    exists (loss' : R) (W' : matrix),
      snd run = Ok loss' /\
      weights_of (fst run) = Some (2%nat, W') /\
      forall (k : nat) (xk v : R),
        nth_error [1%R] k = Some xk ->
        mat_get [[0; 0]]%R k 0 = Some v ->
        mat_get W' k 0 = Some (v + 1 * (xk - v))%R in
  moved (Fit.somz_sample_step (Some 1%R) 2%R [1%R] 0%R
           step_example_world) /\
  moved (Fit.somviz_sample_step (Some 1%R) 2%R [1%R] 0%R
           step_example_world).
Proof.
  apply (bmu_moves_by_rate [2%Z] "L1"
           (Grid.mk 2 None [2%nat] [false] "L1")
           update_example_layout update_example_state step_example_world
           1%R 2%R [1%R] 0%R 0%nat).
  - exact step_example_holds.
  - reflexivity.
  - left. reflexivity.
  - lra.
  - exact UpdateRule.example_best.
  - simpl. lia.
Defined.

(** X15.  [fit] rejects bad arguments with ValueError: an [init] other
    than 'random', after it has stored the data and allocated the loss
    history but before it touches the prototypes, and a negative
    [maxiter], when it allocates the loss history.  In SOMz mode data
    without samples raises IndexError. *)
Theorem fit_rejects `{RandomStateOps} (w : World R) (dl : loc)
  (maxiter : Z) (iterfrac eta : R) (init : string) (seed : Z)
  (somz : bool) (D : nat) (X : matrix) :
  nth_error (heap w) dl = Some (Arr2 D X) ->
  let geom := _mapgeom (self w) in
  ((0 <= maxiter)%Z -> init <> "random"%string ->
   Fit.fit dl maxiter iterfrac eta init seed somz w =
   (mkWorld (heap w ++ [Arr1 (repeat (junk w) (Z.to_nat maxiter))])
      (mkSOM geom (_weights (self w)) (Some (length (heap w))) (Some dl))
      (junk w) (junk_int w) (trace w),
    Raise ValueError)) /\
  ((maxiter < 0)%Z ->
   Fit.fit dl maxiter iterfrac eta init seed somz w =
   (mkWorld (heap w)
      (mkSOM geom (_weights (self w)) (_loss (self w)) (Some dl))
      (junk w) (junk_int w) (trace w),
    Raise ValueError)) /\
  ((0 <= maxiter)%Z -> X = [] ->
   snd (Fit.fit dl maxiter iterfrac eta "random" seed true w) =
   Raise IndexError).
Proof.
  intros Hdata geom. subst geom.
  split; [|split].
  - intros Hmax Hinit. unfold Fit.fit.
    erewrite bind_run by reflexivity.
    erewrite bind_run by reflexivity.
    erewrite bind_run
      by (unfold shape2, load2, load, bind, ret; cbn; rewrite Hdata;
          reflexivity).
    cbv beta iota.
    erewrite bind_run
      by (unfold Fit.np_empty1;
          destruct (Z.ltb_spec maxiter 0) as [|_]; [lia|]; reflexivity).
    erewrite bind_run by reflexivity.
    apply String.eqb_neq in Hinit. rewrite Hinit. reflexivity.
  - intros Hmax. unfold Fit.fit.
    erewrite bind_run by reflexivity.
    erewrite bind_run by reflexivity.
    erewrite bind_run
      by (unfold shape2, load2, load, bind, ret; cbn; rewrite Hdata;
          reflexivity).
    cbv beta iota. unfold Fit.np_empty1.
    destruct (Z.ltb_spec maxiter 0) as [_|]; [|lia]. reflexivity.
  - intros Hmax ->. unfold Fit.fit.
    erewrite bind_run by reflexivity.
    erewrite bind_run by reflexivity.
    erewrite bind_run
      by (unfold shape2, load2, load, bind, ret; cbn; rewrite Hdata;
          reflexivity).
    cbv beta iota.
    erewrite bind_run
      by (unfold Fit.np_empty1;
          destruct (Z.ltb_spec maxiter 0) as [|_]; [lia|]; reflexivity).
    erewrite bind_run by reflexivity.
    cbn [String.eqb Ascii.eqb Bool.eqb].
    unfold bind at 1.
    match goal with
    | |- snd (match ?c with _ => _ end) = _ =>
        assert (Hiw : snd c = Raise IndexError)
    end.
    { unfold Fit.init_weights, Fit.mapgeom_size, Fit.self_data, load2,
        load, bind, get_self, ret, lift.
      cbn [fst snd heap self junk junk_int trace _weights _loss data
           _mapgeom set_heap].
      destruct (rng_rand _ _ _) as [u rng'].
      cbn [fst snd heap self junk junk_int trace _weights _loss data
           _mapgeom set_heap].
      rewrite (nth_error_old _ _ _ _ Hdata). reflexivity. }
    destruct (Fit.init_weights _ _ _ _) as [w1 [rng1|e]];
      cbn [snd] in Hiw |- *; [discriminate | now injection Hiw as ->].
Qed.

Lemma fit_rejects_witness :
  let w := fit_example_world in
  let geom := _mapgeom (self w) in
  Fit.fit 0%nat 3 (1 / 10) (1 / 2) "pca" 123 false w =
  (mkWorld (heap w ++ [Arr1 (repeat (junk w) (Z.to_nat 3))])
     (mkSOM geom (_weights (self w)) (Some (length (heap w)))
        (Some 0%nat))
     (junk w) (junk_int w) (trace w),
   Raise ValueError) /\
  Fit.fit 0%nat (-1) (1 / 10) (1 / 2) "random" 123 false w =
  (mkWorld (heap w)
     (mkSOM geom (_weights (self w)) (_loss (self w)) (Some 0%nat))
     (junk w) (junk_int w) (trace w),
   Raise ValueError).
Proof.
  intros w geom.
  destruct (fit_rejects w 0%nat 3 (1 / 10) (1 / 2) "pca" 123 false 1
              [[0]; [1]]%R eq_refl) as (Hinit & _ & _).
  destruct (fit_rejects w 0%nat (-1) (1 / 10) (1 / 2) "random" 123 false
              1 [[0]; [1]]%R eq_refl) as (_ & Hneg & _).
  split.
  - apply Hinit; [lia | discriminate].
  - apply Hneg. lia.
Defined.

(** X16.  When [iterfrac * N] is at most one half, as with the default
    [iterfrac = 0.1] on five samples or fewer, the batch size
    [round(iterfrac * N)] is zero and training in the default mode
    changes nothing: [fit] returns with the prototype matrix at its
    initial values and a loss of zero for every epoch, having applied no
    update.  (The generator is asked for batches of no index, and
    returns none.) *)
Theorem fit_zero_batch `{RandomStateOps} (w : World R) (dl : loc)
  (maxiter : Z) (iterfrac eta : R) (seed : Z) (D : nat) (X sep : matrix)
  (g' : Grid.t) :
  nth_error (heap w) dl = Some (Arr2 D X) ->
  (0 <= maxiter)%Z ->
  Grid.separations (_mapgeom (self w)) = Ok (sep, g') ->
  (-1 / 2 <= iterfrac * INR (length X) <= 1 / 2)%R ->
  (forall rng, fst (rng_choice rng (length X) 0) = Ok []) ->
  let size := Grid._size (_mapgeom (self w)) in
  let run := Fit.fit dl maxiter iterfrac eta "random" seed false w in
  snd run = Ok tt /\
  weights_of (fst run) =
    Some (size,
          fst (initial_weights X false D size (first_entry X)
                 (RandomState seed))) /\
  loss_of (fst run) = Some (repeat 0%R (Z.to_nat maxiter)) /\
  trace (fst run) = trace w.
Proof.
  intros Hdata Hmax Hsep Hfrac Hchoice size run.
  destruct (fit_follows w dl maxiter iterfrac eta seed false D X sep g'
              Hdata Hmax ltac:(discriminate) Hsep) as [Hres Hholds].
  fold run in Hres, Hholds.
  unfold FitSpec.fit, initial_state in Hres, Hholds.
  rewrite (py_round_small _ Hfrac) in Hres, Hholds.
  rewrite train_zero_batch in Hres, Hholds by assumption.
  cbn [fst snd] in Hres, Hholds.
  rewrite (FitClaims.weights_of_holds _ _ _ Hholds),
    (FitClaims.loss_of_holds _ _ _ Hholds),
    (FitClaims.trace_holds _ _ _ Hholds).
  cbn [t_m t_weights t_loss t_trace l_trace l_junk layout_of].
  rewrite map_repeat, app_nil_r. cbn [resolve]. auto.
Qed.

Lemma fit_zero_batch_witness :
  let run :=
    Fit.fit 0%nat 3 (1 / 10) (1 / 2) "random" 123 false
      fit_example_world in
  snd run = Ok tt /\
  weights_of (fst run) =
    Some (2%nat,
          fst (initial_weights [[0]; [1]]%R false 1 2
                 (first_entry [[0]; [1]]%R) (RandomState 123))) /\
  loss_of (fst run) = Some (repeat 0%R (Z.to_nat 3)) /\
  trace (fst run) = [].
Proof.
  apply (fit_zero_batch fit_example_world 0%nat 3 (1 / 10)%R (1 / 2)%R
           123 1 [[0]; [1]]%R [[0; 1]; [1; 0]]%R
           (Grid.mk 2 (Some [[0; 1]; [1; 0]]%R) [2%nat] [false] "L2")).
  - reflexivity.
  - lia.
  - reflexivity.
  - simpl. lra.
  - intros rng. reflexivity.
Defined.

(** X17.  SOMz mode needs a map of at least two nodes: on a grid of one
    node, or of none, [fit] raises ValueError whatever [maxiter] is,
    since no separation is positive. *)
Theorem fit_somz_needs_two_nodes `{RandomStateOps} (signature : list Z)
  (metric : string) (g0 : Grid.t) (w : World R) (dl : loc)
  (maxiter : Z) (iterfrac eta : R) (seed : Z) (D : nat) (X : matrix) :
  Grid.init signature metric = Ok g0 ->
  same_grid g0 (_mapgeom (self w)) ->
  (Grid._size g0 <= 1)%nat ->
  nth_error (heap w) dl = Some (Arr2 D X) ->
  has_first_entry X ->
  (0 <= maxiter)%Z ->
  snd (Fit.fit dl maxiter iterfrac eta "random" seed true w) =
  Raise ValueError.
Proof.
  intros Hinit Hsame Hsize Hdata Hfirst Hmax.
  destruct (grid_separations _ _ _ _ Hinit Hsame)
    as (S & g' & Hsep & _ & Hlen & Hrows & Hdiag).
  destruct (fit_follows w dl maxiter iterfrac eta seed true D X S g'
              Hdata Hmax (fun _ => Hfirst) Hsep) as [Hres _].
  rewrite Hres. unfold FitSpec.fit. apply train_somz_small.
  destruct S as [|row S]; [now left | right].
  simpl in Hlen. assert (Hone : Grid._size g0 = 1%nat) by lia.
  rewrite Hone in *.
  destruct S; [|simpl in Hlen; lia].
  inversion Hrows as [|r rs Hr _]; subst.
  destruct row as [|v [|? ?]]; try discriminate.
  specialize (Hdiag 0%nat ltac:(lia)). cbn in Hdiag.
  now injection Hdiag as ->.
Qed.

Lemma fit_somz_needs_two_nodes_witness :
  snd (Fit.fit 0%nat 3 (1 / 10) (1 / 2) "random" 123 true
         one_node_world) = Raise ValueError.
Proof.
  apply (fit_somz_needs_two_nodes [1%Z] "L2"
           (Grid.mk 1 None [1%nat] [false] "L2") one_node_world 0%nat 3
           (1 / 10)%R (1 / 2)%R 123 1 [[0]; [1]]%R).
  - reflexivity.
  - left. reflexivity.
  - simpl. lia.
  - reflexivity.
  - now exists 0%R, [], [[1%R]].
  - lia.
Defined.
End FitExtras.

(** ** The schedule of the default mode *)

Module ScheduleFacts.
Section ScheduleFacts.
Context `{RandomStateOps}.
Import FitSpec TrainProps FitFacts ScheduleSpec.






End ScheduleFacts.
End ScheduleFacts.

Module ScheduleExtras.
Import FitSpec TrainProps FitFacts FitRun ScheduleSpec ScheduleFacts
  Examples.


End ScheduleExtras.

(** ** Cache signatures *)

Module SignatureFacts.
Section SignatureFacts.
Import Signature.
Variable f : R -> R.
Hypothesis f_increasing : forall x y : R, (x < y)%R -> (f x < f y)%R.

Lemma Rltb_increasing (x y : R) : Rltb (f x) (f y) = Rltb x y.
Proof.
  unfold Rltb. destruct (Rlt_dec x y) as [Hlt|Hge].
  - destruct (Rlt_dec (f x) (f y)) as [|Hn]; [reflexivity|].
    exfalso. apply Hn. now apply f_increasing.
  - destruct (Rlt_dec (f x) (f y)) as [Hlt|]; [|reflexivity].
    exfalso. destruct (Rtotal_order x y) as [Hxy|[->|Hxy]].
    + contradiction.
    + lra.
    + pose proof (f_increasing _ _ Hxy). lra.
Qed.

Lemma argmin_from_increasing (l : list R) :
  forall (best i : nat) (mp : R),
    argmin_from best (f mp) i (map f l) = argmin_from best mp i l.
Proof.
  induction l as [|x l IH]; intros best i mp; [reflexivity|].
  cbn [map argmin_from]. change (dltb (f x) (f mp)) with (Rltb (f x) (f mp)).
  change (dltb x mp) with (Rltb x mp).
  rewrite Rltb_increasing. destruct (Rltb x mp); apply IH.
Qed.

Lemma argmax_from_increasing (l : list R) :
  forall (best i : nat) (mp : R),
    argmax_from best (f mp) i (map f l) = argmax_from best mp i l.
Proof.
  induction l as [|x l IH]; intros best i mp; [reflexivity|].
  cbn [map argmax_from]. change (dltb (f mp) (f x)) with (Rltb (f mp) (f x)).
  change (dltb mp x) with (Rltb mp x).
  rewrite Rltb_increasing. destruct (Rltb mp x); apply IH.
Qed.

Lemma argmin_increasing (l : list R) : argmin (map f l) = argmin l.
Proof.
  destruct l as [|x l]; [reflexivity|]. cbn [map argmin].
  now rewrite argmin_from_increasing.
Qed.

Lemma argmax_increasing (l : list R) : argmax (map f l) = argmax l.
Proof.
  destruct l as [|x l]; [reflexivity|]. cbn [map argmax].
  now rewrite argmax_from_increasing.
Qed.

Lemma column_map (D k : nat) (a : matrix) :
  Forall (fun row => length row = D) a -> (k < D)%nat ->
  column k (map (map f) a) = map f (column k a).
Proof.
  intros Ha Hk. unfold column. rewrite !map_map.
  apply map_ext_in. intros row Hin.
  rewrite Forall_forall in Ha. specialize (Ha row Hin).
  rewrite (nth_indep _ 0%R (f 0%R)) by (rewrite length_map; lia).
  apply map_nth.
Qed.

Lemma arg_axis0_increasing (arg : list R -> result nat) (D : nat)
  (a : matrix) :
  (forall l, arg (map f l) = arg l) ->
  Forall (fun row => length row = D) a ->
  arg_axis0 arg D (map (map f) a) = arg_axis0 arg D a.
Proof.
  intros Harg Ha. unfold arg_axis0.
  destruct a as [|row a]; [reflexivity|].
  cbn [map]. change (map f row :: map (map f) a)
    with (map (map f) (row :: a)).
  set (b := row :: a) in *.
  assert (Hcols : forall ks, Forall (fun k => (k < D)%nat) ks ->
    fold_right
      (fun k acc =>
         rbind (arg (column k (map (map f) b))) (fun j =>
         rbind acc (fun js => Ok (Z.of_nat j :: js))))
      (Ok []) ks =
    fold_right
      (fun k acc =>
         rbind (arg (column k b)) (fun j =>
         rbind acc (fun js => Ok (Z.of_nat j :: js))))
      (Ok []) ks).
  { induction 1 as [|k ks Hk _ IH]; [reflexivity|]. cbn [fold_right].
    rewrite IH, (column_map D) by assumption. now rewrite Harg. }
  apply Hcols. apply Forall_forall. intros k Hk. apply in_seq in Hk. lia.
Qed.
End SignatureFacts.
End SignatureFacts.

Module SignatureExtras.
Import Signature SignatureFacts.

(** X18.  The cache signature looks at the data only through its shape
    and the positions of the smallest and the largest value of every
    column: data transformed entry by entry by a strictly increasing
    function (shifted, rescaled by a positive factor) gets the same
    signature, for any hash function. *)
Theorem get_signature_ignores_values (sha256_hexdigest : list Z -> string)
  (f : R -> R) (N D : nat) (data : matrix) (mapsize maxiter : Z) :
  (forall x y : R, (x < y)%R -> (f x < f y)%R) ->
  well_shaped N D data ->
  get_signature sha256_hexdigest D (map (map f) data) mapsize maxiter =
  get_signature sha256_hexdigest D data mapsize maxiter.
Proof.
  intros Hf [Hrows Hcols]. unfold get_signature.
  rewrite (arg_axis0_increasing f argmin D data
             (argmin_increasing f Hf) Hcols).
  rewrite (arg_axis0_increasing f argmax D data
             (argmax_increasing f Hf) Hcols).
  now rewrite length_map.
Qed.

Lemma get_signature_ignores_values_witness :
  let digest (s : list Z) :=
    if Z.even (fold_right Z.add 0%Z s) then "0"%string else "1"%string in
  get_signature digest 2
    (map (map (fun x => x + 1)%R) [[0; 3]; [2; 1]]%R) 25 100 =
  get_signature digest 2 [[0; 3]; [2; 1]]%R 25 100.
Proof.
  intros digest.
  apply (get_signature_ignores_values digest
           (fun x => x + 1)%R 2 2 [[0; 3]; [2; 1]]%R 25 100).
  - intros x y Hxy. lra.
  - split; [reflexivity | repeat constructor].
Defined.
End SignatureExtras.

(** ** Running computations on the state of a map *)

Section StateFacts.
Context {St : Type}.

Lemma st_bind_run (X Y : Type) (c : ST St X) (k : X -> ST St Y)
  (s s' : St) (x : X) :
  c s = (s', Ok x) -> bind c k s = k x s'.
Proof. intros Hc. unfold bind. now rewrite Hc. Qed.

Lemma st_bind_raise (X Y : Type) (c : ST St X) (k : X -> ST St Y)
  (s s' : St) (e : exn) :
  c s = (s', Raise e) -> bind c k s = (s', Raise e).
Proof. intros Hc. unfold bind. now rewrite Hc. Qed.

(** A comprehension whose body only reads the state. *)
Lemma comprehension_reads (I X : Type) (items : list I)
  (body : I -> ST St X) (f : I -> X) (s : St) :
  (forall i, In i items -> body i s = (s, Ok (f i))) ->
  Mapping.comprehension items body s = (s, Ok (List.map f items)).
Proof.
  induction items as [|i items IH]; intros Hbody; [reflexivity|].
  cbn [Mapping.comprehension List.map].
  erewrite st_bind_run by (apply Hbody; now left).
  erewrite st_bind_run by (apply IH; intros j Hj; apply Hbody; now right).
  reflexivity.
Qed.
End StateFacts.

Module MappingFacts.
Import SelfOrganizingMap Fit FindBmuSpec MappingSpec.

Lemma in_world_run (X : Type) (c : M R X) (w w' : World R) (r : result X)
  (a : Mapped) :
  c w = (w', r) ->
  Mapping.in_world c (mkMapWorld w a) = (mkMapWorld w' a, r).
Proof. intros Hc. unfold Mapping.in_world. cbn. now rewrite Hc. Qed.

Lemma attr_run (X : Type) (proj : Mapped -> option X) (w : World R)
  (a : Mapped) (x : X) :
  proj a = Some x ->
  Mapping.attr proj (mkMapWorld w a) = (mkMapWorld w a, Ok x).
Proof.
  intros Hp. unfold Mapping.attr, bind, Mapping.get_mapped. cbn.
  now rewrite Hp.
Qed.

Lemma read_indices_run (w : World R) (a : Mapped) (il : loc)
  (v : list Z) :
  _indices a = Some il ->
  nth_error (heap w) il = Some (Int1 v) ->
  Mapping.read_indices (mkMapWorld w a) = (mkMapWorld w a, Ok v).
Proof.
  intros Ha Hil. unfold Mapping.read_indices.
  erewrite st_bind_run by (apply attr_run, Ha).
  apply in_world_run. unfold load_int1.
  erewrite bind_run by (apply load_run, Hil). reflexivity.
Qed.

(** ** Masks *)

Lemma boolean_index_cells (X : Type) (cell : X -> nat) (rows : list X)
  (i : nat) :
  boolean_index rows
    (eq_mask (List.map (fun x => Z.of_nat (cell x)) rows) (Z.of_nat i)) =
  Ok (filter (fun x => (cell x =? i)%nat) rows).
Proof.
  unfold boolean_index, eq_mask. rewrite !length_map, Nat.eqb_refl.
  f_equal. rewrite map_map.
  induction rows as [|x rows IH]; [reflexivity|].
  cbn [List.map combine filter snd].
  replace (Z.of_nat (cell x) =? Z.of_nat i)%Z with (cell x =? i)%nat.
  2:{ destruct (Nat.eqb_spec (cell x) i) as [->|Hne].
      - symmetry. apply Z.eqb_refl.
      - symmetry. apply Z.eqb_neq. lia. }
  destruct (cell x =? i)%nat; cbn [List.map fst]; now rewrite IH.
Qed.

Lemma boolean_index_targets (X Y : Type) (cell : X -> nat)
  (rows : list X) (target : list Y) (i : nat) :
  length target = length rows ->
  boolean_index target
    (eq_mask (List.map (fun x => Z.of_nat (cell x)) rows) (Z.of_nat i)) =
  Ok (List.map snd
        (filter (fun p => (cell (fst p) =? i)%nat) (combine rows target))).
Proof.
  intros Hlen. unfold boolean_index, eq_mask.
  rewrite !length_map, Hlen, Nat.eqb_refl.
  f_equal. rewrite map_map.
  revert target Hlen.
  induction rows as [|x rows IH]; intros [|y target] Hlen;
    try discriminate; [reflexivity|].
  cbn [List.map combine filter snd fst].
  replace (Z.of_nat (cell x) =? Z.of_nat i)%Z with (cell x =? i)%nat.
  2:{ destruct (Nat.eqb_spec (cell x) i) as [->|Hne].
      - symmetry. apply Z.eqb_refl.
      - symmetry. apply Z.eqb_neq. lia. }
  injection Hlen as Hlen.
  destruct (cell x =? i)%nat; cbn [List.map fst snd];
    now rewrite IH.
Qed.

(** ** Indexing with the assignment vector *)

Lemma getitem_int_nat (X : Type) (a : list X) (i : nat) :
  getitem_int a (Z.of_nat i) = getitem a i.
Proof.
  unfold getitem_int.
  destruct (Z.leb_spec 0 (Z.of_nat i)); [|lia]. now rewrite Nat2Z.id.
Qed.

Lemma take_cells (X Y : Type) (cell : X -> nat) (a : list Y) (d : Y)
  (rows : list X) :
  Forall (fun x => (cell x < length a)%nat) rows ->
  take a (List.map (fun x => Z.of_nat (cell x)) rows) =
  Ok (List.map (fun x => nth (cell x) a d) rows).
Proof.
  induction 1 as [|x rows Hx _ IH]; [reflexivity|].
  cbn [List.map take]. rewrite getitem_int_nat. unfold getitem.
  rewrite (nth_error_nth' a d Hx). cbn [rbind]. now rewrite IH.
Qed.

(** ** Counting *)

Lemma count_occ_cells (X : Type) (cell : X -> nat) (rows : list X)
  (i : nat) :
  count_occ Z.eq_dec (List.map (fun x => Z.of_nat (cell x)) rows)
    (Z.of_nat i) =
  length (filter (fun x => (cell x =? i)%nat) rows).
Proof.
  induction rows as [|x rows IH]; [reflexivity|].
  cbn [List.map count_occ filter].
  destruct (Nat.eqb_spec (cell x) i) as [Heq|Hne].
  - destruct (Z.eq_dec (Z.of_nat (cell x)) (Z.of_nat i)) as [_|Hn];
      [|lia]. cbn [length]. now rewrite IH.
  - destruct (Z.eq_dec (Z.of_nat (cell x)) (Z.of_nat i)) as [He|_];
      [lia | exact IH].
Qed.

Lemma bincount_cells (X : Type) (cell : X -> nat) (rows : list X)
  (size : nat) :
  Forall (fun x => (cell x < size)%nat) rows ->
  bincount (List.map (fun x => Z.of_nat (cell x)) rows) size =
  Ok (List.map
        (fun i => Z.of_nat (length (filter (fun x => (cell x =? i)%nat)
                                      rows)))
        (seq 0 size)).
Proof.
  intros Hlt. unfold bincount.
  assert (Hneg : existsb (fun i => (i <? 0)%Z)
                   (List.map (fun x => Z.of_nat (cell x)) rows) = false).
  { clear Hlt. induction rows as [|x rows IH]; [reflexivity|].
    cbn [List.map existsb]. rewrite IH.
    destruct (Z.ltb_spec (Z.of_nat (cell x)) 0); [lia | reflexivity]. }
  rewrite Hneg.
  assert (Hn : fold_right (fun i m => Nat.max (S (Z.to_nat i)) m) size
                 (List.map (fun x => Z.of_nat (cell x)) rows) = size).
  { clear Hneg. induction Hlt as [|x rows Hx _ IH]; [reflexivity|].
    cbn [List.map fold_right]. rewrite IH, Nat2Z.id. lia. }
  rewrite Hn. f_equal. apply map_ext. intros i.
  now rewrite count_occ_cells.
Qed.
End MappingFacts.

Module MappingRun.
Import SelfOrganizingMap Fit FindBmuSpec FindBmuRun MappingSpec
  MappingFacts.

Lemma cell_bound (weights : matrix) (W : nat) (rows : matrix) :
  (0 < W)%nat -> Forall (fun x => (cell weights W x < W)%nat) rows.
Proof.
  intros HW. apply Forall_forall. intros x _.
  exact (proj1 (nearest_first_min W x weights HW)).
Qed.

Lemma nth_map_seq (X : Type) (g : nat -> X) (d : X) (n i : nat) :
  (i < n)%nat -> nth i (List.map g (seq 0 n)) d = g i.
Proof.
  intros Hi. rewrite (nth_indep _ d (g 0%nat))
    by now rewrite length_map, length_seq.
  rewrite (map_nth g (seq 0 n) 0%nat i), seq_nth by assumption.
  reflexivity.
Qed.

(** [map] on a fitted map: it searches the best matching unit of every
    sample and assigns its six attributes. *)
Lemma map_run (w : World R) (a : Mapped) (data target : loc)
  (N D W : nat) (rows weights : matrix) (t : list R) :
  bmu_inputs w data N D W rows weights ->
  (0 < W)%nat ->
  (W <= Grid._size (_mapgeom (self w)))%nat ->
  nth_error (heap w) target = Some (Arr1 t) ->
  length t = N ->
  exists (planes : list (list (list R))) (d : matrix),
    Mapping.map data target (mkMapWorld w a) =
    (mkMapWorld
       (set_heap
          (locals (heap w)
             (List.map (fun x => Z.of_nat (cell weights W x)) rows)
             D W planes d) w)
       (mapped_by weights W (length (heap w)) rows t
          (Grid._size (_mapgeom (self w)))),
     Ok tt).
Proof.
  intros Hin HW Hsize Htarget Ht.
  destruct (find_bmu_run w data 1024 N D W rows weights Hin
              ltac:(lia) HW) as (planes & d & Hrun).
  exists planes, d.
  destruct Hin as (Hdata & [Hrows Hcols] & wl & Hself & Hwl & _).
  set (size := Grid._size (_mapgeom (self w))) in *.
  set (idx := List.map (fun x => Z.of_nat (cell weights W x)) rows).
  set (w1 := set_heap (locals (heap w) idx D W planes d) w).
  assert (Hidx : nth_error (heap w1) (length (heap w)) = Some (Int1 idx)).
  { subst w1. cbn [heap set_heap]. unfold locals.
    now rewrite nth_error_fresh0. }
  assert (Hdata1 : nth_error (heap w1) data = Some (Arr2 D rows)).
  { subst w1. cbn [heap set_heap]. unfold locals.
    now apply nth_error_old. }
  assert (Htarget1 : nth_error (heap w1) target = Some (Arr1 t)).
  { subst w1. cbn [heap set_heap]. unfold locals.
    now apply nth_error_old. }
  assert (Hgeom : forall a', Mapping.in_world mapgeom_size
                    (mkMapWorld w1 a') = (mkMapWorld w1 a', Ok size)).
  { intros a'. apply in_world_run. reflexivity. }
  assert (Hcell : Forall (fun x => (cell weights W x < size)%nat) rows).
  { eapply Forall_impl; [|apply (cell_bound weights W rows HW)].
    cbv beta. intros x Hx. lia. }
  unfold Mapping.map.
  erewrite st_bind_run by (apply in_world_run, Hrun).
  fold idx w1.
  erewrite st_bind_run by reflexivity.
  cbn [_feature_dist _target_dist _target_vals _target_pred _counts
       mapped world].
  (* the samples of every cell *)
  erewrite st_bind_run by apply Hgeom.
  erewrite st_bind_run.
  2:{ unfold range. rewrite Nat2Z.id.
      apply comprehension_reads
        with (f := fun i => cell_rows weights W rows (Z.to_nat i)).
      intros i Hi. apply in_map_iff in Hi as [j [<- _]].
      erewrite st_bind_run
        by (apply in_world_run; unfold load2;
            erewrite bind_run by (apply load_run, Hdata1); reflexivity).
      cbv beta iota.
      erewrite st_bind_run
        by (apply read_indices_run with (il := length (heap w));
            [reflexivity | exact Hidx]).
      unfold lift. subst idx. rewrite boolean_index_cells, Nat2Z.id.
      reflexivity. }
  erewrite st_bind_run by reflexivity.
  cbn [_indices _feature_dist _target_dist _target_vals _target_pred
       _counts mapped world].
  (* the targets of every cell *)
  erewrite st_bind_run by apply Hgeom.
  erewrite st_bind_run.
  2:{ unfold range. rewrite Nat2Z.id.
      apply comprehension_reads
        with (f := fun i => cell_targets weights W rows t (Z.to_nat i)).
      intros i Hi. apply in_map_iff in Hi as [j [<- _]].
      erewrite st_bind_run
        by (apply in_world_run; unfold load1;
            erewrite bind_run by (apply load_run, Htarget1);
            reflexivity).
      erewrite st_bind_run
        by (apply read_indices_run with (il := length (heap w));
            [reflexivity | exact Hidx]).
      unfold lift. subst idx.
      rewrite boolean_index_targets, Nat2Z.id by congruence.
      reflexivity. }
  erewrite st_bind_run by reflexivity.
  cbn [_indices _feature_dist _target_dist _target_vals _target_pred
       _counts mapped world].
  rewrite !map_map.
  set (fd := List.map _ (seq 0 size)).
  set (td := List.map _ (seq 0 size)).
  assert (Hfd : fd = List.map (cell_rows weights W rows) (seq 0 size)).
  { subst fd. apply map_ext. intros i. now rewrite Nat2Z.id. }
  assert (Htd : td = List.map (cell_targets weights W rows t)
                       (seq 0 size)).
  { subst td. apply map_ext. intros i. now rewrite Nat2Z.id. }
  clearbody fd td. subst fd td.
  set (td := List.map (cell_targets weights W rows t) (seq 0 size)).
  (* the mean target of every cell *)
  erewrite st_bind_run by apply Hgeom.
  erewrite st_bind_run.
  2:{ unfold range. rewrite Nat2Z.id.
      apply comprehension_reads
        with (f := fun i => np_mean1 (nth (Z.to_nat i) td [])).
      intros i Hi. apply in_map_iff in Hi as [j [<- Hj]].
      apply in_seq in Hj.
      erewrite st_bind_run by (apply attr_run; reflexivity).
      rewrite getitem_int_nat. unfold getitem.
      assert (Hjt : (j < length td)%nat)
        by (subst td; rewrite length_map, length_seq; lia).
      rewrite (nth_error_nth' td [] Hjt).
      unfold lift, bind, ret. now rewrite Nat2Z.id. }
  erewrite st_bind_run by reflexivity.
  cbn [_indices _feature_dist _target_dist _target_vals _target_pred
       _counts mapped world].
  rewrite map_map.
  set (tv := List.map (fun i => np_mean1 _) (seq 0 size)).
  assert (Htv : tv = List.map np_mean1 td).
  { subst tv td. rewrite map_map. apply map_ext_in. intros i Hi.
    apply in_seq in Hi. rewrite Nat2Z.id.
    now rewrite nth_map_seq by lia. }
  (* the prediction of every sample *)
  erewrite st_bind_run by (apply attr_run; reflexivity).
  erewrite st_bind_run
    by (apply read_indices_run with (il := length (heap w));
        [reflexivity | exact Hidx]).
  erewrite st_bind_run.
  2:{ unfold lift. subst idx.
      rewrite (take_cells _ _ (cell weights W) tv 0%R rows);
        [reflexivity|].
      eapply Forall_impl; [|exact Hcell]. cbv beta. intros x Hx.
      subst tv. now rewrite length_map, length_seq. }
  erewrite st_bind_run by reflexivity.
  cbn [_indices _feature_dist _target_dist _target_vals _target_pred
       _counts mapped world].
  (* the number of samples of every cell *)
  erewrite st_bind_run
    by (apply read_indices_run with (il := length (heap w));
        [reflexivity | exact Hidx]).
  erewrite st_bind_run by apply Hgeom.
  erewrite st_bind_run
    by (unfold lift; subst idx; rewrite bincount_cells by exact Hcell;
        reflexivity).
  unfold Mapping.set_counts, bind, Mapping.get_mapped, Mapping.set_mapped.
  cbn [_indices _feature_dist _target_dist _target_vals _target_pred
       _counts mapped world].
  unfold mapped_by. rewrite Htv. reflexivity.
Qed.
End MappingRun.

Lemma zip_with_seq (X Y V : Type) (f : X -> Y -> V) (g : nat -> Y) (d : X)
  (col : list X) :
  forall s : nat,
    zip_with f col (List.map g (seq s (length col))) =
    List.map (fun i => f (nth (i - s) col d) (g i)) (seq s (length col)).
Proof.
  induction col as [|x col IH]; intros s; [reflexivity|].
  cbn [length seq List.map zip_with]. rewrite Nat.sub_diag. cbn [nth].
  f_equal. rewrite IH. apply map_ext_in. intros i Hi. apply in_seq in Hi.
  replace (i - s)%nat with (S (i - S s)) by lia. reflexivity.
Qed.

Module TableFacts.

Lemma table_to_array_loop (t : Table) (w : World R) (h0 : list (ndarray R))
  (K : nat) (todo : list string) :
  forall done : list string,
    (forall name, In name todo -> length (getcol t name) = nrows t) ->
    (length done + length todo = K)%nat ->
    for_each (combine (seq (length done) (length todo)) todo)
      (fun kn =>
         bind (load2 (length h0)) (fun x =>
           match x with
           | (m, a) =>
               bind (lift (set_column m (fst kn) (getcol t (snd kn)) a))
                 (fun a => store (length h0) (Arr2 m a))
           end))
      (set_heap (h0 ++ [Arr2 K (partial_rows t done (length todo))]) w) =
    (set_heap (h0 ++ [Arr2 K (partial_rows t (done ++ todo) 0)]) w,
     Ok tt).
Proof.
  induction todo as [|name todo IH]; intros done Hok HK.
  - cbn [length seq combine for_each]. now rewrite app_nil_r.
  - cbn [length seq combine for_each].
    erewrite bind_run.
    2:{ erewrite bind_run.
        2:{ unfold load2. erewrite bind_run
              by (apply load_run; cbn [heap set_heap];
                  rewrite nth_error_fresh0; reflexivity).
            reflexivity. }
        cbv beta iota. cbn [fst snd].
        unfold set_column.
        assert (Hlt : (length done <? K)%nat = true)
          by (apply Nat.ltb_lt; simpl in HK; lia).
        rewrite Hlt. cbn [negb].
        assert (Hlen : length (getcol t name) =
                       length (partial_rows t done (S (length todo)))).
        { unfold partial_rows. rewrite length_map, length_seq.
          apply Hok. now left. }
        apply Nat.eqb_eq in Hlen as Hlenb. rewrite Hlenb.
        erewrite bind_run by reflexivity.
        rewrite (store_run _ _ (Arr2 K (partial_rows t done
                                         (S (length todo)))))
          by (cbn [heap set_heap]; rewrite nth_error_fresh0; reflexivity).
        cbn [heap set_heap]. rewrite list_set_fresh0. cbn [list_set].
        reflexivity. }
    cbn [set_heap heap self junk junk_int trace].
    replace (zip_with _ _ _)
      with (partial_rows t (done ++ [name]) (length todo)).
    2:{ unfold partial_rows.
        assert (Hn : length (getcol t name) = nrows t)
          by (apply Hok; now left).
        rewrite <- Hn at 2.
        rewrite (zip_with_seq _ _ _
                   (fun v row => list_set (length done) v row)
                   _ 0%R (getcol t name) 0).
        rewrite Hn. apply map_ext. intros i.
        rewrite Nat.sub_0_r, map_app. cbn [List.map repeat].
        rewrite <- app_assoc. cbn [app].
        rewrite <- (length_map (fun name0 => nth i (getcol t name0) 0%R)
                      done) at 1.
        now rewrite list_set_at. }
    specialize (IH (done ++ [name])).
    rewrite length_app, <- app_assoc in IH. cbn [length app] in IH.
    rewrite Nat.add_1_r in IH.
    apply IH.
    + intros n Hn. apply Hok. now right.
    + simpl in HK. lia.
Qed.

(** [table_to_array] allocates one array and fills it with the columns
    of the table. *)
Lemma table_to_array_run (t : Table) (w : World R) :
  table_ok t ->
  table_to_array t w =
  (set_heap (heap w ++ [Arr2 (length (colnames t)) (table_rows t)]) w,
   Ok (length (heap w))).
Proof.
  intros Hok. unfold table_to_array.
  erewrite bind_run by reflexivity.
  pose proof (table_to_array_loop t w (heap w) (length (colnames t))
                (colnames t) [] Hok eq_refl) as Hloop.
  cbn [length app] in Hloop.
  assert (H0 : partial_rows t [] (length (colnames t)) =
               repeat (repeat 0%R (length (colnames t))) (nrows t)).
  { unfold partial_rows. cbn [List.map app].
    now rewrite (repeat_as_map _ (nrows t) 0). }
  assert (H1 : partial_rows t (colnames t) 0 = table_rows t).
  { unfold partial_rows, table_rows. apply map_ext. intros i.
    apply app_nil_r. }
  rewrite H0, H1 in Hloop.
  erewrite bind_run by exact Hloop. reflexivity.
Qed.
End TableFacts.

Module MappingFacts2.
Import SelfOrganizingMap Fit FindBmuSpec FindBmuRun MappingSpec
  MappingFacts MappingRun.

Lemma first_min_unique {A : Type} `{DType A} (d : nat -> A) (W j j' : nat) :
  is_first_min d W j -> is_first_min d W j' -> j = j'.
Proof.
  intros (Hj & Hmin & Hfirst) (Hj' & Hmin' & Hfirst').
  destruct (Nat.lt_trichotomy j j') as [Hlt|[Heq|Hgt]]; [|assumption|].
  - specialize (Hfirst' j Hlt). specialize (Hmin j' Hj'). congruence.
  - specialize (Hfirst j' Hgt). specialize (Hmin' j Hj). congruence.
Qed.

Lemma cell_first_min (weights : matrix) (W : nat) (x : list R) (i : nat) :
  (0 < W)%nat ->
  cell weights W x = i <-> is_first_min (sqdist x weights) W i.
Proof.
  intros HW. pose proof (nearest_first_min W x weights HW) as Hn.
  split.
  - intros <-. exact Hn.
  - intros Hi. exact (first_min_unique _ _ _ _ Hn Hi).
Qed.

Lemma sum_indicator (c n : nat) :
  forall s : nat,
    (s <= c < s + n)%nat ->
    fold_right Z.add 0%Z
      (List.map (fun i => if (c =? i)%nat then 1%Z else 0%Z) (seq s n)) =
    1%Z.
Proof.
  induction n as [|n IH]; intros s Hs; [lia|].
  cbn [seq List.map fold_right].
  destruct (Nat.eqb_spec c s) as [->|Hne].
  - assert (Hz : forall m s', (s < s')%nat ->
               fold_right Z.add 0%Z
                 (List.map (fun i => if (s =? i)%nat then 1%Z else 0%Z)
                    (seq s' m)) = 0%Z).
    { induction m as [|m IHm]; intros s' Hs'; [reflexivity|].
      cbn [seq List.map fold_right].
      destruct (Nat.eqb_spec s s'); [lia|]. rewrite IHm by lia.
      reflexivity. }
    rewrite Hz by lia. reflexivity.
  - rewrite IH by lia. reflexivity.
Qed.

Lemma cells_partition (X : Type) (cell : X -> nat) (rows : list X)
  (size : nat) :
  Forall (fun x => (cell x < size)%nat) rows ->
  fold_right Z.add 0%Z
    (List.map
       (fun i => Z.of_nat (length (filter (fun x => (cell x =? i)%nat)
                                     rows)))
       (seq 0 size)) =
  Z.of_nat (length rows).
Proof.
  induction 1 as [|x rows Hx _ IH].
  - cbn [filter length]. induction (seq 0 size) as [|i l IHl];
      [reflexivity|]. cbn [List.map fold_right]. now rewrite IHl.
  - assert (Hsplit : forall l : list nat,
               fold_right Z.add 0%Z
                 (List.map
                    (fun i => Z.of_nat
                       (length (filter (fun x0 => (cell x0 =? i)%nat)
                                  (x :: rows)))) l) =
               (fold_right Z.add 0%Z
                  (List.map (fun i => if (cell x =? i)%nat then 1%Z
                                      else 0%Z) l) +
                fold_right Z.add 0%Z
                  (List.map
                     (fun i => Z.of_nat
                        (length (filter (fun x0 => (cell x0 =? i)%nat)
                                   rows))) l))%Z).
    { induction l as [|i l IHl]; [reflexivity|].
      cbn [List.map fold_right]. rewrite IHl. cbn [filter].
      destruct (cell x =? i)%nat; cbn [length]; lia. }
    rewrite Hsplit, IH, sum_indicator by lia. cbn [length]. lia.
Qed.

Lemma in_cell_targets (weights : matrix) (W : nat) (rows : matrix)
  (t : list R) (n : nat) (x : list R) (y : R) :
  nth_error rows n = Some x -> nth_error t n = Some y ->
  In y (cell_targets weights W rows t (cell weights W x)).
Proof.
  intros Hx Hy. unfold cell_targets.
  apply in_map_iff. exists (x, y). split; [reflexivity|].
  apply filter_In. split.
  - revert n t Hx Hy. induction rows as [|r rows IH]; intros [|n] [|v t];
      try discriminate; cbn [nth_error combine]; intros Hx Hy.
    + injection Hx as ->. injection Hy as ->. now left.
    + right. exact (IH n t Hx Hy).
  - cbn [fst]. apply Nat.eqb_refl.
Qed.
End MappingFacts2.

Module MappingExtras.
Import SelfOrganizingMap Fit FindBmuSpec FindBmuRun MappingSpec
  MappingFacts MappingRun MappingFacts2 TableFacts MapExamples.

(** X19.  [table_to_array] returns a new array with one row for every
    row of the table and one column for every column name, in order:
    entry [(i, k)] is entry [i] of the column named by the [k]-th name.
    It changes no other array. *)
Theorem table_to_array_transposes (t : Table) (w : World R) :
  table_ok t ->
  let run := table_to_array t w in
  exists (l : loc) (rows : matrix),
    snd run = Ok l /\
    heap (fst run) = heap w ++ [Arr2 (length (colnames t)) rows] /\
    l = length (heap w) /\
    self (fst run) = self w /\
    length rows = nrows t /\
    forall (i k : nat) (name : string),
      (i < nrows t)%nat ->
      nth_error (colnames t) k = Some name ->
      mat_get rows i k = nth_error (getcol t name) i.
Proof.
  intros Hok run. subst run. rewrite (table_to_array_run t w Hok).
  exists (length (heap w)), (table_rows t). cbn [fst snd heap set_heap self].
  repeat (split; [reflexivity|]).
  split; [unfold table_rows; now rewrite length_map, length_seq|].
  intros i k name Hi Hk. unfold mat_get, table_rows.
  rewrite (map_nth_error _ i (seq 0 (nrows t)) (d := i))
    by (rewrite nth_error_seq; apply Nat.ltb_lt in Hi; now rewrite Hi).
  rewrite (map_nth_error _ k (colnames t) Hk).
  symmetry. apply nth_error_nth'.
  rewrite (Hok name); [assumption|]. eapply nth_error_In, Hk.
Qed.

Lemma table_to_array_transposes_witness :
  let run := table_to_array example_table map_example_world in
  exists (l : loc) (rows : matrix),
    snd run = Ok l /\
    heap (fst run) = heap map_example_world ++ [Arr2 2 rows] /\
    l = 3%nat /\
    self (fst run) = self map_example_world /\
    length rows = 3%nat /\
    forall (i k : nat) (name : string),
      (i < 3)%nat ->
      nth_error ["u"; "g"]%string k = Some name ->
      mat_get rows i k = nth_error (getcol example_table name) i.
Proof.
  apply (table_to_array_transposes example_table map_example_world).
  intros name [<-|[<-|[]]]; reflexivity.
Defined.

(** X20.  [map] sorts the samples into the cells of the map: cell [i]
    receives exactly the samples whose best matching unit is [i],
    [_counts[i]] is their number, and the counts add up to the number of
    samples. *)
Theorem map_partitions_samples (w : World R) (a : Mapped)
  (data target : loc) (N D W : nat) (rows weights : matrix)
  (t : list R) :
  bmu_inputs w data N D W rows weights ->
  (0 < W)%nat ->
  (W <= Grid._size (_mapgeom (self w)))%nat ->
  nth_error (heap w) target = Some (Arr1 t) ->
  length t = N ->
  let size := Grid._size (_mapgeom (self w)) in
  let run := Mapping.map data target (mkMapWorld w a) in
  snd run = Ok tt /\
  exists (fd : list matrix) (c : list Z),
    _feature_dist (mapped (fst run)) = Some fd /\
    _counts (mapped (fst run)) = Some c /\
    length fd = size /\ length c = size /\
    (forall (i : nat) (samples : matrix),
        nth_error fd i = Some samples ->
        nth_error c i = Some (Z.of_nat (length samples)) /\
        forall x : list R,
          In x samples <->
          In x rows /\ is_first_min (sqdist x weights) W i) /\
    fold_right Z.add 0%Z c = Z.of_nat N.
Proof.
  intros Hin HW Hsize Htarget Ht size run.
  destruct (map_run w a data target N D W rows weights t Hin HW Hsize
              Htarget Ht) as (planes & d & Hrun).
  subst run. rewrite Hrun. cbn [fst snd mapped]. split; [reflexivity|].
  unfold mapped_by. cbn [_feature_dist _counts]. fold size.
  do 2 eexists. repeat (split; [reflexivity|]).
  split; [now rewrite length_map, length_seq|].
  split; [now rewrite length_map, length_seq|].
  split.
  - intros i samples Hi.
    assert (Hlt : (i < size)%nat).
    { apply nth_error_Some_lt in Hi || idtac.
      assert (Hl : (i < length (List.map (cell_rows weights W rows)
                                  (seq 0 size)))%nat)
        by (apply nth_error_Some; congruence).
      now rewrite length_map, length_seq in Hl. }
    rewrite (map_nth_error _ i (seq 0 size) (d := i)) in Hi
      by (rewrite nth_error_seq; apply Nat.ltb_lt in Hlt;
          now rewrite Hlt).
    injection Hi as <-.
    split.
    + rewrite (map_nth_error _ i (seq 0 size) (d := i))
        by (rewrite nth_error_seq; apply Nat.ltb_lt in Hlt;
            now rewrite Hlt).
      reflexivity.
    + intros x. unfold cell_rows. rewrite filter_In, Nat.eqb_eq.
      now rewrite (cell_first_min weights W x i HW).
  - unfold cell_rows.
    rewrite (cells_partition _ (cell weights W) rows size).
    + destruct Hin as (_ & [Hrows _] & _). now rewrite Hrows.
    + eapply Forall_impl; [|apply (cell_bound weights W rows HW)].
      cbv beta. intros x Hx. lia.
Qed.

Lemma map_example_inputs :
  bmu_inputs map_example_world 0 3 1 2 [[0]; [1]; [1]]%R [[0; 1]]%R.
Proof.
  split; [reflexivity|].
  split; [split; [reflexivity | repeat constructor]|].
  exists 1%nat. split; [reflexivity|]. split; [reflexivity|].
  split; [reflexivity | repeat constructor].
Defined.

Lemma map_partitions_samples_witness :
  let run := Mapping.map 0%nat 2%nat
               (mkMapWorld map_example_world unmapped) in
  snd run = Ok tt /\
  exists (fd : list matrix) (c : list Z),
    _feature_dist (mapped (fst run)) = Some fd /\
    _counts (mapped (fst run)) = Some c /\
    length fd = 2%nat /\ length c = 2%nat /\
    (forall (i : nat) (samples : matrix),
        nth_error fd i = Some samples ->
        nth_error c i = Some (Z.of_nat (length samples)) /\
        forall x : list R,
          In x samples <->
          In x [[0]; [1]; [1]]%R /\
          is_first_min (sqdist x [[0; 1]]%R) 2 i) /\
    fold_right Z.add 0%Z c = Z.of_nat 3.
Proof.
  apply (map_partitions_samples map_example_world unmapped 0%nat 2%nat
           3 1 2 [[0]; [1]; [1]]%R [[0; 1]]%R [10; 20; 40]%R).
  - exact map_example_inputs.
  - lia.
  - simpl. lia.
  - reflexivity.
  - reflexivity.
Defined.

(** X21.  After [map], the prediction stored for a training sample is
    the mean of the targets of its cell, the cell of its best matching
    unit; that cell holds at least the sample's own target, so the mean
    is taken over a non-empty list. *)
Theorem map_predicts_cell_mean (w : World R) (a : Mapped)
  (data target : loc) (N D W : nat) (rows weights : matrix)
  (t : list R) :
  bmu_inputs w data N D W rows weights ->
  (0 < W)%nat ->
  (W <= Grid._size (_mapgeom (self w)))%nat ->
  nth_error (heap w) target = Some (Arr1 t) ->
  length t = N ->
  let run := Mapping.map data target (mkMapWorld w a) in
  exists (td : list (list R)) (tp : list R),
    _target_dist (mapped (fst run)) = Some td /\
    _target_pred (mapped (fst run)) = Some tp /\
    length tp = N /\
    forall (n : nat) (x : list R) (y : R),
      nth_error rows n = Some x -> nth_error t n = Some y ->
      exists (j : nat) (ts : list R),
        is_first_min (sqdist x weights) W j /\
        nth_error td j = Some ts /\
        In y ts /\
        nth_error tp n = Some (np_mean1 ts).
Proof.
  intros Hin HW Hsize Htarget Ht run.
  destruct (map_run w a data target N D W rows weights t Hin HW Hsize
              Htarget Ht) as (planes & d & Hrun).
  subst run. rewrite Hrun. cbn [fst snd mapped].
  unfold mapped_by. cbn [_target_dist _target_pred].
  set (size := Grid._size (_mapgeom (self w))) in *.
  do 2 eexists. repeat (split; [reflexivity|]).
  split.
  { rewrite length_map. now destruct Hin as (_ & [Hrows _] & _). }
  intros n x y Hx Hy.
  pose proof (nearest_first_min W x weights HW) as Hmin.
  assert (Hlt : (cell weights W x < size)%nat)
    by (destruct Hmin as [Hj _]; unfold cell; lia).
  exists (cell weights W x), (cell_targets weights W rows t
                                (cell weights W x)).
  split; [exact Hmin|].
  split.
  { rewrite (map_nth_error _ (cell weights W x) (seq 0 size)
               (d := cell weights W x)); [reflexivity|].
    rewrite nth_error_seq. apply Nat.ltb_lt in Hlt. now rewrite Hlt. }
  split; [now apply (in_cell_targets weights W rows t n)|].
  rewrite (map_nth_error _ n rows Hx). f_equal.
  rewrite map_map. now rewrite nth_map_seq by assumption.
Qed.

Lemma map_predicts_cell_mean_witness :
  let run := Mapping.map 0%nat 2%nat
               (mkMapWorld map_example_world unmapped) in
  exists (td : list (list R)) (tp : list R),
    _target_dist (mapped (fst run)) = Some td /\
    _target_pred (mapped (fst run)) = Some tp /\
    length tp = 3%nat /\
    forall (n : nat) (x : list R) (y : R),
      nth_error [[0]; [1]; [1]]%R n = Some x ->
      nth_error [10; 20; 40]%R n = Some y ->
      exists (j : nat) (ts : list R),
        is_first_min (sqdist x [[0; 1]]%R) 2 j /\
        nth_error td j = Some ts /\
        In y ts /\
        nth_error tp n = Some (np_mean1 ts).
Proof.
  apply (map_predicts_cell_mean map_example_world unmapped 0%nat 2%nat
           3 1 2 [[0]; [1]; [1]]%R [[0; 1]]%R [10; 20; 40]%R).
  - exact map_example_inputs.
  - lia.
  - simpl. lia.
  - reflexivity.
  - reflexivity.
Defined.

(** [map_to_som] on an array, on a fitted map whose cells have their
    mean targets [tv]. *)
Lemma map_to_som_run (w : World R) (a : Mapped) (data : loc)
  (N D W : nat) (rows weights : matrix) (tv : list R) :
  bmu_inputs w data N D W rows weights ->
  (0 < W)%nat ->
  _target_vals a = Some tv ->
  snd (Mapping.map_to_som (Array data) (mkMapWorld w a)) =
  take tv (List.map (fun x => Z.of_nat (cell weights W x)) rows).
Proof.
  intros Hin HW Htv.
  destruct (find_bmu_run w data 1024 N D W rows weights Hin
              ltac:(lia) HW) as (planes & d & Hrun).
  unfold Mapping.map_to_som.
  erewrite st_bind_run by reflexivity.
  erewrite st_bind_run by (apply in_world_run, Hrun).
  erewrite st_bind_run by (apply attr_run, Htv).
  erewrite st_bind_run.
  2:{ apply in_world_run. unfold load_int1.
      erewrite bind_run
        by (apply load_run; cbn [heap set_heap]; unfold locals;
            rewrite nth_error_fresh0; reflexivity).
      reflexivity. }
  reflexivity.
Qed.

(** X22.  Round trip: after [map(data, target)], [map_to_som(data)] on
    the same data returns the predictions [map] stored in
    [_target_pred]. *)
Theorem map_to_som_round_trip (w : World R) (a : Mapped)
  (data target : loc) (N D W : nat) (rows weights : matrix)
  (t : list R) :
  bmu_inputs w data N D W rows weights ->
  (0 < W)%nat ->
  (W <= Grid._size (_mapgeom (self w)))%nat ->
  nth_error (heap w) target = Some (Arr1 t) ->
  length t = N ->
  let mapped_world := fst (Mapping.map data target (mkMapWorld w a)) in
  exists tp : list R,
    _target_pred (mapped mapped_world) = Some tp /\
    snd (Mapping.map_to_som (Array data) mapped_world) = Ok tp.
Proof.
  intros Hin HW Hsize Htarget Ht mapped_world.
  destruct (map_run w a data target N D W rows weights t Hin HW Hsize
              Htarget Ht) as (planes & d & Hrun).
  subst mapped_world. rewrite Hrun. cbn [fst mapped].
  eexists. split; [reflexivity|].
  rewrite (map_to_som_run _ _ data N D W rows weights
             (List.map np_mean1
                (List.map (cell_targets weights W rows t)
                   (seq 0 (Grid._size (_mapgeom (self w)))))));
    [| now apply FindBmuClaims.bmu_inputs_locals | assumption
     | reflexivity].
  apply take_cells.
  eapply Forall_impl; [|apply (cell_bound weights W rows HW)].
  cbv beta. intros x Hx. rewrite !length_map, length_seq. lia.
Qed.

Lemma map_to_som_round_trip_witness :
  let mapped_world :=
    fst (Mapping.map 0%nat 2%nat
           (mkMapWorld map_example_world unmapped)) in
  exists tp : list R,
    _target_pred (mapped mapped_world) = Some tp /\
    snd (Mapping.map_to_som (Array 0%nat) mapped_world) = Ok tp.
Proof.
  apply (map_to_som_round_trip map_example_world unmapped 0%nat 2%nat
           3 1 2 [[0]; [1]; [1]]%R [[0; 1]]%R [10; 20; 40]%R).
  - exact map_example_inputs.
  - lia.
  - simpl. lia.
  - reflexivity.
  - reflexivity.
Defined.

(** X23.  [map_to_som] needs [map] to have run: on a fitted map whose
    cells have no targets yet it searches the best matching units and
    then raises AttributeError. *)
Theorem map_to_som_needs_map (w : World R) (a : Mapped) (data : loc)
  (N D W : nat) (rows weights : matrix) :
  bmu_inputs w data N D W rows weights ->
  (0 < W)%nat ->
  _target_vals a = None ->
  let run := Mapping.map_to_som (Array data) (mkMapWorld w a) in
  snd run = Raise AttributeError /\
  length (heap (world (fst run))) = (length (heap w) + 3)%nat /\
  mapped (fst run) = a.
Proof.
  intros Hin HW Hnone run.
  destruct (find_bmu_run w data 1024 N D W rows weights Hin
              ltac:(lia) HW) as (planes & d & Hrun).
  subst run. unfold Mapping.map_to_som.
  erewrite st_bind_run by reflexivity.
  erewrite st_bind_run by (apply in_world_run, Hrun).
  unfold Mapping.attr, bind, Mapping.get_mapped. cbn [mapped].
  rewrite Hnone. cbn [fst snd world mapped heap set_heap].
  split; [reflexivity|]. split; [|reflexivity].
  unfold raise. cbn [fst world heap set_heap]. unfold locals.
  now rewrite length_app.
Qed.

Lemma map_to_som_needs_map_witness :
  let run :=
    Mapping.map_to_som (Array 0%nat)
      (mkMapWorld map_example_world unmapped) in
  snd run = Raise AttributeError /\
  length (heap (world (fst run))) = (3 + 3)%nat /\
  mapped (fst run) = unmapped.
Proof.
  apply (map_to_som_needs_map map_example_world unmapped 0%nat 3 1 2
           [[0]; [1]; [1]]%R [[0; 1]]%R).
  - exact map_example_inputs.
  - lia.
  - reflexivity.
Defined.
End MappingExtras.

Module MappingFacts3.
Import SelfOrganizingMap Fit FindBmuSpec FindBmuRun MappingSpec
  MappingFacts MappingRun MappingFacts2 TableFacts.

(** [map_to_som] once the data is an array: the search, then the mean
    targets of the cells, if [map] has stored them. *)
Lemma map_to_som_search (w : World R) (a : Mapped) (data : loc)
  (N D W : nat) (rows weights : matrix) :
  bmu_inputs w data N D W rows weights ->
  (0 < W)%nat ->
  snd (bind (Mapping.in_world (find_bmu data 1024))
         (fun best =>
            bind (Mapping.attr _target_vals) (fun vals =>
            bind (Mapping.in_world (load_int1 best)) (fun best =>
            lift (take vals best))))
         (mkMapWorld w a)) =
  match _target_vals a with
  | Some tv => take tv (List.map (fun x => Z.of_nat (cell weights W x)) rows)
  | None => Raise AttributeError
  end.
Proof.
  intros Hin HW.
  destruct (find_bmu_run w data 1024 N D W rows weights Hin
              ltac:(lia) HW) as (planes & d & Hrun).
  erewrite st_bind_run by (apply in_world_run, Hrun).
  destruct (_target_vals a) as [tv|] eqn:Htv.
  - erewrite st_bind_run by (apply attr_run, Htv).
    erewrite st_bind_run.
    2:{ apply in_world_run. unfold load_int1.
        erewrite bind_run
          by (apply load_run; cbn [heap set_heap]; unfold locals;
              rewrite nth_error_fresh0; reflexivity).
        reflexivity. }
    reflexivity.
  - unfold Mapping.attr, bind, Mapping.get_mapped. cbn [mapped].
    now rewrite Htv.
Qed.

Lemma table_rows_shaped (t : Table) :
  well_shaped (nrows t) (length (colnames t)) (table_rows t).
Proof.
  unfold table_rows. split; [now rewrite length_map, length_seq|].
  apply Forall_forall. intros row Hin.
  apply in_map_iff in Hin as [i [<- _]]. apply length_map.
Qed.
End MappingFacts3.

Module MappingExtras2.
Import SelfOrganizingMap Fit FindBmuSpec FindBmuRun MappingSpec
  MappingFacts MappingRun MappingFacts2 MappingFacts3 TableFacts
  MapExamples.

(** X25.  [map_to_som] accepts a table for an array: called with a table
    it returns, or raises, what it does when called with the array that
    holds the columns of the table. *)
Theorem map_to_som_accepts_tables (w : World R) (a : Mapped) (t : Table)
  (l wl : loc) (W : nat) (weights : matrix) :
  table_ok t ->
  nth_error (heap w) l = Some (Arr2 (length (colnames t)) (table_rows t)) ->
  _weights (self w) = Some wl ->
  nth_error (heap w) wl = Some (Arr2 W weights) ->
  well_shaped (length (colnames t)) W weights ->
  (0 < W)%nat ->
  snd (Mapping.map_to_som (TableData t) (mkMapWorld w a)) =
  snd (Mapping.map_to_som (Array l) (mkMapWorld w a)).
Proof.
  intros Hok Hl Hself Hwl Hweights HW.
  unfold Mapping.map_to_som.
  erewrite (st_bind_run _ _ (Mapping.in_world (table_to_array t)))
    by (apply in_world_run, table_to_array_run, Hok).
  erewrite (st_bind_run _ _ (ret l)) by reflexivity.
  rewrite (map_to_som_search _ a _ (nrows t) (length (colnames t)) W
             (table_rows t) weights).
  - rewrite (map_to_som_search _ a _ (nrows t) (length (colnames t)) W
               (table_rows t) weights); [reflexivity | | assumption].
    split; [assumption|]. split; [apply table_rows_shaped|].
    exists wl. auto.
  - split; [cbn [heap set_heap]; now rewrite nth_error_fresh0|].
    split; [apply table_rows_shaped|].
    exists wl. cbn [heap set_heap self].
    split; [assumption|]. split; [now apply nth_error_old | assumption].
  - assumption.
Qed.

Lemma map_to_som_accepts_tables_witness :
  let mw :=
    mkMapWorld table_example_world
      (mkMapped None None None (Some [10; 20]%R) None None) in
  snd (Mapping.map_to_som (TableData example_table) mw) =
  snd (Mapping.map_to_som (Array 0%nat) mw).
Proof.
  intros mw.
  apply (map_to_som_accepts_tables table_example_world _ example_table
           0%nat 1%nat 2 [[0; 3]; [0; 6]]%R).
  - intros name [<-|[<-|[]]]; reflexivity.
  - reflexivity.
  - reflexivity.
  - reflexivity.
  - split; [reflexivity | repeat constructor].
  - lia.
Defined.

(** X26.  [map] needs one target for every sample: with a target array
    of another length (on a map of at least one cell) it raises
    IndexError, after it has assigned [_indices] and [_feature_dist];
    the other attributes stay as they were. *)
Theorem map_target_mismatch (w : World R) (a : Mapped)
  (data target : loc) (N D W : nat) (rows weights : matrix)
  (t : list R) :
  bmu_inputs w data N D W rows weights ->
  (0 < W)%nat ->
  (W <= Grid._size (_mapgeom (self w)))%nat ->
  nth_error (heap w) target = Some (Arr1 t) ->
  length t <> N ->
  let run := Mapping.map data target (mkMapWorld w a) in
  snd run = Raise IndexError /\
  _indices (mapped (fst run)) = Some (length (heap w)) /\
  (exists fd : list matrix, _feature_dist (mapped (fst run)) = Some fd) /\
  _target_dist (mapped (fst run)) = _target_dist a /\
  _target_vals (mapped (fst run)) = _target_vals a /\
  _target_pred (mapped (fst run)) = _target_pred a /\
  _counts (mapped (fst run)) = _counts a.
Proof.
  intros Hin HW Hsize Htarget Ht run.
  destruct (find_bmu_run w data 1024 N D W rows weights Hin
              ltac:(lia) HW) as (planes & d & Hrun).
  destruct Hin as (Hdata & [Hrows Hcols] & wl & Hself & Hwl & _).
  set (size := Grid._size (_mapgeom (self w))) in *.
  set (idx := List.map (fun x => Z.of_nat (nearest weights W x)) rows)
    in *.
  set (w1 := set_heap (locals (heap w) idx D W planes d) w) in *.
  assert (Hidx : nth_error (heap w1) (length (heap w)) = Some (Int1 idx)).
  { subst w1. cbn [heap set_heap]. unfold locals.
    now rewrite nth_error_fresh0. }
  assert (Hdata1 : nth_error (heap w1) data = Some (Arr2 D rows)).
  { subst w1. cbn [heap set_heap]. unfold locals.
    now apply nth_error_old. }
  assert (Htarget1 : nth_error (heap w1) target = Some (Arr1 t)).
  { subst w1. cbn [heap set_heap]. unfold locals.
    now apply nth_error_old. }
  assert (Hgeom : forall a', Mapping.in_world mapgeom_size
                    (mkMapWorld w1 a') = (mkMapWorld w1 a', Ok size)).
  { intros a'. apply in_world_run. reflexivity. }
  subst run. unfold Mapping.map.
  erewrite st_bind_run by (apply in_world_run, Hrun).
  erewrite st_bind_run by reflexivity.
  cbn [_feature_dist _target_dist _target_vals _target_pred _counts
       mapped world].
  erewrite st_bind_run by apply Hgeom.
  erewrite st_bind_run.
  2:{ unfold range. rewrite Nat2Z.id.
      apply comprehension_reads
        with (f := fun i => cell_rows weights W rows (Z.to_nat i)).
      intros i Hi. apply in_map_iff in Hi as [j [<- _]].
      erewrite st_bind_run
        by (apply in_world_run; unfold load2;
            erewrite bind_run by (apply load_run, Hdata1); reflexivity).
      cbv beta iota.
      erewrite st_bind_run
        by (apply read_indices_run with (il := length (heap w));
            [reflexivity | exact Hidx]).
      unfold lift. subst idx.
      rewrite (boolean_index_cells _ (nearest weights W)), Nat2Z.id.
      reflexivity. }
  erewrite st_bind_run by reflexivity.
  cbn [_indices _feature_dist _target_dist _target_vals _target_pred
       _counts mapped world].
  erewrite st_bind_run by apply Hgeom.
  assert (Hcomp : forall a',
             _indices a' = Some (length (heap w)) ->
             Mapping.comprehension (range (Z.of_nat size))
               (fun i =>
                  bind (Mapping.in_world (load1 target)) (fun t0 =>
                  bind Mapping.read_indices (fun v =>
                  lift (boolean_index t0 (eq_mask v i)))))
               (mkMapWorld w1 a') =
             (mkMapWorld w1 a', Raise IndexError)).
  { intros a' Ha'. unfold range. rewrite Nat2Z.id.
    assert (Hpos : (0 < size)%nat) by lia. clearbody size.
    destruct size as [|size']; [lia|].
    cbn [seq List.map Mapping.comprehension].
    apply st_bind_raise.
    erewrite st_bind_run
      by (apply in_world_run; unfold load1;
          erewrite bind_run by (apply load_run, Htarget1);
          reflexivity).
    erewrite st_bind_run
      by (apply read_indices_run with (il := length (heap w));
          [exact Ha' | exact Hidx]).
    unfold lift, boolean_index, eq_mask. subst idx.
    rewrite !length_map, Hrows.
    apply Nat.eqb_neq in Ht. rewrite Nat.eqb_sym, Ht. reflexivity. }
  erewrite st_bind_raise by (apply Hcomp; reflexivity).
  cbn [fst snd mapped _indices _feature_dist _target_dist _target_vals
       _target_pred _counts].
  repeat split. eexists. reflexivity.
Qed.

Lemma map_target_mismatch_witness :
  let w :=
    mkWorld
      [Arr2 1 [[0]; [1]; [1]]%R; Arr2 2 [[0; 1]]%R; Arr1 [10; 20]%R]
      (mkSOM (Grid.mk 2 None [2%nat] [false] "L2") (Some 1%nat) None
         (Some 0%nat))
      0%R 0%Z [] in
  let run := Mapping.map 0%nat 2%nat (mkMapWorld w unmapped) in
  snd run = Raise IndexError /\
  _indices (mapped (fst run)) = Some 3%nat /\
  (exists fd : list matrix, _feature_dist (mapped (fst run)) = Some fd) /\
  _target_dist (mapped (fst run)) = None /\
  _target_vals (mapped (fst run)) = None /\
  _target_pred (mapped (fst run)) = None /\
  _counts (mapped (fst run)) = None.
Proof.
  intros w.
  apply (map_target_mismatch w unmapped 0%nat 2%nat 3 1 2
           [[0]; [1]; [1]]%R [[0; 1]]%R [10; 20]%R).
  - split; [reflexivity|].
    split; [split; [reflexivity | repeat constructor]|].
    exists 1%nat. split; [reflexivity|]. split; [reflexivity|].
    split; [reflexivity | repeat constructor].
  - lia.
  - simpl. lia.
  - reflexivity.
  - simpl. lia.
Defined.
End MappingExtras2.

